(** * Population dashboard: the wide-to-long normalizer and its helpers

    A shallow embedding of the data path of
    [streamlit_app_population_dashboard.py] (region standardizer, header
    grammar, melt/merge, numeric coercion, date construction, groupby-max)
    and of the national-total aggregation and centroid loader of
    [streamlit_app_population_dashboard_plotly_bubblemap.py].

    Python text is a list of Unicode code points, a pandas cell is a tagged
    value, a float is an IEEE-754 binary64 value ([spec_float]), and a call
    that can raise returns a [result].  The library calls are those of
    pandas 2: [melt] refuses a frame with a column named as its
    [value_name], and [to_datetime] reads a column by the format of its
    first text; what it does with date text of another shape than
    YYYY-MM-DD is the work of dateutil and is a parameter of the
    conversion. *)

From Stdlib Require Import ZArith List Bool Lia Permutation Sorted.
From Stdlib Require Import Floats.SpecFloat.
Import ListNotations.
Local Open Scope Z_scope.

(** ** Exceptions *)

Inductive exn : Type :=
| ValueError (msg : list Z)
| KeyError (key : list Z)
| OutOfBoundsDatetime (text : list Z).

Inductive result (A : Type) : Type :=
| Ok (a : A)
| Raise (e : exn).
Arguments Ok {A} a.
Arguments Raise {A} e.

Definition bind {A B : Type} (r : result A) (k : A -> result B) : result B :=
  match r with
  | Ok a => k a
  | Raise e => Raise e
  end.

Notation "'do' x <- r ;; k" := (bind r (fun x => k))
  (at level 10, x name, r at level 100, k at level 200).

(** [try: r except: h] is Python's [try ... except: ...] with a bare
    handler: every exception of [r] is replaced by [h]. *)
Definition try_except {A : Type} (r : result A) (h : A) : A :=
  match r with
  | Ok a => a
  | Raise _ => h
  end.

Fixpoint mapM {A B : Type} (f : A -> result B) (l : list A) : result (list B) :=
  match l with
  | [] => Ok []
  | a :: t => do b <- f a ;; do bs <- mapM f t ;; Ok (b :: bs)
  end.

(** ** Python [str] *)

Module PyStr.

Definition char := Z.
Definition pystr := list char.

Fixpoint eqb (s t : pystr) : bool :=
  match s, t with
  | [], [] => true
  | c :: s', d :: t' => (c =? d) && eqb s' t'
  | _, _ => false
  end.

(** [str.isspace] of one character (Unicode 14: bidirectional class WS, B
    or S, or category Zs); this is the set [str.strip()] removes. *)
Definition isspace (c : char) : bool :=
  ((0x09 <=? c) && (c <=? 0x0D)) || ((0x1C <=? c) && (c <=? 0x20))
  || (c =? 0x85) || (c =? 0xA0) || (c =? 0x1680)
  || ((0x2000 <=? c) && (c <=? 0x200A))
  || (c =? 0x2028) || (c =? 0x2029) || (c =? 0x202F) || (c =? 0x205F)
  || (c =? 0x3000).

(** Removal of the leading, and of the trailing, characters that satisfy
    [sp].  The right strip is by structural recursion: a character is kept
    when it does not satisfy [sp] or when something remains to its right. *)
Fixpoint lstrip_with (sp : char -> bool) (s : pystr) : pystr :=
  match s with
  | [] => []
  | c :: t => if sp c then lstrip_with sp t else s
  end.

Fixpoint rstrip_with (sp : char -> bool) (s : pystr) : pystr :=
  match s with
  | [] => []
  | c :: t =>
      match rstrip_with sp t with
      | [] => if sp c then [] else [c]
      | r => c :: r
      end
  end.

(** [s.strip()] *)
Definition strip (s : pystr) : pystr :=
  rstrip_with isspace (lstrip_with isspace s).

(** [s.startswith(p)] *)
Fixpoint startswith (s p : pystr) : bool :=
  match p with
  | [] => true
  | d :: p' =>
      match s with
      | [] => false
      | c :: s' => (c =? d) && startswith s' p'
      end
  end.

(** [s.replace(old, new, count)] for a non-empty [old]: scanning from the
    left, each of the first [count] non-overlapping occurrences of [old] is
    replaced by [new].  [skip] counts the characters of the occurrence just
    replaced that are still to be passed over. *)
Fixpoint replace_go (old new : pystr) (count skip : nat) (s : pystr) : pystr :=
  match s with
  | [] => []
  | c :: t =>
      match skip with
      | S k => replace_go old new count k t
      | O =>
          match count with
          | S n =>
              if startswith s old
              then new ++ replace_go old new n (length old - 1) t
              else c :: replace_go old new count O t
          | O => c :: replace_go old new count O t
          end
      end
  end.

Definition replace_count (old new : pystr) (count : nat) (s : pystr) : pystr :=
  replace_go old new count O s.

(** [s.replace(old, new)]: no limit; a string of length n holds at most n
    occurrences. *)
Definition replace (old new : pystr) (s : pystr) : pystr :=
  replace_go old new (length s) O s.

(** [s.zfill(width)] for a string without a sign prefix. *)
Definition zfill (width : nat) (s : pystr) : pystr :=
  repeat 0x30 (width - length s) ++ s.

(** Decimal digits of a natural number, most significant first. *)
Fixpoint digits_fuel (fuel : nat) (n : Z) (acc : pystr) : pystr :=
  match fuel with
  | O => acc
  | S f =>
      let acc' := (0x30 + n mod 10) :: acc in
      if n <? 10 then acc' else digits_fuel f (n / 10) acc'
  end.

(** [str(n)] of a Python [int]. *)
Definition str_int (n : Z) : pystr :=
  match n with
  | Z0 => [0x30]
  | Zpos _ => digits_fuel (Z.to_nat (Z.log2 n) + 1) n []
  | Zneg _ => 0x2D :: digits_fuel (Z.to_nat (Z.log2 (- n)) + 1) (- n) []
  end.

(** Starts of the runs of ten consecutive characters of Unicode category Nd
    (decimal digits); the k-th character of a run has value k. *)
Definition digit_runs : list Z :=
  [0x30; 0x660; 0x6F0; 0x7C0; 0x966; 0x9E6; 0xA66; 0xAE6; 0xB66; 0xBE6;
   0xC66; 0xCE6; 0xD66; 0xDE6; 0xE50; 0xED0; 0xF20; 0x1040; 0x1090; 0x17E0;
   0x1810; 0x1946; 0x19D0; 0x1A80; 0x1A90; 0x1B50; 0x1BB0; 0x1C40; 0x1C50;
   0xA620; 0xA8D0; 0xA900; 0xA9D0; 0xA9F0; 0xAA50; 0xABF0; 0xFF10; 0x104A0;
   0x10D30; 0x11066; 0x110F0; 0x11136; 0x111D0; 0x112F0; 0x11450; 0x114D0;
   0x11650; 0x116C0; 0x11730; 0x118E0; 0x11950; 0x11C50; 0x11D50; 0x11DA0;
   0x16A60; 0x16AC0; 0x16B50; 0x1D7CE; 0x1D7D8; 0x1D7E2; 0x1D7EC; 0x1D7F6;
   0x1E140; 0x1E2F0; 0x1E950; 0x1FBF0].

Fixpoint digit_in (runs : list Z) (c : char) : option Z :=
  match runs with
  | [] => None
  | s :: t => if (s <=? c) && (c <? s + 10) then Some (c - s) else digit_in t c
  end.

(** Value of a decimal digit character ([\d] of [re], the digits [int] and
    [float] accept), [None] for every other character. *)
Definition digit_value (c : char) : option Z := digit_in digit_runs c.

End PyStr.
Import PyStr.

(** ** Python [float]: IEEE-754 binary64 *)

Module PyFloat.

Definition float := spec_float.
Definition prec : Z := 53.
Definition emax : Z := 1024.

Definition nan : float := S754_nan.
Definition zero : float := S754_zero false.

Definition isnan (f : float) : bool :=
  match f with
  | S754_nan => true
  | _ => false
  end.

(** Structural equality; on canonical values it is identity of the
    represented number and sign. *)
Definition same (x y : float) : bool :=
  match x, y with
  | S754_zero a, S754_zero b => Bool.eqb a b
  | S754_infinity a, S754_infinity b => Bool.eqb a b
  | S754_nan, S754_nan => true
  | S754_finite a m e, S754_finite b n k => Bool.eqb a b && Pos.eqb m n && (e =? k)
  | _, _ => false
  end.

Definition add : float -> float -> float := SFadd prec emax.
Definition sub : float -> float -> float := SFsub prec emax.
Definition ltb : float -> float -> bool := SFltb.
Definition leb : float -> float -> bool := SFleb.

(** The binary64 value nearest to [(-1)^neg * m * 10^e] (ties to even),
    for [0 <= m]: the correctly rounded conversion that [float(str)]
    performs on a decimal literal. *)
Definition of_decimal (neg : bool) (m e : Z) : float :=
  match m with
  | Zpos p =>
      match e with
      | Zneg k =>
          SFdiv prec emax (S754_finite neg p 0)
                (S754_finite false (Pos.pow 10 k) 0)
      | _ => binary_round prec emax neg (Z.to_pos (m * 10 ^ e)) 0
      end
  | _ => S754_zero neg
  end.

(** [float(n)] of a Python [int] that is in range. *)
Definition of_int (n : Z) : float := of_decimal (n <? 0) (Z.abs n) 0.

(** *** [float(s)] on text *)

(** [Py_ISSPACE] and [Py_ISDIGIT]: the ASCII classes of the C parser. *)
Definition ascii_space (c : char) : bool :=
  ((0x09 <=? c) && (c <=? 0x0D)) || (c =? 0x20).

Definition ascii_digit (c : char) : bool := (0x30 <=? c) && (c <=? 0x39).

(** [Py_TOLOWER] *)
Definition tolower (c : char) : char :=
  if (0x41 <=? c) && (c <=? 0x5A) then c + 0x20 else c.

(** The conversion [float] applies to its argument first: an ASCII
    character is kept, any other space becomes [' '], any other decimal
    digit becomes its ASCII digit, and at the first character that is
    neither the copy ends with ['?']. *)
Fixpoint to_ascii (s : pystr) : pystr :=
  match s with
  | [] => []
  | c :: t =>
      if c <? 127 then c :: to_ascii t
      else if isspace c then 0x20 :: to_ascii t
      else match digit_value c with
           | Some d => (0x30 + d) :: to_ascii t
           | None => [0x3F]
           end
  end.

(** Underscores are allowed only between two digits and are dropped; [prev]
    is the character before [s] (0 at the start). *)
Fixpoint drop_underscores (prev : char) (s : pystr) : option pystr :=
  match s with
  | [] => if prev =? 0x5F then None else Some []
  | c :: t =>
      if c =? 0x5F then
        if ascii_digit prev then drop_underscores c t else None
      else if (prev =? 0x5F) && negb (ascii_digit c) then None
      else option_map (cons c) (drop_underscores c t)
  end.

Definition has_underscore (s : pystr) : bool := existsb (Z.eqb 0x5F) s.

Fixpoint take_digits (acc : Z) (n : nat) (s : pystr) : Z * nat * pystr :=
  match s with
  | [] => (acc, n, [])
  | c :: t =>
      if ascii_digit c then take_digits (10 * acc + (c - 0x30)) (S n) t
      else (acc, n, s)
  end.

Definition take_sign (s : pystr) : bool * pystr :=
  match s with
  | 0x2D :: t => (true, t)
  | 0x2B :: t => (false, t)
  | _ => (false, s)
  end.

(** [sign? ("inf" | "infinity" | "nan")], letters of either case, the whole
    string. *)
Definition parse_inf_or_nan (s : pystr) : option float :=
  let '(neg, t) := take_sign s in
  let low := map tolower t in
  if PyStr.eqb low [0x69; 0x6E; 0x66] then Some (S754_infinity neg)
  else if PyStr.eqb low [0x69; 0x6E; 0x66; 0x69; 0x6E; 0x69; 0x74; 0x79]
  then Some (S754_infinity neg)
  else if PyStr.eqb low [0x6E; 0x61; 0x6E] then Some S754_nan
  else None.

(** [sign? (digits ["." digits?] | "." digits) (("e"|"E") sign? digits)?],
    the whole string: sign, decimal mantissa and decimal exponent. *)
Definition parse_decimal (s : pystr) : option (bool * Z * Z) :=
  let '(neg, s1) := take_sign s in
  let '(ip, ni, s2) := take_digits 0 0 s1 in
  let '(m, nf, s3) :=
    match s2 with
    | 0x2E :: t => take_digits ip 0 t
    | _ => (ip, O, s2)
    end in
  if (ni + nf =? 0)%nat then None
  else
    match s3 with
    | [] => Some (neg, m, - Z.of_nat nf)
    | c :: t =>
        if (c =? 0x65) || (c =? 0x45) then
          let '(eneg, t1) := take_sign t in
          let '(ev, ne, t2) := take_digits 0 0 t1 in
          match ne, t2 with
          | S _, [] => Some (neg, m, (if eneg then - ev else ev) - Z.of_nat nf)
          | _, _ => None
          end
        else None
    end.

Definition parse_ascii (s : pystr) : option float :=
  match parse_decimal s with
  | Some (neg, m, e) => Some (of_decimal neg m e)
  | None => parse_inf_or_nan s
  end.

(** [float(s)] for a [str]: raises [ValueError] when [s] is not a float
    literal. *)
Definition py_float (s : pystr) : result float :=
  let a := rstrip_with ascii_space (lstrip_with ascii_space (to_ascii s)) in
  let u := if has_underscore a then drop_underscores 0 a else Some a in
  match u with
  | None => Raise (ValueError s)
  | Some b =>
      match parse_ascii b with
      | Some f => Ok f
      | None => Raise (ValueError s)
      end
  end.

(** *** [repr(x)] of a float: the shortest decimal that reads back as [x] *)

(** A positive finite [m * 2^e] as a fraction. *)
Definition ratio (m : positive) (e : Z) : Z * Z :=
  if 0 <=? e then (Zpos m * 2 ^ e, 1) else (Zpos m, 2 ^ (- e)).

(** [10^d <= num/den] *)
Definition pow10_le (d num den : Z) : bool :=
  if 0 <=? d then 10 ^ d * den <=? num else den <=? num * 10 ^ (- d).

Fixpoint raise_exp (fuel : nat) (d num den : Z) : Z :=
  match fuel with
  | O => d
  | S n => if pow10_le (d + 1) num den then raise_exp n (d + 1) num den else d
  end.

(** The decimal exponent [d] with [10^d <= num/den < 10^(d+1)]. *)
Definition decimal_exponent (m : positive) (e : Z) : Z :=
  let '(num, den) := ratio m e in
  let b := Zpos (digits2_pos m) + e in
  raise_exp 3 ((b - 1) * 30103 / 100000 - 1) num den.

(** [floor (num/den / 10^p)] and the position of the remainder against one
    half. *)
Definition scaled (p num den : Z) : Z * comparison :=
  let n := if 0 <=? p then num else num * 10 ^ (- p) in
  let d := if 0 <=? p then den * 10 ^ p else den in
  let q := n / d in
  (q, (2 * (n - q * d)) ?= d).

Fixpoint shortest (fuel : nat) (k : Z) (x : float) (num den dexp : Z) : Z * Z :=
  match fuel with
  | O => (0, 0)
  | S n =>
      let p := dexp - (k - 1) in
      let '(q, half) := scaled p num den in
      let down := same (of_decimal false q p) x in
      let up := same (of_decimal false (q + 1) p) x in
      let nearer_up :=
        match half with
        | Gt => true
        | Eq => Z.odd q
        | Lt => false
        end in
      if down && up then (if nearer_up then q + 1 else q, p)
      else if down then (q, p)
      else if up then (q + 1, p)
      else shortest n (k + 1) x num den dexp
  end.

Fixpoint trim_zeros (fuel : nat) (c p : Z) : Z * Z :=
  match fuel with
  | O => (c, p)
  | S n => if (c mod 10 =? 0) && (0 <? c) then trim_zeros n (c / 10) (p + 1) else (c, p)
  end.

(** Layout of the digits [ds] with the decimal point after [decpt] of
    them: positional for [-4 < decpt <= 16], else with an exponent of at
    least two digits. *)
Definition layout (ds : pystr) (decpt : Z) : pystr :=
  let n := Z.of_nat (length ds) in
  if (decpt <=? -4) || (16 <? decpt) then
    let e := decpt - 1 in
    let mant :=
      match ds with
      | [] => []
      | d :: [] => [d]
      | d :: r => d :: 0x2E :: r
      end in
    mant ++ [0x65; if e <? 0 then 0x2D else 0x2B] ++ zfill 2 (str_int (Z.abs e))
  else if decpt <=? 0 then
    [0x30; 0x2E] ++ repeat 0x30 (Z.to_nat (- decpt)) ++ ds
  else if n <=? decpt then
    ds ++ repeat 0x30 (Z.to_nat (decpt - n)) ++ [0x2E; 0x30]
  else
    firstn (Z.to_nat decpt) ds ++ [0x2E] ++ skipn (Z.to_nat decpt) ds.

Definition minus (neg : bool) (s : pystr) : pystr :=
  if neg then 0x2D :: s else s.

(** [repr(x)], which is also [str(x)], of a float. *)
Definition repr (x : float) : pystr :=
  match x with
  | S754_nan => [0x6E; 0x61; 0x6E]
  | S754_infinity neg => minus neg [0x69; 0x6E; 0x66]
  | S754_zero neg => minus neg [0x30; 0x2E; 0x30]
  | S754_finite neg m e =>
      let '(num, den) := ratio m e in
      let '(c0, p0) :=
        shortest 17 1 (S754_finite false m e) num den (decimal_exponent m e) in
      let '(c, p) := trim_zeros 17 c0 p0 in
      let ds := str_int c in
      minus neg (layout ds (p + Z.of_nat (length ds)))
  end.

End PyFloat.
Import PyFloat.

(** ** Cells of a frame read from CSV *)

(** A cell holds text, an integer, a float or a boolean; a missing value
    is the float NaN, as [pd.read_csv] leaves it, or [None]. *)
Inductive cell : Type :=
| CStr (s : pystr)
| CInt (n : Z)
| CFloat (f : float)
| CBool (b : bool)
| CNone.

(** [pd.isna(x)] on a scalar *)
Definition isna (x : cell) : bool :=
  match x with
  | CFloat f => isnan f
  | CNone => true
  | _ => false
  end.

(** [str(x)] *)
Definition str (x : cell) : pystr :=
  match x with
  | CStr s => s
  | CNone => [0x4E; 0x6F; 0x6E; 0x65]
  | CInt n => str_int n
  | CFloat f => repr f
  | CBool true => [0x54; 0x72; 0x75; 0x65]
  | CBool false => [0x46; 0x61; 0x6C; 0x73; 0x65]
  end.

(** ** Text constants of the source *)

Module K.
(** "전라북도" *)
Definition JEOLLABUK : pystr := [0xC804; 0xB77C; 0xBD81; 0xB3C4].
(** "전북특별자치도" *)
Definition JEONBUK : pystr := [0xC804; 0xBD81; 0xD2B9; 0xBCC4; 0xC790; 0xCE58; 0xB3C4].
(** "행정구역" *)
Definition REGION : pystr := [0xD589; 0xC815; 0xAD6C; 0xC5ED].
(** "행정구역_표준" *)
Definition REGION_STD : pystr := [0xD589; 0xC815; 0xAD6C; 0xC5ED; 0x5F; 0xD45C; 0xC900].
(** "년", "월" *)
Definition NYEON : char := 0xB144.
Definition WOL : char := 0xC6D4.
(** "전월인구수", "당월인구수", "인구증감" *)
Definition PREV_POP : pystr := [0xC804; 0xC6D4; 0xC778; 0xAD6C; 0xC218].
Definition CUR_POP : pystr := [0xB2F9; 0xC6D4; 0xC778; 0xAD6C; 0xC218].
Definition POP_CHANGE : pystr := [0xC778; 0xAD6C; 0xC99D; 0xAC10].
(** "남자인구수", "여자인구수", "계" *)
Definition MALE : pystr := [0xB0A8; 0xC790; 0xC778; 0xAD6C; 0xC218].
Definition FEMALE : pystr := [0xC5EC; 0xC790; 0xC778; 0xAD6C; 0xC218].
Definition TOTAL : pystr := [0xACC4].
(** "value_raw", the [value_name] of the melt *)
Definition VALUE_RAW : pystr := [0x76; 0x61; 0x6C; 0x75; 0x65; 0x5F; 0x72; 0x61; 0x77].
(** ",", "-", "-01" *)
Definition COMMA : pystr := [0x2C].
Definition DASH : pystr := [0x2D].
Definition DASH01 : pystr := [0x2D; 0x30; 0x31].
End K.

(** ** The region standardizer *)

(** [standardize_region]: a missing name is returned as it is; any other
    is turned into text and stripped, and a leading "전라북도" is replaced,
    once, by "전북특별자치도". *)
Definition standardize_region (s : cell) : cell :=
  if isna s then s
  else
    let s := strip (str s) in
    CStr (if startswith s K.JEOLLABUK
          then replace_count K.JEOLLABUK K.JEONBUK 1 s
          else s).

(** ** Numeric coercion *)

(** [to_num]: the body of the [try] is [float(s)]; the bare [except]
    turns every exception into NaN. *)
Definition to_num (x : cell) : float :=
  if isna x then nan
  else
    let s := replace K.COMMA [] (strip (str x)) in
    if PyStr.eqb s [] then nan
    else try_except (py_float s) nan.

(** ** The header grammar *)

(** One column of [meta]: the column name and the groups of the match. *)
Record meta_row : Type := MetaRow {
  m_col : pystr;
  m_year : Z;
  m_month : Z;
  m_measure : pystr;
  m_sex : pystr
}.

Module Header.

(** [\d]: one decimal digit, with its value. *)
Definition digit (s : pystr) : option (Z * pystr) :=
  match s with
  | [] => None
  | c :: t => option_map (fun d => (d, t)) (digit_value c)
  end.

(** A literal: the rest of [s] after the prefix [p]. *)
Fixpoint lit (p s : pystr) : option pystr :=
  match p with
  | [] => Some s
  | d :: p' =>
      match s with
      | [] => None
      | c :: s' => if c =? d then lit p' s' else None
      end
  end.

(** [$]: at the end of the text, or before a newline that ends it. *)
Definition at_end (s : pystr) : bool :=
  match s with
  | [] => true
  | [0x0A] => true
  | _ => false
  end.

(** An alternation of literals followed by the continuation [k]: the
    first alternative after which [k] succeeds. *)
Fixpoint alt {A : Type} (alts : list pystr) (k : pystr -> pystr -> option A)
    (s : pystr) : option A :=
  match alts with
  | [] => None
  | a :: rest =>
      match lit a s with
      | Some t =>
          match k a t with
          | Some r => Some r
          | None => alt rest k s
          end
      | None => alt rest k s
      end
  end.

(** [_(measure)_(sex)$] after the month. *)
Definition tail (s : pystr) : option (pystr * pystr) :=
  match lit [0x5F] s with
  | None => None
  | Some s1 =>
      alt [K.PREV_POP; K.CUR_POP; K.POP_CHANGE]
          (fun measure s2 =>
             match lit [0x5F] s2 with
             | None => None
             | Some s3 =>
                 alt [K.MALE; K.FEMALE; K.TOTAL]
                     (fun sex s4 => if at_end s4 then Some (measure, sex) else None)
                     s3
             end)
          s1
  end.

(** [(\d{1,2})월...]: two digits are tried first, then one. *)
Definition month_and_tail (s : pystr) : option (Z * (pystr * pystr)) :=
  match digit s with
  | None => None
  | Some (a, s1) =>
      let one :=
        match s1 with
        | c :: s2 => if c =? K.WOL then option_map (pair a) (tail s2) else None
        | [] => None
        end in
      match digit s1 with
      | Some (b, c :: s3) =>
          if c =? K.WOL then
            match tail s3 with
            | Some r => Some (10 * a + b, r)
            | None => one
            end
          else one
      | _ => one
      end
  end.

(** [pattern.match(c)] with the groups converted as the source does:
    [(int(ym), int(m), measure, sex)]. *)
Definition parse (c : pystr) : option (Z * Z * pystr * pystr) :=
  match digit c with
  | Some (d1, s1) =>
  match digit s1 with
  | Some (d2, s2) =>
  match digit s2 with
  | Some (d3, s3) =>
  match digit s3 with
  | Some (d4, y :: s5) =>
      if y =? K.NYEON then
        match month_and_tail s5 with
        | Some (m, (measure, sex)) =>
            Some (1000 * d1 + 100 * d2 + 10 * d3 + d4, m, measure, sex)
        | None => None
        end
      else None
  | _ => None
  end
  | None => None
  end
  | None => None
  end
  | None => None
  end.

End Header.

(** The loop that builds [meta]: one row per matching column, in column
    order; a column that does not match is passed over. *)
Fixpoint build_meta (value_cols : list pystr) : list meta_row :=
  match value_cols with
  | [] => []
  | c :: rest =>
      match Header.parse c with
      | None => build_meta rest
      | Some (y, m, measure, sex) => MetaRow c y m measure sex :: build_meta rest
      end
  end.

(** ** Timestamps and [pd.to_datetime] *)

(** A date-only [Timestamp] (midnight), by its calendar fields. *)
Record Timestamp : Type := MkTs { ts_year : Z; ts_month : Z; ts_day : Z }.

Module Dates.

Definition is_leap (y : Z) : bool :=
  (y mod 4 =? 0) && (negb (y mod 100 =? 0) || (y mod 400 =? 0)).

Definition days_in_month (y m : Z) : Z :=
  if m =? 2 then (if is_leap y then 29 else 28)
  else if (m =? 4) || (m =? 6) || (m =? 9) || (m =? 11) then 30
  else 31.

(** Lexicographic order of the calendar fields: chronological order. *)
Definition compare (a b : Timestamp) : comparison :=
  match ts_year a ?= ts_year b with
  | Eq =>
      match ts_month a ?= ts_month b with
      | Eq => ts_day a ?= ts_day b
      | c => c
      end
  | c => c
  end.

Definition leb (a b : Timestamp) : bool :=
  match compare a b with
  | Gt => false
  | _ => true
  end.

Definition eqb (a b : Timestamp) : bool :=
  (ts_year a =? ts_year b) && (ts_month a =? ts_month b) && (ts_day a =? ts_day b).

(** The midnights a nanosecond [Timestamp] can hold:
    1677-09-22 .. 2262-04-11. *)
Definition in_bounds (t : Timestamp) : bool :=
  leb (MkTs 1677 9 22) t && leb t (MkTs 2262 4 11).

Definition two (a b : char) : option Z :=
  if ascii_digit a && ascii_digit b then Some (10 * (a - 0x30) + (b - 0x30))
  else None.

(** One element read as ISO 8601 date text [YYYY-MM-DD], the format
    "%Y-%m-%d", with the default [errors="raise"]: text of another shape
    or naming no calendar day raises [ValueError], a day outside the
    nanosecond range raises [OutOfBoundsDatetime].  [to_datetime] below
    says for which columns the elements are read so. *)
Definition parse_iso (s : pystr) : result Timestamp :=
  match s with
  | [y1; y2; y3; y4; s1; m1; m2; s2; d1; d2] =>
      if (s1 =? 0x2D) && (s2 =? 0x2D) then
        match two y1 y2, two y3 y4, two m1 m2, two d1 d2 with
        | Some yh, Some yl, Some m, Some d =>
            let y := 100 * yh + yl in
            if (1 <=? m) && (m <=? 12) && (1 <=? d) && (d <=? days_in_month y m)
            then
              let t := MkTs y m d in
              if in_bounds t then Ok t else Raise (OutOfBoundsDatetime s)
            else Raise (ValueError s)
        | _, _, _, _ => Raise (ValueError s)
        end
      else Raise (ValueError s)
  | _ => Raise (ValueError s)
  end.

(** The shape YYYY-MM-DD of ISO 8601: four digits, two and two. *)
Definition iso_shape (s : pystr) : bool :=
  match s with
  | [y1; y2; y3; y4; s1; m1; m2; s2; d1; d2] =>
      ascii_digit y1 && ascii_digit y2 && ascii_digit y3 && ascii_digit y4
      && (s1 =? 0x2D) && ascii_digit m1 && ascii_digit m2
      && (s2 =? 0x2D) && ascii_digit d1 && ascii_digit d2
  | _ => false
  end.

(** What [pd.to_datetime] makes of a column of text. *)
Definition reader : Type := list pystr -> result (list Timestamp).

(** [pd.to_datetime(series)] of pandas 2, without [format] and with the
    default [errors="raise"]: the first text decides how the column is
    read.  When it has the shape YYYY-MM-DD, every element is read as ISO
    8601 text: the format inferred from a first text that names a day is
    "%Y-%m-%d", and a first text that names none is read by nothing; the
    first element that cannot be read aborts the call.  When the first text
    has another shape (a year below 1000 is written with fewer than four
    digits), the column goes through dateutil, whose reading depends on
    the text and on the current year: [other] stands for the library
    there. *)
Definition to_datetime (other : reader) (l : list pystr)
    : result (list Timestamp) :=
  match l with
  | [] => Ok []
  | s :: _ => if iso_shape s then mapM parse_iso l else other l
  end.

End Dates.

(** ** dateutil, for date text of another shape *)

Module Dateutil.

(** Three numbers with "-" between them: value and number of digits of
    each.  The date text of the conversion has this form; other text is
    not described here. *)
Definition three (s : pystr) : option ((Z * nat) * (Z * nat) * (Z * nat)) :=
  let '(a, la, r1) := take_digits 0 0 s in
  match r1 with
  | 0x2D :: r2 =>
      let '(b, lb, r3) := take_digits 0 0 r2 in
      match r3 with
      | 0x2D :: r4 =>
          let '(c, lc, r5) := take_digits 0 0 r4 in
          match r5 with
          | [] =>
              if (0 <? la)%nat && (0 <? lb)%nat && (0 <? lc)%nat
              then Some ((a, la), (b, lb), (c, lc))
              else None
          | _ => None
          end
      | _ => None
      end
  | _ => None
  end.

(** [parserinfo.convertyear]: a year below 100 written with one or two
    digits is put into the current century and moved by a century when it
    is 50 years or more ahead of, or more than 50 years behind, the
    current year. *)
Definition convertyear (this_year year : Z) (century_specified : bool) : Z :=
  if (year <? 100) && negb century_specified then
    let year := year + this_year / 100 * 100 in
    if this_year + 50 <=? year then year - 100
    else if year <? this_year - 50 then year + 100
    else year
  else year.

(** [parser.parse] on three numbers, [dayfirst] and [yearfirst] off
    ([_ymd.resolve_ymd]): a first number of three digits or more, or above
    31, is the year and month and day follow; a first number above 12 is
    the day, followed by month and year; any other first number is the
    month, followed by day and year.  A date that does not exist raises. *)
Definition parse (this_year : Z) (s : pystr) : result Timestamp :=
  match three s with
  | Some ((a, la), (b, lb), (c, lc)) =>
      let labelled := (2 <? la)%nat in
      let century := labelled || (2 <? lb)%nat || (2 <? lc)%nat in
      let '(y, m, d) :=
        if labelled || (31 <? a) then (a, b, c)
        else if 12 <? a then (c, b, a)
        else (c, a, b) in
      let y := convertyear this_year y century in
      if (1 <=? y) && (y <=? 9999) && (1 <=? m) && (m <=? 12)
         && (1 <=? d) && (d <=? Dates.days_in_month y m)
      then Ok (MkTs y m d)
      else Raise (ValueError s)
  | None => Raise (ValueError s)
  end.

(** One element read by itself: as ISO 8601 text when it is such text,
    by dateutil when not; a day outside the nanosecond range raises. *)
Definition read (this_year : Z) (s : pystr) : result Timestamp :=
  match Dates.parse_iso s with
  | Ok t => Ok t
  | Raise (OutOfBoundsDatetime e) => Raise (OutOfBoundsDatetime e)
  | Raise _ =>
      do t <- parse this_year s ;;
      if Dates.in_bounds t then Ok t else Raise (OutOfBoundsDatetime s)
  end.

(** A column for which no format is inferred: each element by itself. *)
Definition read_column (this_year : Z) : Dates.reader := mapM (read this_year).

End Dateutil.

(** ** Frames *)

(** A frame is its columns in order, each a name and its cells; in a frame
    read from CSV the names are distinct and the columns equally long. *)
Definition frame : Type := list (pystr * list cell).

Definition columns (df : frame) : list pystr := map fst df.

(** [df[name]]: [KeyError] when no column has the name. *)
Fixpoint getcol (df : frame) (name : pystr) : result (list cell) :=
  match df with
  | [] => Raise (KeyError name)
  | (c, cells) :: rest => if PyStr.eqb c name then Ok cells else getcol rest name
  end.

(** [df[name] = cells]: the column is replaced where it is, or added as
    the last one. *)
Fixpoint setcol (df : frame) (name : pystr) (cells : list cell) : frame :=
  match df with
  | [] => [(name, cells)]
  | (c, old) :: rest =>
      if PyStr.eqb c name then (c, cells) :: rest
      else (c, old) :: setcol rest name cells
  end.

Definition mem (c : pystr) (l : list pystr) : bool := existsb (PyStr.eqb c) l.

(** A row of [raw.melt(id_vars=[region, region_std], value_vars=...,
    var_name="col", value_name="value_raw")]. *)
Record melted : Type := Melted {
  l_region : cell;
  l_region_std : cell;
  l_col : pystr;
  l_value_raw : cell
}.

(** The rows of the melt: the value columns one after the other, in the
    order given, each with the identifier columns beside it. *)
Fixpoint melt_rows (df : frame) (region region_std : list cell)
    (value_vars : list pystr) : result (list melted) :=
  match value_vars with
  | [] => Ok []
  | c :: rest =>
      do cells <- getcol df c ;;
      do tl <- melt_rows df region region_std rest ;;
      Ok (map (fun '(r, rs, v) => Melted r rs c v)
              (combine (combine region region_std) cells) ++ tl)
  end.

(** "value_name (value_raw) cannot match an element in the DataFrame
    columns." *)
Definition VALUE_NAME_IN_COLUMNS : pystr :=
  [0x76; 0x61; 0x6C; 0x75; 0x65; 0x5F; 0x6E; 0x61; 0x6D; 0x65; 0x20; 0x28; 0x76; 0x61; 0x6C; 0x75; 0x65; 0x5F; 0x72; 0x61; 0x77; 0x29; 0x20; 0x63; 0x61; 0x6E; 0x6E; 0x6F; 0x74; 0x20; 0x6D; 0x61; 0x74; 0x63; 0x68; 0x20; 0x61; 0x6E; 0x20; 0x65; 0x6C; 0x65; 0x6D; 0x65; 0x6E; 0x74; 0x20; 0x69; 0x6E; 0x20; 0x74; 0x68; 0x65; 0x20; 0x44; 0x61; 0x74; 0x61; 0x46; 0x72; 0x61; 0x6D; 0x65; 0x20; 0x63; 0x6F; 0x6C; 0x75; 0x6D; 0x6E; 0x73; 0x2E].

(** [melt] of pandas 2: it begins by refusing a frame that has a column
    named as [value_name], here "value_raw"; then it gives the rows. *)
Definition melt (df : frame) (region region_std : list cell)
    (value_vars : list pystr) : result (list melted) :=
  if mem K.VALUE_RAW (columns df)
  then Raise (ValueError VALUE_NAME_IN_COLUMNS)
  else melt_rows df region region_std value_vars.

(** A row of [long] after [.merge(meta, on="col", how="left")]; the
    fields of [meta] are missing when no row of [meta] has the column. *)
Record long_row : Type := LongRow {
  g_melted : melted;
  g_meta : option meta_row
}.

(** The left join on ["col"]: a row of [long] for every pair of a melted
    row and a row of [meta] with its column, in the order of the melted
    rows. *)
Definition merge_left (l : list melted) (meta : list meta_row) : list long_row :=
  flat_map
    (fun r =>
       match filter (fun m => PyStr.eqb (m_col m) (l_col r)) meta with
       | [] => [LongRow r None]
       | ms => map (fun m => LongRow r (Some m)) ms
       end)
    l.

(** The text [year.astype(str) + "-" + month.astype(str).str.zfill(2) +
    "-01"] of a row.  The two columns are integer columns unless a row
    without [meta] put NaN into them ([floats]): then they are float
    columns. *)
Definition int_text (floats : bool) (n : Z) : pystr :=
  if floats then repr (of_int n) else str_int n.

Definition date_text (floats : bool) (r : long_row) : pystr :=
  match g_meta r with
  | Some m =>
      int_text floats (m_year m) ++ K.DASH
      ++ zfill 2 (int_text floats (m_month m)) ++ K.DASH01
  | None => repr nan ++ K.DASH ++ zfill 2 (repr nan) ++ K.DASH01
  end.

Definition unmatched (r : long_row) : bool :=
  match g_meta r with
  | Some _ => false
  | None => true
  end.

(** A row of [tidy]. *)
Record tidy_row : Type := Tidy {
  t_region : cell;
  t_date : Timestamp;
  t_measure : cell;
  t_sex : cell;
  t_value : float
}.

Definition meta_text (f : meta_row -> pystr) (r : long_row) : cell :=
  match g_meta r with
  | Some m => CStr (f m)
  | None => CFloat nan
  end.

Definition make_tidy (r : long_row) (d : Timestamp) : tidy_row :=
  Tidy (l_region_std (g_melted r)) d (meta_text m_measure r) (meta_text m_sex r)
       (to_num (l_value_raw (g_melted r))).

(** ** [groupby(...).agg()] *)

Section GroupBy.
Context {Key : Type}.
Variable key_eqb : Key -> Key -> bool.
Variable key_leb : Key -> Key -> bool.

Definition key_in (k : Key) (l : list Key) : bool := existsb (key_eqb k) l.

(** The distinct keys, each at its first occurrence. *)
Fixpoint distinct (seen l : list Key) : list Key :=
  match l with
  | [] => []
  | k :: t => if key_in k seen then distinct seen t else k :: distinct (k :: seen) t
  end.

Fixpoint insert_sorted (k : Key) (l : list Key) : list Key :=
  match l with
  | [] => [k]
  | h :: t => if key_leb k h then k :: l else h :: insert_sorted k t
  end.

Fixpoint sort_keys (l : list Key) : list Key :=
  match l with
  | [] => []
  | k :: t => insert_sorted k (sort_keys t)
  end.

(** The values of a group, in row order. *)
Definition group_values (k : Key) (rows : list (Key * float)) : list float :=
  map snd (filter (fun r => key_eqb (fst r) k) rows).

(** One output row per distinct key, in key order ([sort=True]), with
    the aggregate of the group's values. *)
Definition groupby_agg (agg : list float -> float) (rows : list (Key * float))
    : list (Key * float) :=
  map (fun k => (k, agg (group_values k rows)))
      (sort_keys (distinct [] (map fst rows))).
End GroupBy.

(** The running maximum after the first value: a later value replaces it
    when it is strictly greater; NaN is passed over. *)
Fixpoint max_from (m : float) (l : list float) : float :=
  match l with
  | [] => m
  | v :: t => if isnan v then max_from m t
              else max_from (if ltb m v then v else m) t
  end.

(** [.max()] of a group: NaN is skipped; a group without any other value
    gives NaN. *)
Fixpoint agg_max (l : list float) : float :=
  match l with
  | [] => nan
  | v :: t => if isnan v then agg_max t else max_from v t
  end.

(** One step of the compensated (Kahan) summation of [.sum()]. *)
Definition kahan_step (st : float * float) (val : float) : float * float :=
  let '(sumx, compensation) := st in
  let y := sub val compensation in
  let t := add sumx y in
  let c := sub (sub t sumx) y in
  (t, if isnan c then zero else c).

(** [.sum()] of a group, with the default [min_count=0]: NaN is skipped
    and the sum starts from 0.0. *)
Definition agg_sum (l : list float) : float :=
  fst (fold_left (fun st v => if isnan v then st else kahan_step st v) l (zero, zero)).

(** ** The long table *)

(** A row of the long table [df]: region (text, or missing), date,
    measure, sex, value. *)
Record row : Type := Row {
  r_region : option pystr;
  r_date : Timestamp;
  r_measure : pystr;
  r_sex : pystr;
  r_value : float
}.

Definition key : Type := pystr * Timestamp * pystr * pystr.

Fixpoint str_compare (a b : pystr) : comparison :=
  match a, b with
  | [], [] => Eq
  | [], _ :: _ => Lt
  | _ :: _, [] => Gt
  | c :: a', d :: b' =>
      match c ?= d with
      | Eq => str_compare a' b'
      | o => o
      end
  end.

Definition lex (c : comparison) (d : comparison) : comparison :=
  match c with
  | Eq => d
  | _ => c
  end.

Definition key_compare (a b : key) : comparison :=
  let '(ra, da, ma, sa) := a in
  let '(rb, db, mb, sb) := b in
  lex (str_compare ra rb)
      (lex (Dates.compare da db) (lex (str_compare ma mb) (str_compare sa sb))).

Definition key_eqb (a b : key) : bool :=
  match key_compare a b with
  | Eq => true
  | _ => false
  end.

Definition key_leb (a b : key) : bool :=
  match key_compare a b with
  | Gt => false
  | _ => true
  end.

(** The group key of a row of [tidy]; [None] when a key column is missing
    (NaN): [groupby] leaves such rows out.  The key columns hold text or
    NaN only. *)
Definition key_of (r : tidy_row) : option key :=
  match t_region r, t_measure r, t_sex r with
  | CStr a, CStr m, CStr s => Some (a, t_date r, m, s)
  | _, _, _ => None
  end.

Fixpoint keyed (rows : list tidy_row) : list (key * float) :=
  match rows with
  | [] => []
  | r :: t =>
      match key_of r with
      | Some k => (k, t_value r) :: keyed t
      | None => keyed t
      end
  end.

Definition row_of (kv : key * float) : row :=
  let '(a, d, m, s, v) := kv in Row (Some a) d m s v.

(** [tidy.groupby([region_std, date, measure, sex], as_index=False)
    ["value"].max()] *)
Definition groupby_max (rows : list tidy_row) : list row :=
  map row_of (groupby_agg key_eqb key_leb agg_max (keyed rows)).

(** ** The normalizer *)

(** The columns [value] and [date] of [long], and [tidy]: the value
    coerced, the date read from the text of year and month. *)
Definition with_dates (other : Dates.reader) (long : list long_row)
    : result (list tidy_row) :=
  do dates <- Dates.to_datetime other
                (map (date_text (existsb unmatched long)) long) ;;
  Ok (map (fun '(r, d) => make_tidy r d) (combine long dates)).

(** The columns that are none of the two region columns. *)
Definition is_value_col (c : pystr) : bool := negb (mem c [K.REGION; K.REGION_STD]).

(** The block up to [tidy]: standardized regions, [meta], melt, merge,
    numeric coercion and dates. *)
Definition tidy_table (other : Dates.reader) (raw : frame)
    : result (list tidy_row) :=
  do region <- getcol raw K.REGION ;;
  let region_std := map standardize_region region in
  let raw := setcol raw K.REGION_STD region_std in
  let value_cols := filter is_value_col (columns raw) in
  let meta := build_meta value_cols in
  do m <- melt raw region region_std (map m_col meta) ;;
  with_dates other (merge_left m meta).

(** The whole conversion, from [raw] to [df]; [other] is what the library
    makes of date text of another shape than YYYY-MM-DD. *)
Definition normalize (other : Dates.reader) (raw : frame) : result (list row) :=
  do tidy <- tidy_table other raw ;;
  Ok (groupby_max tidy).

(** ** The national total of the trend view *)

(** The filter [mask] of both dashboards. *)
Definition mask (measure sex : pystr) (start_d end_d : Timestamp) (r : row) : bool :=
  PyStr.eqb (r_measure r) measure && PyStr.eqb (r_sex r) sex
  && Dates.leb start_d (r_date r) && Dates.leb (r_date r) end_d.

(** [dff.groupby("date", as_index=False)["value"].sum()] *)
Definition national_total (dff : list row) : list (Timestamp * float) :=
  groupby_agg Dates.eqb Dates.leb agg_sum (map (fun r => (r_date r, r_value r)) dff).

(** The series shown for the region "전국(합계)". *)
Definition national_series (df : list row) (measure sex : pystr)
    (start_d end_d : Timestamp) : list (Timestamp * float) :=
  national_total (filter (mask measure sex start_d end_d) df).

(** ** Reading the centroid file *)

Module Centroids.

(** "utf-8-sig", "utf-8", "cp949", "euc-kr" *)
Definition UTF8_SIG : pystr := [0x75; 0x74; 0x66; 0x2D; 0x38; 0x2D; 0x73; 0x69; 0x67].
Definition UTF8 : pystr := [0x75; 0x74; 0x66; 0x2D; 0x38].
Definition CP949 : pystr := [0x63; 0x70; 0x39; 0x34; 0x39].
Definition EUC_KR : pystr := [0x65; 0x75; 0x63; 0x2D; 0x6B; 0x72].

Definition ENCODINGS : list pystr := [UTF8_SIG; UTF8; CP949; EUC_KR].

(** "인코딩을 확인해주세요." (check the encoding) *)
Definition CHECK_ENCODING : pystr :=
  [0xC778; 0xCF54; 0xB529; 0xC744; 0x20; 0xD655; 0xC778; 0xD574; 0xC8FC;
   0xC138; 0xC694; 0x2E].

(** "centroids csv를 읽지 못했습니다. 인코딩을 확인해주세요." *)
Definition READ_FAILED : pystr :=
  [0x63; 0x65; 0x6E; 0x74; 0x72; 0x6F; 0x69; 0x64; 0x73; 0x20; 0x63; 0x73;
   0x76; 0xB97C; 0x20; 0xC77D; 0xC9C0; 0x20; 0xBABB; 0xD588; 0xC2B5; 0xB2C8;
   0xB2E4; 0x2E; 0x20] ++ CHECK_ENCODING.

Section Loader.
(** [Source] is the state of what is read (a path, or an uploaded stream
    whose position a read moves), [Table] a parsed frame.  [read_csv] is
    [pd.read_csv(path, encoding=enc)]; [finish] is the rest of
    [load_centroids], after the table has been read. *)
Context {Source Table : Type}.
Variable read_csv : Source -> pystr -> Source * result Table.
Variable finish : Table -> result Table.

(** The [for enc in (...)] loop: [c] is the table of the first attempt
    that does not raise (then [break]), [None] after a failed one. *)
Fixpoint read_loop (src : Source) (encs : list pystr) (c : option Table)
    : Source * option Table :=
  match encs with
  | [] => (src, c)
  | enc :: rest =>
      match read_csv src enc with
      | (src', Ok t) => (src', Some t)
      | (src', Raise _) => read_loop src' rest None
      end
  end.

Definition load_centroids (src : Source) : Source * result Table :=
  match read_loop src ENCODINGS None with
  | (src', None) => (src', Raise (ValueError READ_FAILED))
  | (src', Some c) => (src', finish c)
  end.

(** What each encoding of [encs] gives when they are tried one after
    the other from [src], whatever the outcomes. *)
Fixpoint attempts (src : Source) (encs : list pystr) : list (result Table) :=
  match encs with
  | [] => []
  | enc :: rest =>
      let '(src', r) := read_csv src enc in r :: attempts src' rest
  end.
End Loader.

End Centroids.

(** ** The predicates of the statements *)

(** [t] is [s] without its surrounding white space. *)
Definition trimmed (s t : pystr) : Prop :=
  exists a b,
    s = a ++ t ++ b
    /\ forallb isspace a = true
    /\ forallb isspace b = true
    /\ (forall c r, t = c :: r -> isspace c = false)
    /\ (forall r c, t = r ++ [c] -> isspace c = false).

(** ** Sample frames and the predicates of the statements *)

(** [v] is the maximum of the values that satisfy [P], NaN apart: NaN when
    there is no other value, else one of them that is not below any. *)
Definition max_of (P : float -> Prop) (v : float) : Prop :=
  ((forall x, P x -> isnan x = true) /\ v = nan)
  \/ (isnan v = false /\ P v
      /\ forall x, P x -> isnan x = false -> leb x v = true).

(** The key columns of a row of the long table. *)
Definition out_key (r : row) : option pystr * Timestamp * pystr * pystr :=
  (r_region r, r_date r, r_measure r, r_sex r).

(** [x] is a value that the reshape put at the key [k]. *)
Definition in_group (tidy : list tidy_row) (k : key) (x : float) : Prop :=
  exists t, In t tidy /\ key_of t = Some k /\ t_value t = x.

(** "2024년3월_인구증감_계" *)
Definition header_2024_3 : pystr :=
  [0x32; 0x30; 0x32; 0x34; K.NYEON; 0x33; K.WOL; 0x5F] ++ K.POP_CHANGE
  ++ [0x5F] ++ K.TOTAL.

(** Two rows, "전라북도" and "전북특별자치도", with 10 and 20 in the column
    "2024년3월_인구증감_계". *)
Definition renamed_twice : frame :=
  [(K.REGION, [CStr K.JEOLLABUK; CStr K.JEONBUK]);
   (header_2024_3, [CInt 10; CInt 20])].

(** One row, one date, no value. *)
Definition only_null : list row :=
  [Row (Some [0x41]) (MkTs 2024 3 1) K.POP_CHANGE K.TOTAL nan].




(** The two characters of [str(n).zfill(2)] read back as [n]. *)
Definition month_text_ok (n : nat) : bool :=
  match zfill 2 (str_int (Z.of_nat n)) with
  | [a; b] =>
      match Dates.two a b with
      | Some m => m =? Z.of_nat n
      | None => false
      end
  | _ => false
  end.

(** "2024년13월_인구증감_계" *)
Definition header_2024_13 : pystr :=
  [0x32; 0x30; 0x32; 0x34; K.NYEON; 0x31; 0x33; K.WOL; 0x5F] ++ K.POP_CHANGE
  ++ [0x5F] ++ K.TOTAL.

(** One region, a column of March and a column of a thirteenth month. *)
Definition with_month_13 : frame :=
  [(K.REGION, [CStr [0x41]]);
   (header_2024_3, [CInt 10]);
   (header_2024_13, [CInt 10])].

(** "1,234" *)
Definition text_1_234 : pystr := [0x31; 0x2C; 0x32; 0x33; 0x34].

(** Region "A" and the column "2024년3월_인구증감_계" with "1,234". *)
Definition one_cell : frame :=
  [(K.REGION, [CStr [0x41]]); (header_2024_3, [CStr text_1_234])].

(** The row ("A", 2024-03-01, 인구증감, 계, 1234.0). *)
Definition one_row : row :=
  Row (Some [0x41]) (MkTs 2024 3 1) K.POP_CHANGE K.TOTAL (of_int 1234).

(** The reader that takes ISO 8601 text only.  On a column whose first
    text has the shape YYYY-MM-DD every reader gives what this one gives. *)
Definition iso_only : Dates.reader := mapM Dates.parse_iso.

(** The library as it reads in the year 2026. *)
Definition dateutil_2026 : Dates.reader := Dateutil.read_column 2026.


(** "0005년3월_인구증감_계": a year of four digits that is the number 5. *)
Definition header_0005_3 : pystr :=
  [0x30; 0x30; 0x30; 0x35; K.NYEON; 0x33; K.WOL; 0x5F] ++ K.POP_CHANGE
  ++ [0x5F] ++ K.TOTAL.

(** Region "A" and the column "0005년3월_인구증감_계" with "1,234". *)
Definition year_5 : frame :=
  [(K.REGION, [CStr [0x41]]); (header_0005_3, [CStr text_1_234])].

(** The call raised. *)
Definition raised {A : Type} (r : result A) : bool :=
  match r with
  | Ok _ => false
  | Raise _ => true
  end.

(** A file that only "cp949" reads, and one that nothing reads. *)
Definition cp949_only (src : unit) (enc : pystr) : unit * result nat :=
  (src, if PyStr.eqb enc Centroids.CP949 then Ok 7%nat else Raise (ValueError enc)).

Definition unreadable (src : unit) (enc : pystr) : unit * result nat :=
  (src, Raise (ValueError enc)).

(** The text [str(y)] of a year: from 1000 on its four characters read
    back as [y]; below, it has not four characters. *)
Definition year_text_ok (n : nat) : bool :=
  let y := Z.of_nat n in
  match str_int y with
  | [a; b; c; d] =>
      match Dates.two a b, Dates.two c d with
      | Some h, Some l => (1000 <=? y) && (h =? y / 100) && (l =? y mod 100)
      | _, _ => false
      end
  | _ => y <? 1000
  end.

(** The text of the date of a year and a month, as [long["date"]] builds
    it from integer columns. *)
Definition ym_text (y m : Z) : pystr :=
  str_int y ++ K.DASH ++ zfill 2 (str_int m) ++ K.DASH01.

(** The number that a run of ASCII digits writes, after [a]. *)
Definition digits_value (ds : pystr) (a : Z) : Z :=
  fold_left (fun a c => 10 * a + (c - 0x30)) ds a.

(** ** The figures of the dashboards *)

(** [int(round(float(x)))]: the nearest integer, a half going to the even
    one; [None] where [round] raises ([OverflowError] for an infinity,
    [ValueError] for NaN). *)
Definition round_half_even (x : float) : option Z :=
  match x with
  | S754_zero _ => Some 0
  | S754_finite neg m e =>
      let z :=
        match e with
        | Zneg k =>
            let d := Zpos (Pos.pow 2 k) in
            let q := Zpos m / d in
            match (2 * (Zpos m mod d)) ?= d with
            | Lt => q
            | Eq => if Z.even q then q else q + 1
            | Gt => q + 1
            end
        | _ => Zpos m * 2 ^ e
        end in
      Some (if neg then - z else z)
  | _ => None
  end.

(** The digits with a comma before every group of three counted from the
    right; [k] digits are left before the next comma. *)
Fixpoint group_go (k : nat) (ds : pystr) : pystr :=
  match ds with
  | [] => []
  | d :: t =>
      match k with
      | O => 0x2C :: d :: group_go 2 t
      | S k' => d :: group_go k' t
      end
  end.

(** [f"{n:,}"] of an integer. *)
Definition format_comma (n : Z) : pystr :=
  let ds := str_int (Z.abs n) in
  minus (n <? 0) (group_go (S ((length ds - 1) mod 3)) ds).

(** "-", "+" and "—" *)
Definition HYPHEN : pystr := [0x2D].
Definition PLUS : pystr := [0x2B].
Definition EM_DASH : pystr := [0x2014].

(** [fmt_int], on a float: the handler of the [try] returns [str(x)]. *)
Definition fmt_int (x : float) : pystr :=
  if isnan x then HYPHEN
  else
    match round_half_even x with
    | Some n => format_comma n
    | None => repr x
    end.

(** [fmt_signed_int] *)
Definition fmt_signed_int (x : float) : pystr :=
  if isnan x then HYPHEN
  else
    match round_half_even x with
    | Some xi => (if 0 <? xi then PLUS else []) ++ format_comma xi
    | None => repr x
    end.

(** [a - b if (not pd.isna(a) and not pd.isna(b)) else np.nan] *)
Definition delta (latest_value prev_value : float) : float :=
  if negb (isnan latest_value) && negb (isnan prev_value)
  then sub latest_value prev_value
  else nan.

(** [df.tail(n)] and [df.head(n)] *)
Definition tail {A : Type} (n : nat) (l : list A) : list A :=
  skipn (length l - n) l.

Definition head {A : Type} (n : nat) (l : list A) : list A := firstn n l.

(** The fourth card: the change for the two population measures, a dash
    for 인구증감. *)
Definition change_card (measure : pystr) (latest_value prev_value : float) : pystr :=
  if mem measure [K.CUR_POP; K.PREV_POP]
  then fmt_signed_int (delta latest_value prev_value)
  else EM_DASH.

(** The cards of the first dashboard; [ts] is [ts.sort_values("date")]. *)
Module Altair.

(** [frame["value"].iloc[0] if len(frame) else np.nan] *)
Definition first_value (l : list (Timestamp * float)) : float :=
  match l with
  | [] => nan
  | (_, v) :: _ => v
  end.

Definition latest_value (ts : list (Timestamp * float)) : float :=
  first_value (tail 1 ts).

Definition prev_value (ts : list (Timestamp * float)) : float :=
  first_value (head 1 (tail 2 ts)).

Definition change (measure : pystr) (ts : list (Timestamp * float)) : pystr :=
  change_card measure (latest_value ts) (prev_value ts).

End Altair.

(** The cards of the second dashboard; [ts] is [ts_sorted]. *)
Module Plotly.

(** [ts["value"].iloc[-k]] *)
Definition from_end (k : nat) (ts : list (Timestamp * float)) : float :=
  match nth_error ts (length ts - k) with
  | Some (_, v) => v
  | None => nan
  end.

Definition latest_value (ts : list (Timestamp * float)) : float :=
  if (1 <=? length ts)%nat then from_end 1 ts else nan.

Definition prev_value (ts : list (Timestamp * float)) : float :=
  if (2 <=? length ts)%nat then from_end 2 ts else nan.

Definition change (measure : pystr) (ts : list (Timestamp * float)) : pystr :=
  change_card measure (latest_value ts) (prev_value ts).

End Plotly.

(** ** The bubbles of the map *)

Definition one : float := of_int 1.

(** [abs_value]: the absolute value, a missing one filled with 0.0, and
    then 1.0 in the place of every zero. *)
Definition abs_value (v : float) : float :=
  let a := SFabs v in
  let a := if isnan a then zero else a in
  if SFeqb a zero then one else a.

(** [m["abs_value"].max()] *)
Definition max_size (values : list float) : float := agg_max (map abs_value values).

(** [2.0 * max_size / (40.0 ** 2) if max_size > 0 else 1] *)
Definition sizeref (values : list float) : float :=
  if ltb zero (max_size values)
  then SFdiv prec emax (SFmul prec emax (of_int 2) (max_size values)) (of_int 1600)
  else one.

(** ** The columns of the centroid file *)

Module Aliases.
(** "위도", "lat", "latitude", "LAT" *)
Definition LAT : list pystr :=
  [[0xC704; 0xB3C4]; [0x6C; 0x61; 0x74];
   [0x6C; 0x61; 0x74; 0x69; 0x74; 0x75; 0x64; 0x65]; [0x4C; 0x41; 0x54]].
(** "경도", "lon", "lng", "longitude", "LON", "LNG" *)
Definition LON : list pystr :=
  [[0xACBD; 0xB3C4]; [0x6C; 0x6F; 0x6E]; [0x6C; 0x6E; 0x67];
   [0x6C; 0x6F; 0x6E; 0x67; 0x69; 0x74; 0x75; 0x64; 0x65];
   [0x4C; 0x4F; 0x4E]; [0x4C; 0x4E; 0x47]].
(** "행정구역_표준", "행정구역", "지역", "name", "NAME" *)
Definition REGION : list pystr :=
  [K.REGION_STD; K.REGION; [0xC9C0; 0xC5ED]; [0x6E; 0x61; 0x6D; 0x65];
   [0x4E; 0x41; 0x4D; 0x45]].
(** "시도" and "시군구" *)
Definition SIDO : list pystr := [[0xC2DC; 0xB3C4]].
Definition SIGUNGU : list pystr := [[0xC2DC; 0xAD70; 0xAD6C]].

(** "lat", "lon", "region", "sido", "sigungu" *)
Definition lat : pystr := [0x6C; 0x61; 0x74].
Definition lon : pystr := [0x6C; 0x6F; 0x6E].
Definition region : pystr := [0x72; 0x65; 0x67; 0x69; 0x6F; 0x6E].
Definition sido : pystr := [0x73; 0x69; 0x64; 0x6F].
Definition sigungu : pystr := [0x73; 0x69; 0x67; 0x75; 0x6E; 0x67; 0x75].

(** "centroids csv에 region(또는 시도/시군구) 컬럼이 필요합니다." *)
Definition NEED_REGION : pystr :=
  [0x63; 0x65; 0x6E; 0x74; 0x72; 0x6F; 0x69; 0x64; 0x73; 0x20; 0x63; 0x73;
   0x76; 0xC5D0; 0x20; 0x72; 0x65; 0x67; 0x69; 0x6F; 0x6E; 0x28; 0xB610;
   0xB294; 0x20; 0xC2DC; 0xB3C4; 0x2F; 0xC2DC; 0xAD70; 0xAD6C; 0x29; 0x20;
   0xCEEC; 0xB7FC; 0xC774; 0x20; 0xD544; 0xC694; 0xD569; 0xB2C8; 0xB2E4; 0x2E].
(** "centroids csv에 lat(위도), lon(경도) 컬럼이 필요합니다." *)
Definition NEED_LAT_LON : pystr :=
  [0x63; 0x65; 0x6E; 0x74; 0x72; 0x6F; 0x69; 0x64; 0x73; 0x20; 0x63; 0x73;
   0x76; 0xC5D0; 0x20; 0x6C; 0x61; 0x74; 0x28; 0xC704; 0xB3C4; 0x29; 0x2C;
   0x20; 0x6C; 0x6F; 0x6E; 0x28; 0xACBD; 0xB3C4; 0x29; 0x20; 0xCEEC; 0xB7FC;
   0xC774; 0x20; 0xD544; 0xC694; 0xD569; 0xB2C8; 0xB2E4; 0x2E].

(** The name [rename_map] gives a column: each [if] of the loop, in its
    order, overwrites the entry when the stripped name is one of its
    aliases; a column without an entry keeps its name. *)
Definition rename (col : pystr) : pystr :=
  let t := strip col in
  let r := col in
  let r := if mem t LAT then lat else r in
  let r := if mem t LON then lon else r in
  let r := if mem t REGION then region else r in
  let r := if mem t SIDO then sido else r in
  let r := if mem t SIGUNGU then sigungu else r in
  r.

(** The column names after the renaming, the making of [region] from
    [sido] (and [sigungu]) and the two checks of [load_centroids], for a
    file whose columns have distinct names after the renaming (of two
    columns renamed to one name, [c[name]] is a frame, not a column);
    the cells are left out. *)
Definition checked_columns (cols : list pystr) : result (list pystr) :=
  let cols := map rename cols in
  do cols <-
    (if negb (mem region cols) then
       if mem sido cols && mem sigungu cols then Ok (cols ++ [region])
       else if mem sido cols then Ok (cols ++ [region])
       else Raise (ValueError NEED_REGION)
     else Ok cols) ;;
  if negb (mem lat cols) || negb (mem lon cols)
  then Raise (ValueError NEED_LAT_LON)
  else Ok cols.
End Aliases.

(** ** The series of the trend view *)

(** [dff[dff["행정구역_표준"] == region][["date", "value"]]]: a missing
    region equals no text. *)
Definition region_is (region : pystr) (r : row) : bool :=
  match r_region r with
  | Some a => PyStr.eqb a region
  | None => false
  end.

Definition region_rows (dff : list row) (region : pystr) : list (Timestamp * float) :=
  map (fun r => (r_date r, r_value r)) (filter (region_is region) dff).

(** The order of [sort_values("date")]. *)
Definition by_date (a b : Timestamp * float) : bool := Dates.leb (fst a) (fst b).

(** [ts.sort_values("date")] on rows of distinct dates: the rows in the
    order of their dates.  (Where two rows have one date, the order the
    default quicksort leaves them in is not described here.) *)
Definition sort_values_date (ts : list (Timestamp * float)) : list (Timestamp * float) :=
  sort_keys by_date ts.

(** The series of a region, as the trend view draws it. *)
Definition region_series (df : list row) (region measure sex : pystr)
    (start_d end_d : Timestamp) : list (Timestamp * float) :=
  sort_values_date (region_rows (filter (mask measure sex start_d end_d) df) region).

(** ** The cells of the ranking tables *)

(** [int(x)] of a float: the fraction is cut off; [None] where [int]
    raises ([OverflowError] for an infinity, [ValueError] for NaN). *)
Definition int_of_float (x : float) : option Z :=
  match x with
  | S754_zero _ => Some 0
  | S754_finite neg m e =>
      let z :=
        match e with
        | Zneg k => Zpos m / Zpos (Pos.pow 2 k)
        | _ => Zpos m * 2 ^ e
        end in
      Some (if neg then - z else z)
  | _ => None
  end.

(** [f"{int(x):,}" if pd.notna(x) else "-"]; [None] where [int] raises:
    no handler is around it. *)
Definition rank_cell (x : float) : option pystr :=
  if isnan x then Some HYPHEN else option_map format_comma (int_of_float x).

(** ** The months of the selector *)

(** [date.dt.to_period("M").astype(str)] of one date, "YYYY-MM"; the years
    a [Timestamp] can hold have four digits. *)
Definition period_text (d : Timestamp) : pystr :=
  str_int (ts_year d) ++ K.DASH ++ zfill 2 (str_int (ts_month d)).

(** * Properties *)

(** ** The builtins on sample values *)

Example str_int_2024 : str_int 2024 = [0x32; 0x30; 0x32; 0x34].
Proof. reflexivity. Qed.

Example strip_example :
  strip [0x20; 0x09; 0x41; 0x20; 0x42; 0x3000; 0x0A] = [0x41; 0x20; 0x42].
Proof. reflexivity. Qed.

Example replace_example :
  replace K.COMMA [] [0x31; 0x2C; 0x32; 0x33; 0x34; 0x2C] = [0x31; 0x32; 0x33; 0x34].
Proof. reflexivity. Qed.

(** 1234.0 is 5427189394702336 * 2^-42. *)
Example of_int_1234 : of_int 1234 = S754_finite false 5427189394702336 (-42).
Proof. reflexivity. Qed.

(** 0.1 is 0x1.999999999999ap-4. *)
Example of_decimal_tenth :
  of_decimal false 1 (-1) = S754_finite false 7205759403792794 (-56).
Proof. vm_compute. reflexivity. Qed.

(** [float("1e400")] is [inf]; [float("1_0")] is 10.0; [float("1__0")]
    raises. *)
Example py_float_overflow :
  py_float [0x31; 0x65; 0x34; 0x30; 0x30] = Ok (S754_infinity false).
Proof. vm_compute. reflexivity. Qed.

Example py_float_underscore :
  py_float [0x31; 0x5F; 0x30] = Ok (of_int 10)
  /\ py_float [0x31; 0x5F; 0x5F; 0x30] = Raise (ValueError [0x31; 0x5F; 0x5F; 0x30]).
Proof. split; vm_compute; reflexivity. Qed.

(** [repr(0.1)] is "0.1", [repr(1e16)] is "1e+16". *)
Example repr_tenth : repr (of_decimal false 1 (-1)) = [0x30; 0x2E; 0x31].
Proof. vm_compute. reflexivity. Qed.

Example repr_1e16 : repr (of_decimal false 1 16) = [0x31; 0x65; 0x2B; 0x31; 0x36].
Proof. vm_compute. reflexivity. Qed.

(** [to_num] on "1,234", on a blank, on a lone comma and on text. *)
Example to_num_samples :
  to_num (CStr text_1_234) = of_int 1234
  /\ to_num (CStr [0x20; 0x20]) = nan
  /\ to_num (CStr [0x2C]) = nan
  /\ to_num (CStr [0x61; 0x62; 0x63]) = nan
  /\ to_num (CFloat nan) = nan
  /\ to_num (CInt 10) = of_int 10.
Proof. repeat split; vm_compute; reflexivity. Qed.

(** The grammar takes Unicode decimal digits and a final newline, as [\d]
    and [$] of [re] do. *)
Example header_fullwidth :
  Header.parse ([0xFF12; 0xFF10; 0xFF12; 0xFF14; K.NYEON; 0xFF13; K.WOL; 0x5F]
                ++ K.PREV_POP ++ [0x5F] ++ K.FEMALE ++ [0x0A])
  = Some (2024, 3, K.PREV_POP, K.FEMALE).
Proof. reflexivity. Qed.

(** ** Text *)

Section Strip.
Variable sp : char -> bool.

Lemma lstrip_with_split (s : pystr) :
  exists a, s = a ++ lstrip_with sp s /\ forallb sp a = true.
Proof.
  induction s as [|c t [a [E F]]]; simpl.
  - exists []. auto.
  - destruct (sp c) eqn:C.
    + exists (c :: a). simpl. rewrite C, F. split; [congruence | reflexivity].
    + exists []. auto.
Qed.

Lemma lstrip_with_head (s : pystr) c r :
  lstrip_with sp s = c :: r -> sp c = false.
Proof.
  induction s as [|d t IH]; simpl; [discriminate|].
  destruct (sp d) eqn:D; [exact IH|].
  intros E. injection E as -> _. exact D.
Qed.

Lemma rstrip_with_split (s : pystr) :
  exists b, s = rstrip_with sp s ++ b /\ forallb sp b = true.
Proof.
  induction s as [|c t [b [E F]]]; simpl.
  - exists []. auto.
  - destruct (rstrip_with sp t) as [|d r] eqn:R.
    + destruct (sp c) eqn:C.
      * exists (c :: b). simpl in *. rewrite C, F. split; [congruence | reflexivity].
      * exists b. simpl in *. split; [congruence | assumption].
    + exists b. split; [|assumption]. simpl. f_equal. exact E.
Qed.

Lemma rstrip_with_last (s : pystr) r c :
  rstrip_with sp s = r ++ [c] -> sp c = false.
Proof.
  revert r. induction s as [|d t IH]; simpl; intros r E.
  - destruct r; discriminate.
  - destruct (rstrip_with sp t) as [|e u] eqn:R.
    + destruct (sp d) eqn:D.
      * destruct r; discriminate.
      * destruct r as [|x [|y r]]; try discriminate.
        simpl in E. injection E as <-. exact D.
    + destruct r as [|x r].
      * discriminate.
      * simpl in E. injection E as _ E. apply (IH r). exact E.
Qed.

Lemma rstrip_with_head (c : char) (t : pystr) :
  sp c = false -> exists r, rstrip_with sp (c :: t) = c :: r.
Proof.
  intros C. simpl. destruct (rstrip_with sp t); rewrite ?C; eauto.
Qed.

Lemma rstrip_with_idem (s : pystr) :
  rstrip_with sp (rstrip_with sp s) = rstrip_with sp s.
Proof.
  induction s as [|c t IH]; simpl; [reflexivity|].
  destruct (rstrip_with sp t) as [|d r] eqn:R.
  - destruct (sp c) eqn:C; simpl; rewrite ?C; reflexivity.
  - change (rstrip_with sp (c :: d :: r)) with
      (match rstrip_with sp (d :: r) with
       | [] => if sp c then [] else [c]
       | x => c :: x
       end).
    rewrite IH. reflexivity.
Qed.

(** A suffix of right-stripped text is right-stripped. *)
Lemma rstrip_with_tail (c : char) (t : pystr) :
  rstrip_with sp (c :: t) = c :: t -> rstrip_with sp t = t.
Proof.
  simpl. destruct (rstrip_with sp t) as [|d r].
  - destruct (sp c); [discriminate|]. intros E. injection E as <-. reflexivity.
  - intros E. injection E as <-. reflexivity.
Qed.

Lemma rstrip_with_skipn (n : nat) (s : pystr) :
  rstrip_with sp s = s -> rstrip_with sp (skipn n s) = skipn n s.
Proof.
  revert s. induction n as [|n IH]; intros [|c t] E; simpl; auto.
  apply IH. apply (rstrip_with_tail c). exact E.
Qed.

(** Text put after a character that is no space stays right-stripped. *)
Lemma rstrip_with_cons (c : char) (t : pystr) :
  sp c = false -> rstrip_with sp t = t -> rstrip_with sp (c :: t) = c :: t.
Proof.
  intros C E. simpl. rewrite E. destruct t; [rewrite C|]; reflexivity.
Qed.

Lemma lstrip_rstrip_lstrip (s : pystr) :
  lstrip_with sp (rstrip_with sp (lstrip_with sp s))
  = rstrip_with sp (lstrip_with sp s).
Proof.
  destruct (lstrip_with sp s) as [|c t] eqn:E; [reflexivity|].
  pose proof (lstrip_with_head _ _ _ E) as C.
  destruct (rstrip_with_head c t C) as [r ->]. simpl. rewrite C. reflexivity.
Qed.
End Strip.

Lemma strip_idem (s : pystr) : strip (strip s) = strip s.
Proof.
  unfold strip. rewrite lstrip_rstrip_lstrip. apply rstrip_with_idem.
Qed.

Lemma strip_trimmed (s : pystr) : trimmed s (strip s).
Proof.
  unfold trimmed, strip.
  destruct (lstrip_with_split isspace s) as [a [Ea Fa]].
  destruct (rstrip_with_split isspace (lstrip_with isspace s)) as [b [Eb Fb]].
  exists a, b. repeat split; auto.
  - rewrite <- Eb. exact Ea.
  - intros c r E.
    pose proof (lstrip_rstrip_lstrip isspace s) as L. rewrite E in L.
    apply (lstrip_with_head isspace (c :: r) c r L).
  - intros r c E. apply (rstrip_with_last isspace _ _ _ E).
Qed.

Lemma replace_go_done (old new : pystr) (k : nat) (s : pystr) :
  replace_go old new 0 k s = skipn k s.
Proof.
  revert k. induction s as [|c t IH]; intros [|k]; simpl; auto.
  f_equal. apply (IH 0%nat).
Qed.

Lemma startswith_app (s p : pystr) :
  startswith s p = true -> s = p ++ skipn (length p) s.
Proof.
  revert s. induction p as [|d p IH]; intros s H; simpl in *; [reflexivity|].
  destruct s as [|c s]; [discriminate|].
  apply andb_true_iff in H as [H1 H2]. apply Z.eqb_eq in H1. subst d.
  simpl. f_equal. apply IH. exact H2.
Qed.

(** Replacing once a prefix that is there: the new prefix, then the rest
    as it was. *)
Lemma replace_count_prefix (old new s : pystr) :
  old <> [] -> startswith s old = true ->
  replace_count old new 1 s = new ++ skipn (length old) s.
Proof.
  intros N H. destruct old as [|d old]; [contradiction|].
  destruct s as [|c t]; [discriminate|].
  unfold replace_count. cbn [replace_go]. rewrite H.
  rewrite replace_go_done. f_equal. simpl. rewrite Nat.sub_0_r. reflexivity.
Qed.

Lemma eqb_eq (s t : pystr) : PyStr.eqb s t = true <-> s = t.
Proof.
  revert t. induction s as [|c s IH]; intros [|d t]; simpl; split; intros H;
    try discriminate; try reflexivity.
  - apply andb_true_iff in H as [H1 H2]. apply Z.eqb_eq in H1. apply IH in H2.
    congruence.
  - injection H as -> ->. rewrite Z.eqb_refl. simpl. apply IH. reflexivity.
Qed.

(** ** The region standardizer *)

Lemma standardize_region_text (x : cell) :
  isna x = false ->
  standardize_region x =
    CStr (let t := strip (str x) in
          if startswith t K.JEOLLABUK then K.JEONBUK ++ skipn 4 t else t).
Proof.
  intros N. unfold standardize_region. rewrite N. cbv zeta.
  destruct (startswith (strip (str x)) K.JEOLLABUK) eqn:P; [|reflexivity].
  rewrite replace_count_prefix; [reflexivity | discriminate | exact P].
Qed.

(** The standardized name is text, or the missing value it was. *)
Lemma standardize_region_kind (x : cell) :
  (exists s, standardize_region x = CStr s) \/ isna (standardize_region x) = true.
Proof.
  unfold standardize_region. destruct (isna x) eqn:N; [right; exact N|].
  left. eexists. reflexivity.
Qed.

Lemma startswith_prefix (p r : pystr) : startswith (p ++ r) p = true.
Proof.
  induction p as [|d p IH]; simpl; [destruct r; reflexivity|].
  rewrite Z.eqb_refl. exact IH.
Qed.

(** C4: the standardizer returns a missing name as it is; any other name
    is trimmed, and then, exactly when the trimmed name begins with
    "전라북도", that first occurrence alone is replaced by "전북특별자치도"
    and the rest of the name is kept; every other name, that is every name
    whose trimmed form does not begin with "전라북도", comes back as its
    trimmed form. *)
Theorem standardize_region_spec (x : cell) :
  if isna x then standardize_region x = x
  else
    exists t, trimmed (str x) t /\
      ((exists rest, t = K.JEOLLABUK ++ rest
                     /\ standardize_region x = CStr (K.JEONBUK ++ rest))
       \/ ((forall rest, t <> K.JEOLLABUK ++ rest)
           /\ standardize_region x = CStr t)).
Proof.
  destruct (isna x) eqn:N.
  - unfold standardize_region. rewrite N. reflexivity.
  - exists (strip (str x)). split; [apply strip_trimmed|].
    rewrite (standardize_region_text x N). cbv zeta.
    destruct (startswith (strip (str x)) K.JEOLLABUK) eqn:P.
    + left. exists (skipn 4 (strip (str x))). split; [|reflexivity].
      apply (startswith_app _ _ P).
    + right. split; [|reflexivity].
      intros rest E. rewrite E, startswith_prefix in P. discriminate P.
Qed.

(** C10: standardizing twice is standardizing once. *)
Theorem standardize_region_idempotent (x : cell) :
  standardize_region (standardize_region x) = standardize_region x.
Proof.
  destruct (isna x) eqn:N.
  - unfold standardize_region. rewrite N, N. reflexivity.
  - rewrite (standardize_region_text x N). cbv zeta.
    set (t := strip (str x)).
    assert (Tl : lstrip_with isspace t = t) by apply lstrip_rstrip_lstrip.
    assert (Tr : rstrip_with isspace t = t) by apply rstrip_with_idem.
    destruct (startswith t K.JEOLLABUK) eqn:P.
    + rewrite standardize_region_text by reflexivity. cbv zeta.
      assert (S : strip (str (CStr (K.JEONBUK ++ skipn 4 t)))
                  = K.JEONBUK ++ skipn 4 t).
      { unfold strip. cbn [str K.JEONBUK app lstrip_with].
        change (isspace 51204) with false. cbv iota.
        pose proof (rstrip_with_skipn isspace 4 t Tr) as R.
        repeat (apply rstrip_with_cons; [reflexivity|]). exact R. }
      rewrite S. reflexivity.
    + rewrite standardize_region_text by reflexivity. cbv zeta.
      assert (S : strip t = t) by apply strip_idem.
      cbn [str]. rewrite S, P. reflexivity.
Qed.

(** ** Numeric coercion *)

(** ** The order of floats *)

Ltac float_cases :=
  unfold leb, ltb, SFleb, SFltb, SFcompare;
  repeat match goal with
         | x : float |- _ => destruct x as [[]|[]| |[] ? ?]
         end;
  simpl; intros; try reflexivity; try discriminate; try assumption.

Ltac order_cases :=
  repeat match goal with
         | H : context [Z.compare ?a ?b] |- _ =>
             destruct (Z.compare_spec a b); try discriminate
         | |- context [Z.compare ?a ?b] =>
             destruct (Z.compare_spec a b); try discriminate
         | H : context [Pos.compare_cont Eq ?a ?b] |- _ =>
             change (Pos.compare_cont Eq a b) with (Pos.compare a b) in H;
             destruct (Pos.compare_spec a b); try discriminate
         | |- context [Pos.compare_cont Eq ?a ?b] =>
             change (Pos.compare_cont Eq a b) with (Pos.compare a b);
             destruct (Pos.compare_spec a b); try discriminate
         end;
  simpl in *; try reflexivity; try discriminate; try lia.

Lemma leb_refl (x : float) : isnan x = false -> leb x x = true.
Proof. float_cases; order_cases. Qed.

Lemma ltb_leb (a b : float) : ltb a b = true -> leb a b = true.
Proof. float_cases; order_cases. Qed.

Lemma nltb_leb (a b : float) :
  isnan a = false -> isnan b = false -> ltb a b = false -> leb b a = true.
Proof. float_cases; order_cases. Qed.

Lemma leb_trans (a b c : float) :
  leb a b = true -> leb b c = true -> leb a c = true.
Proof. float_cases; order_cases. Qed.

Lemma leb_not_nan (a b : float) : leb a b = true -> isnan a = false /\ isnan b = false.
Proof. float_cases; auto. Qed.

(** ** The aggregates *)

Lemma max_from_spec (l : list float) : forall m,
  isnan m = false ->
  isnan (max_from m l) = false
  /\ (max_from m l = m \/ In (max_from m l) l)
  /\ leb m (max_from m l) = true
  /\ forall x, In x l -> isnan x = false -> leb x (max_from m l) = true.
Proof.
  induction l as [|v t IH]; intros m M; simpl.
  - repeat split; auto using leb_refl; intros x [].
  - destruct (isnan v) eqn:V.
    + destruct (IH m M) as (A & B & C & D). repeat split; auto.
      * destruct B; auto.
      * intros x [<-|I] X; [congruence | auto].
    + destruct (ltb m v) eqn:L.
      * destruct (IH v V) as (A & B & C & D). repeat split; auto.
        -- destruct B as [->|B]; auto.
        -- apply (leb_trans _ v); auto using ltb_leb.
        -- intros x [<-|I] X; auto.
      * destruct (IH m M) as (A & B & C & D). repeat split; auto.
        -- destruct B; auto.
        -- intros x [<-|I] X; auto.
           apply (leb_trans _ m); auto using nltb_leb.
Qed.

Lemma agg_max_spec (l : list float) : max_of (fun x => In x l) (agg_max l).
Proof.
  induction l as [|v t IH]; simpl.
  - left. split; [intros x []|reflexivity].
  - destruct (isnan v) eqn:V.
    + destruct IH as [[A B]|(A & B & C)].
      * left. split; [|exact B]. intros x [<-|I]; auto.
      * right. repeat split; auto. intros x [<-|I] X; [congruence | auto].
    + right. destruct (max_from_spec t v V) as (A & B & C & D).
      repeat split; auto.
      * destruct B as [->|B]; simpl; auto.
      * intros x [<-|I] X; auto.
Qed.

(** The sum of a group without any value but NaN is 0.0. *)
Lemma agg_sum_all_nan (l : list float) :
  forallb isnan l = true -> agg_sum l = zero.
Proof.
  intros H. unfold agg_sum.
  assert (F : forall st,
             fold_left (fun st v => if isnan v then st else kahan_step st v) l st = st).
  { induction l as [|v t IH]; simpl in *; intros st; [reflexivity|].
    apply andb_true_iff in H as [V T]. rewrite V. apply IH. exact T. }
  rewrite F. reflexivity.
Qed.

(** ** [groupby] *)

Section GroupByFacts.
Context {Key : Type}.
Variable key_eqb : Key -> Key -> bool.
Variable key_leb : Key -> Key -> bool.
Hypothesis key_eqb_eq : forall a b, key_eqb a b = true <-> a = b.

Lemma key_in_In (k : Key) (l : list Key) : key_in key_eqb k l = true <-> In k l.
Proof.
  unfold key_in. rewrite existsb_exists. split.
  - intros [x [I E]]. apply key_eqb_eq in E. congruence.
  - intros I. exists k. split; [exact I | apply key_eqb_eq; reflexivity].
Qed.

Lemma distinct_In (l : list Key) : forall seen k,
  In k (distinct key_eqb seen l) <-> In k l /\ ~ In k seen.
Proof.
  induction l as [|h t IH]; intros seen k; simpl.
  - tauto.
  - destruct (key_in key_eqb h seen) eqn:S.
    + apply key_in_In in S. rewrite IH. split.
      * tauto.
      * intros [[<-|I] N]; tauto.
    + assert (~ In h seen) as N by (rewrite <- key_in_In; congruence).
      simpl. rewrite IH. simpl. split.
      * intros [<-|[I M]]; tauto.
      * intros [[<-|I] M]; [tauto|].
        destruct (key_eqb h k) eqn:E.
        -- apply key_eqb_eq in E. tauto.
        -- right. split; [exact I|]. intros [->|X]; [|tauto].
           assert (key_eqb k k = true) by (apply key_eqb_eq; reflexivity).
           congruence.
Qed.

Lemma distinct_NoDup (l : list Key) : forall seen, NoDup (distinct key_eqb seen l).
Proof.
  induction l as [|h t IH]; intros seen; simpl.
  - constructor.
  - destruct (key_in key_eqb h seen); [apply IH|].
    constructor; [|apply IH].
    rewrite distinct_In. simpl. tauto.
Qed.

Lemma insert_sorted_perm (k : Key) (l : list Key) :
  Permutation (insert_sorted key_leb k l) (k :: l).
Proof.
  induction l as [|h t IH]; simpl; [reflexivity|].
  destruct (key_leb k h); [reflexivity|].
  rewrite IH. apply perm_swap.
Qed.

Lemma sort_keys_perm (l : list Key) : Permutation (sort_keys key_leb l) l.
Proof.
  induction l as [|h t IH]; simpl; [reflexivity|].
  rewrite insert_sorted_perm. constructor. exact IH.
Qed.

Lemma groupby_keys (agg : list float -> float) (rows : list (Key * float)) :
  map fst (groupby_agg key_eqb key_leb agg rows)
  = sort_keys key_leb (distinct key_eqb [] (map fst rows)).
Proof.
  unfold groupby_agg. rewrite map_map. simpl. apply map_id.
Qed.

(** One output row per key. *)
Lemma groupby_NoDup (agg : list float -> float) (rows : list (Key * float)) :
  NoDup (map fst (groupby_agg key_eqb key_leb agg rows)).
Proof.
  rewrite groupby_keys.
  apply (Permutation_NoDup (l := distinct key_eqb [] (map fst rows))).
  - symmetry. apply sort_keys_perm.
  - apply distinct_NoDup.
Qed.

(** The output rows: the keys of the input, each with the aggregate of
    its group. *)
Lemma groupby_In (agg : list float -> float) (rows : list (Key * float)) k v :
  In (k, v) (groupby_agg key_eqb key_leb agg rows)
  <-> In k (map fst rows) /\ v = agg (group_values key_eqb k rows).
Proof.
  unfold groupby_agg. rewrite in_map_iff. split.
  - intros [x [E I]]. injection E as -> <-.
    apply (Permutation_in _ (sort_keys_perm _)) in I.
    apply distinct_In in I. tauto.
  - intros [I ->]. exists k. split; [reflexivity|].
    apply (Permutation_in _ (Permutation_sym (sort_keys_perm _))).
    apply distinct_In. simpl. tauto.
Qed.

Lemma group_values_In (k : Key) (rows : list (Key * float)) x :
  In x (group_values key_eqb k rows) <-> In (k, x) rows.
Proof.
  unfold group_values. rewrite in_map_iff. split.
  - intros [[k' y] [E I]]. simpl in E. subst y.
    apply filter_In in I as [I F]. simpl in F. apply key_eqb_eq in F.
    congruence.
  - intros I. exists (k, x). split; [reflexivity|].
    apply filter_In. split; [exact I|]. simpl. apply key_eqb_eq. reflexivity.
Qed.
End GroupByFacts.

(** ** Keys *)

Lemma str_compare_eq (a b : pystr) : str_compare a b = Eq <-> a = b.
Proof.
  revert b. induction a as [|c a IH]; intros [|d b]; simpl; split; intros H;
    try discriminate; try reflexivity.
  - destruct (Z.compare_spec c d); try discriminate.
    apply IH in H. congruence.
  - injection H as -> ->. rewrite Z.compare_refl. apply IH. reflexivity.
Qed.

Lemma dates_compare_eq (a b : Timestamp) : Dates.compare a b = Eq <-> a = b.
Proof.
  destruct a as [y m d], b as [y' m' d']. unfold Dates.compare. simpl. split.
  - destruct (Z.compare_spec y y'); try discriminate.
    destruct (Z.compare_spec m m'); try discriminate.
    destruct (Z.compare_spec d d'); try discriminate.
    congruence.
  - intros E. injection E as -> -> ->. rewrite !Z.compare_refl. reflexivity.
Qed.

Lemma dates_eqb_eq (a b : Timestamp) : Dates.eqb a b = true <-> a = b.
Proof.
  destruct a as [y m d], b as [y' m' d']. unfold Dates.eqb. simpl.
  rewrite !andb_true_iff, !Z.eqb_eq. split.
  - intros [[-> ->] ->]. reflexivity.
  - intros E. injection E as -> -> ->. auto.
Qed.

Lemma key_eqb_eq (a b : key) : key_eqb a b = true <-> a = b.
Proof.
  destruct a as [[[ra da] ma] sa], b as [[[rb db] mb] sb].
  unfold key_eqb, key_compare, lex. split.
  - destruct (str_compare ra rb) eqn:R; try discriminate.
    destruct (Dates.compare da db) eqn:D; try discriminate.
    destruct (str_compare ma mb) eqn:M; try discriminate.
    destruct (str_compare sa sb) eqn:S; try discriminate.
    apply str_compare_eq in R, M, S. apply dates_compare_eq in D.
    congruence.
  - intros E. injection E as -> -> -> ->.
    rewrite (proj2 (str_compare_eq rb rb) eq_refl).
    rewrite (proj2 (dates_compare_eq db db) eq_refl).
    rewrite (proj2 (str_compare_eq mb mb) eq_refl).
    rewrite (proj2 (str_compare_eq sb sb) eq_refl). reflexivity.
Qed.

(** ** Deduplication by the maximum *)

Lemma keyed_In (tidy : list tidy_row) k v :
  In (k, v) (keyed tidy) <-> in_group tidy k v.
Proof.
  unfold in_group. induction tidy as [|t r IH]; simpl.
  - split; [intros [] | intros (t & [] & _)].
  - destruct (key_of t) as [k'|] eqn:E; simpl; rewrite IH; split.
    + intros [H|(u & I & A & B)].
      * injection H as -> <-. exists t. auto.
      * exists u. auto.
    + intros (u & [<-|I] & A & B).
      * left. congruence.
      * right. exists u. auto.
    + intros (u & I & A & B). exists u. auto.
    + intros (u & [<-|I] & A & B); [congruence|]. exists u. auto.
Qed.

Lemma row_of_key (kv : key * float) :
  out_key (row_of kv)
  = (let '(a, d, m, s) := fst kv in (Some a, d, m, s)).
Proof. destruct kv as [[[[a d] m] s] v]. reflexivity. Qed.

Lemma NoDup_map_inj {A B : Type} (f : A -> B) (l : list A) :
  (forall a b, f a = f b -> a = b) -> NoDup l -> NoDup (map f l).
Proof.
  intros Inj N. induction N as [|a l NI N IH]; simpl; constructor; auto.
  rewrite in_map_iff. intros [b [E I]]. apply Inj in E. congruence.
Qed.

Lemma groupby_max_NoDup (tidy : list tidy_row) :
  NoDup (map out_key (groupby_max tidy)).
Proof.
  unfold groupby_max.
  set (lift := fun k : key => let '(a, d, m, s) := k in (Some a, d, m, s)).
  assert (E : forall g : list (key * float),
             map out_key (map row_of g) = map lift (map fst g)).
  { induction g as [|kv g IH]; simpl; [reflexivity|].
    rewrite IH, row_of_key. reflexivity. }
  rewrite E. apply NoDup_map_inj.
  - intros [[[a d] m] s] [[[a' d'] m'] s'] H. unfold lift in H. congruence.
  - apply groupby_NoDup. exact key_eqb_eq.
Qed.

Lemma groupby_max_In (tidy : list tidy_row) (r : row) :
  In r (groupby_max tidy) <->
  exists a, r_region r = Some a
    /\ (exists x, in_group tidy (a, r_date r, r_measure r, r_sex r) x)
    /\ r_value r = agg_max (group_values key_eqb (a, r_date r, r_measure r, r_sex r)
                                          (keyed tidy)).
Proof.
  unfold groupby_max. rewrite in_map_iff. split.
  - intros [[[[[a d] m] s] v] [<- I]]. simpl.
    apply (groupby_In _ _ key_eqb_eq) in I as [I ->].
    exists a. repeat split; auto.
    apply in_map_iff in I as [[k x] [E I]]. simpl in E. subst k.
    exists x. apply keyed_In. exact I.
  - intros (a & A & (x & X) & V). destruct r as [ra d m s v]. simpl in *. subst ra.
    exists (a, d, m, s, v). split; [reflexivity|].
    apply (groupby_In _ _ key_eqb_eq). split; [|exact V].
    apply keyed_In in X. apply in_map_iff. exists ((a, d, m, s), x). auto.
Qed.

(** C2: the long table has one row for each key (standardized region,
    date, measure, sex) that the reshape produced, no two rows with one
    key, and the value of a row is the maximum of the values reshaped to
    its key, where NaN counts only when the group holds nothing else; the
    rows "전라북도" = 10 and "전북특별자치도" = 20 of one column give the
    single row 20. *)
Theorem normalize_dedup_max (other : Dates.reader) (raw : frame)
    (tidy : list tidy_row) :
  tidy_table other raw = Ok tidy ->
  exists rows,
    normalize other raw = Ok rows
    /\ NoDup (map out_key rows)
    /\ (forall r, In r rows ->
          exists a, r_region r = Some a
            /\ max_of (in_group tidy (a, r_date r, r_measure r, r_sex r)) (r_value r))
    /\ (forall t a d m s, In t tidy -> key_of t = Some (a, d, m, s) ->
          exists r, In r rows /\ out_key r = (Some a, d, m, s))
    /\ normalize other renamed_twice
       = Ok [Row (Some K.JEONBUK) (MkTs 2024 3 1) K.POP_CHANGE K.TOTAL
                 (of_int 20)].
Proof.
  intros T. exists (groupby_max tidy). unfold normalize. rewrite T. simpl bind.
  split; [reflexivity|]. split; [apply groupby_max_NoDup|]. split; [|split].
  - intros r I. apply groupby_max_In in I as (a & A & _ & V).
    exists a. split; [exact A|]. rewrite V.
    pose proof (agg_max_spec
                  (group_values key_eqb (a, r_date r, r_measure r, r_sex r) (keyed tidy)))
      as M.
    unfold max_of in *.
    assert (Q : forall x,
               In x (group_values key_eqb (a, r_date r, r_measure r, r_sex r) (keyed tidy))
               <-> in_group tidy (a, r_date r, r_measure r, r_sex r) x).
    { intros x. rewrite (group_values_In _ key_eqb_eq). apply keyed_In. }
    destruct M as [[M1 M2]|(M1 & M2 & M3)].
    + left. split; [|exact M2]. intros x X. apply M1, Q, X.
    + right. repeat split; auto.
      * apply Q, M2.
      * intros x X. apply M3, Q, X.
  - intros t a d m s I E.
    exists (Row (Some a) d m s
                (agg_max (group_values key_eqb (a, d, m, s) (keyed tidy)))).
    split; [|reflexivity].
    apply groupby_max_In. exists a. simpl. repeat split.
    exists (t_value t), t. auto.
  - vm_compute. reflexivity.
Qed.

(** The two renamed rows, as a run of the theorem. *)
Lemma normalize_dedup_max_witness :
  exists rows,
    normalize dateutil_2026 renamed_twice = Ok rows /\ NoDup (map out_key rows).
Proof.
  destruct (normalize_dedup_max dateutil_2026 renamed_twice
              [Tidy (CStr K.JEONBUK) (MkTs 2024 3 1) (CStr K.POP_CHANGE)
                    (CStr K.TOTAL) (of_int 10);
               Tidy (CStr K.JEONBUK) (MkTs 2024 3 1) (CStr K.POP_CHANGE)
                    (CStr K.TOTAL) (of_int 20)])
    as (rows & A & B & _).
  - vm_compute. reflexivity.
  - exists rows. split; assumption.
Defined.

(** ** Aggregates of groups that hold only NaN *)

Lemma forallb_isnan_group {Key : Type} (eqb : Key -> Key -> bool)
    (k : Key) (rows : list (Key * float)) :
  (forall x, In x (group_values eqb k rows) -> isnan x = true) ->
  forallb isnan (group_values eqb k rows) = true.
Proof. intros H. apply forallb_forall. exact H. Qed.

Lemma agg_max_all_nan (l : list float) :
  forallb isnan l = true -> agg_max l = nan.
Proof.
  induction l as [|v t IH]; simpl; [reflexivity|].
  intros H. apply andb_true_iff in H as [V T]. rewrite V. auto.
Qed.

(** The sum does not keep a missing value missing: the national total of
    a month whose only value is NaN is 0.0, which is no NaN. *)
Lemma national_total_of_nulls_is_zero :
  Forall (fun r => isnan (r_value r) = true) only_null
  /\ national_total only_null = [(MkTs 2024 3 1, S754_zero false)]
  /\ isnan (S754_zero false) = false.
Proof.
  split; [|split]; try reflexivity.
  repeat constructor.
Qed.

(** C3, as the code has it: over a group whose values are all NaN the
    deduplicating maximum is NaN, and the national total (a sum that skips
    NaN and starts from zero) is 0.0. *)
Theorem all_null_group_aggregates
    (tidy : list tidy_row) (dff : list row) (k : key) (d : Timestamp) :
  (exists x, in_group tidy k x) ->
  (forall x, in_group tidy k x -> isnan x = true) ->
  In d (map r_date dff) ->
  (forall r, In r dff -> r_date r = d -> isnan (r_value r) = true) ->
  In (row_of (k, nan)) (groupby_max tidy)
  /\ In (d, zero) (national_total dff).
Proof.
  intros [x X] N D M. split.
  - destruct k as [[[a dk] m] s]. apply groupby_max_In. exists a. simpl.
    repeat split; [exists x; exact X|].
    symmetry. apply agg_max_all_nan, forallb_forall.
    intros y Y. apply N. apply keyed_In.
    apply (group_values_In _ key_eqb_eq) in Y. exact Y.
  - unfold national_total. apply (groupby_In _ _ dates_eqb_eq). split.
    + rewrite map_map. exact D.
    + symmetry. apply agg_sum_all_nan, forallb_forall.
      intros y Y. apply (group_values_In _ dates_eqb_eq) in Y.
      apply in_map_iff in Y as [r [E I]]. injection E as E1 E2.
      subst y. apply M; auto.
Qed.

Lemma all_null_group_aggregates_witness :
  In (Row (Some [0x41]) (MkTs 2024 3 1) K.POP_CHANGE K.TOTAL nan)
     (groupby_max
        [Tidy (CStr [0x41]) (MkTs 2024 3 1) (CStr K.POP_CHANGE) (CStr K.TOTAL) nan])
  /\ In (MkTs 2024 3 1, zero) (national_total only_null).
Proof.
  apply (all_null_group_aggregates
           [Tidy (CStr [0x41]) (MkTs 2024 3 1) (CStr K.POP_CHANGE) (CStr K.TOTAL) nan]
           only_null
           ([0x41], MkTs 2024 3 1, K.POP_CHANGE, K.TOTAL) (MkTs 2024 3 1)).
  - exists nan. eexists. split; [left; reflexivity|]. split; reflexivity.
  - intros x (t & [<-|[]] & _ & <-). reflexivity.
  - simpl. left. reflexivity.
  - intros r [<-|[]] _. reflexivity.
Defined.

(** ** Dates of the long table *)

Lemma mapM_In {A B : Type} (f : A -> result B) (l : list A) : forall l',
  mapM f l = Ok l' -> forall b, In b l' -> exists a, In a l /\ f a = Ok b.
Proof.
  induction l as [|a t IH]; simpl; intros l' H b I.
  - injection H as <-. destruct I.
  - destruct (f a) as [x|] eqn:F; simpl in H; [|discriminate].
    destruct (mapM f t) as [xs|] eqn:M; simpl in H; [|discriminate].
    injection H as <-. destruct I as [<-|I].
    + exists a. auto.
    + destruct (IH xs eq_refl b I) as (a' & I' & F'). exists a'. auto.
Qed.

Lemma mapM_raise {A B : Type} (f : A -> result B) (l : list A) a e :
  In a l -> f a = Raise e -> exists e', mapM f l = Raise e'.
Proof.
  induction l as [|h t IH]; simpl; intros I F; [destruct I|].
  destruct (f h) as [x|e0] eqn:H; simpl; [|eauto].
  destruct I as [->|I]; [congruence|].
  destruct (IH I F) as [e' ->]. simpl. eauto.
Qed.

(** Text that ends in "-01" names, when it names a day, the first of a
    month. *)
Lemma parse_iso_day (p : pystr) (d : Timestamp) :
  Dates.parse_iso (p ++ K.DASH01) = Ok d -> ts_day d = 1.
Proof.
  unfold K.DASH01, Dates.parse_iso.
  destruct p as [|a1 [|a2 [|a3 [|a4 [|a5 [|a6 [|a7 [|a8 [|a9 [|a10 [|a11 p]]]]]]]]]]];
    cbn [app]; try discriminate.
  change (Dates.two 48 49) with (Some 1).
  intros H.
  repeat match type of H with
         | context [if ?b then _ else _] => destruct b; try discriminate
         | context [match ?x with _ => _ end] => destruct x; try discriminate
         end.
  injection H as <-. reflexivity.
Qed.

Lemma date_text_ends (floats : bool) (r : long_row) :
  exists p, date_text floats r = p ++ K.DASH01.
Proof.
  unfold date_text. destruct (g_meta r) as [m|].
  - exists (int_text floats (m_year m) ++ K.DASH ++ zfill 2 (int_text floats (m_month m))).
    rewrite <- !app_assoc. reflexivity.
  - exists (repr nan ++ K.DASH ++ zfill 2 (repr nan)).
    rewrite <- !app_assoc. reflexivity.
Qed.

Lemma to_datetime_iso_only (l : list pystr) :
  Dates.to_datetime iso_only l = mapM Dates.parse_iso l.
Proof.
  unfold Dates.to_datetime, iso_only. destruct l as [|s t]; [reflexivity|].
  destruct (Dates.iso_shape s); reflexivity.
Qed.

(** Every reader reads a column whose first text has the ISO shape as
    ISO text. *)
Lemma to_datetime_shape (other : Dates.reader) (s : pystr) (t : list pystr) :
  Dates.iso_shape s = true ->
  Dates.to_datetime other (s :: t) = Dates.to_datetime iso_only (s :: t).
Proof. unfold Dates.to_datetime. intros ->. reflexivity. Qed.

Lemma with_dates_day (long : list long_row) (tidy : list tidy_row) :
  with_dates iso_only long = Ok tidy ->
  forall t, In t tidy -> ts_day (t_date t) = 1.
Proof.
  unfold with_dates. rewrite to_datetime_iso_only. intros H t I.
  destruct (mapM Dates.parse_iso _) as [dates|] eqn:D; simpl in H; [|discriminate].
  injection H as <-.
  apply in_map_iff in I as [[r d] [<- I]].
  apply in_combine_r in I.
  destruct (mapM_In _ _ _ D d I) as (text & T & P).
  apply in_map_iff in T as [r' [E _]].
  destruct (date_text_ends (existsb unmatched long) r') as [p Ep].
  rewrite <- E, Ep in P. simpl. apply (parse_iso_day p d P).
Qed.

Lemma tidy_table_day (raw : frame) (tidy : list tidy_row) :
  tidy_table iso_only raw = Ok tidy ->
  forall t, In t tidy -> ts_day (t_date t) = 1.
Proof.
  unfold tidy_table. intros H.
  destruct (getcol raw K.REGION) as [region|]; simpl in H; [|discriminate].
  destruct (melt _ _ _ _) as [m|]; simpl in H; [|discriminate].
  exact (with_dates_day _ _ H).
Qed.

(** Read as ISO text, every date of the long table is the first day of
    its month. *)
Lemma normalize_iso_only_day (raw : frame) (rows : list row) :
  normalize iso_only raw = Ok rows ->
  forall r, In r rows -> ts_day (r_date r) = 1.
Proof.
  unfold normalize. intros H r I.
  destruct (tidy_table iso_only raw) as [tidy|] eqn:T; simpl in H; [|discriminate].
  injection H as <-.
  apply groupby_max_In in I as (a & _ & (x & t & It & K & _) & _).
  pose proof (tidy_table_day raw tidy T t It) as D.
  unfold key_of in K.
  destruct (t_region t), (t_measure t), (t_sex t); try discriminate.
  injection K as _ <- _ _. exact D.
Qed.

(** ** Frames and the header grammar *)

Lemma eqb_refl (s : pystr) : PyStr.eqb s s = true.
Proof. apply eqb_eq. reflexivity. Qed.

Lemma eqb_neq (s t : pystr) : s <> t -> PyStr.eqb s t = false.
Proof.
  intros N. destruct (PyStr.eqb s t) eqn:E; [|reflexivity].
  apply eqb_eq in E. contradiction.
Qed.

Lemma mem_In (c : pystr) (l : list pystr) : mem c l = true <-> In c l.
Proof.
  unfold mem. rewrite existsb_exists. split.
  - intros [x [I E]]. apply eqb_eq in E. congruence.
  - intros I. exists c. split; [exact I | apply eqb_refl].
Qed.

Lemma getcol_In (df : frame) (c : pystr) (cells : list cell) :
  getcol df c = Ok cells -> In c (columns df).
Proof.
  induction df as [|[n x] t IH]; simpl; [discriminate|].
  destruct (PyStr.eqb n c) eqn:E.
  - apply eqb_eq in E. auto.
  - auto.
Qed.

Lemma getcol_setcol_ne (df : frame) (n v : pystr) (x : list cell) :
  v <> n -> getcol (setcol df n x) v = getcol df v.
Proof.
  intros N. induction df as [|[c old] t IH]; simpl.
  - rewrite eqb_neq by congruence. reflexivity.
  - destruct (PyStr.eqb c n) eqn:E; simpl.
    + apply eqb_eq in E. subst c. rewrite eqb_neq by congruence. reflexivity.
    + rewrite IH. reflexivity.
Qed.

Lemma columns_setcol_filter (f : pystr -> bool) (df : frame) n x :
  f n = false -> filter f (columns (setcol df n x)) = filter f (columns df).
Proof.
  intros F. unfold columns. induction df as [|[c old] t IH]; simpl.
  - rewrite F. reflexivity.
  - destruct (PyStr.eqb c n); simpl; [reflexivity|].
    rewrite IH. reflexivity.
Qed.



Lemma mem_filter (v : pystr) (f : pystr -> bool) (l : list pystr) :
  f v = true -> mem v (filter f l) = mem v l.
Proof.
  intros F. induction l as [|c t IH]; simpl; [reflexivity|].
  destruct (f c) eqn:C; simpl; rewrite IH; [reflexivity|].
  destruct (PyStr.eqb v c) eqn:E; [|reflexivity].
  apply eqb_eq in E. congruence.
Qed.

Lemma mem_columns_setcol (df : frame) (n v : pystr) (x : list cell) :
  v <> n -> mem v (columns (setcol df n x)) = mem v (columns df).
Proof.
  intros N. unfold columns. induction df as [|[c old] t IH]; simpl.
  - rewrite eqb_neq by exact N. reflexivity.
  - destruct (PyStr.eqb c n); simpl; [reflexivity|]. rewrite IH. reflexivity.
Qed.

Lemma melt_rows_ext (df df' : frame) region region_std (vars : list pystr) :
  (forall v, In v vars -> getcol df v = getcol df' v) ->
  melt_rows df region region_std vars = melt_rows df' region region_std vars.
Proof.
  induction vars as [|v t IH]; simpl; intros H; [reflexivity|].
  rewrite (H v) by auto. rewrite IH by auto. reflexivity.
Qed.

(** Two frames with the same value columns, both with a column
    "value_raw" or both without, melt alike. *)
Lemma melt_ext (df df' : frame) region region_std (vars : list pystr) :
  mem K.VALUE_RAW (columns df) = mem K.VALUE_RAW (columns df') ->
  (forall v, In v vars -> getcol df v = getcol df' v) ->
  melt df region region_std vars = melt df' region region_std vars.
Proof.
  intros M H. unfold melt. rewrite M, (melt_rows_ext df df') by exact H.
  reflexivity.
Qed.

Lemma melt_ok (df : frame) region region_std (vars : list pystr) ml :
  melt df region region_std vars = Ok ml ->
  mem K.VALUE_RAW (columns df) = false
  /\ melt_rows df region region_std vars = Ok ml.
Proof.
  unfold melt. destruct (mem K.VALUE_RAW (columns df)); [discriminate|]. auto.
Qed.

Lemma melt_plain (df : frame) region region_std (vars : list pystr) :
  mem K.VALUE_RAW (columns df) = false ->
  melt df region region_std vars = melt_rows df region region_std vars.
Proof. unfold melt. intros ->. reflexivity. Qed.

Lemma build_meta_In (l : list pystr) (x : meta_row) :
  In x (build_meta l) ->
  In (m_col x) l
  /\ Header.parse (m_col x) = Some (m_year x, m_month x, m_measure x, m_sex x).
Proof.
  induction l as [|c t IH]; simpl; [intros []|].
  destruct (Header.parse c) as [[[[y m] me] sx]|] eqn:P.
  - intros [<-|I]; simpl; [auto|]. destruct (IH I). auto.
  - intros I. destruct (IH I). auto.
Qed.

Lemma build_meta_matched (l : list pystr) c y m me sx :
  In c l -> Header.parse c = Some (y, m, me, sx) ->
  In (MetaRow c y m me sx) (build_meta l).
Proof.
  induction l as [|h t IH]; simpl; [intros []|].
  intros [->|I] P.
  - rewrite P. left. reflexivity.
  - destruct (Header.parse h) as [[[[y' m'] me'] sx']|]; [right|]; auto.
Qed.

Lemma build_meta_none (l : list pystr) :
  (forall c, In c l -> Header.parse c = None) -> build_meta l = [].
Proof.
  induction l as [|c t IH]; simpl; intros H; [reflexivity|].
  rewrite (H c) by auto. apply IH. auto.
Qed.



Lemma parse_region : Header.parse K.REGION = None.
Proof. reflexivity. Qed.

Lemma parse_region_std : Header.parse K.REGION_STD = None.
Proof. reflexivity. Qed.

Lemma is_value_col_spec (c : pystr) :
  is_value_col c = true <-> c <> K.REGION /\ c <> K.REGION_STD.
Proof.
  unfold is_value_col. rewrite negb_true_iff. split.
  - intros M. split; intros ->; discriminate.
  - intros [A B]. destruct (mem c [K.REGION; K.REGION_STD]) eqn:M; [|reflexivity].
    apply mem_In in M. simpl in M. intuition congruence.
Qed.

(** The added column plays no part: the value columns and their cells
    are those of [raw] itself. *)
Lemma tidy_table_eq (other : Dates.reader) (raw : frame) :
  tidy_table other raw =
  (do region <- getcol raw K.REGION ;;
   let meta := build_meta (filter is_value_col (columns raw)) in
   do m <- melt raw region (map standardize_region region) (map m_col meta) ;;
   with_dates other (merge_left m meta)).
Proof.
  unfold tidy_table. destruct (getcol raw K.REGION) as [region|]; simpl; [|reflexivity].
  rewrite columns_setcol_filter by reflexivity.
  rewrite (melt_ext _ raw); [reflexivity | apply mem_columns_setcol; discriminate |].
  intros v I. apply getcol_setcol_ne.
  apply in_map_iff in I as [x [<- I]]. apply build_meta_In in I as [I _].
  apply filter_In in I as [_ V]. apply is_value_col_spec in V. tauto.
Qed.





(** ** Months out of range *)

Lemma digit_in_range (runs : list Z) (c : char) (d : Z) :
  digit_in runs c = Some d -> 0 <= d <= 9.
Proof.
  induction runs as [|s t IH]; simpl; [discriminate|].
  destruct ((s <=? c) && (c <? s + 10)) eqn:E; [|exact IH].
  intros H. injection H as <-.
  apply andb_true_iff in E as [A B]. lia.
Qed.

Lemma digit_range (s : pystr) (d : Z) (t : pystr) :
  Header.digit s = Some (d, t) -> 0 <= d <= 9.
Proof.
  destruct s as [|c r]; simpl; [discriminate|].
  destruct (digit_value c) as [x|] eqn:E; simpl; [|discriminate].
  intros H. injection H as <- _. apply (digit_in_range _ _ _ E).
Qed.

Lemma month_and_tail_range (s : pystr) (m : Z) r :
  Header.month_and_tail s = Some (m, r) -> 0 <= m <= 99.
Proof.
  unfold Header.month_and_tail.
  destruct (Header.digit s) as [[a s1]|] eqn:A; [|discriminate].
  pose proof (digit_range _ _ _ A) as Ra.
  assert (One : forall o,
             match s1 with
             | [] => None
             | c :: s2 =>
                 if c =? K.WOL then option_map (pair a) (Header.tail s2) else None
             end = Some o -> fst o = a).
  { intros o. destruct s1 as [|c s2]; [discriminate|].
    destruct (c =? K.WOL); [|discriminate].
    destruct (Header.tail s2); simpl; [|discriminate].
    intros H. injection H as <-. reflexivity. }
  destruct (Header.digit s1) as [[b [|c s3]]|] eqn:B.
  - intros H. apply One in H. simpl in H. lia.
  - pose proof (digit_range _ _ _ B) as Rb.
    destruct (c =? K.WOL).
    + destruct (Header.tail s3) as [r'|].
      * intros H. assert (m = 10 * a + b) by congruence. lia.
      * intros H. apply One in H. simpl in H. lia.
    + intros H. apply One in H. simpl in H. lia.
  - intros H. apply One in H. simpl in H. lia.
Qed.

(** The grammar bounds the digits, not the month: it is within 0..99. *)
Lemma parse_month_range (c : pystr) y m me sx :
  Header.parse c = Some (y, m, me, sx) -> 0 <= m <= 99.
Proof.
  unfold Header.parse.
  destruct (Header.digit c) as [[d1 s1]|]; [|discriminate].
  destruct (Header.digit s1) as [[d2 s2]|]; [|discriminate].
  destruct (Header.digit s2) as [[d3 s3]|]; [|discriminate].
  destruct (Header.digit s3) as [[d4 [|n s5]]|]; try discriminate.
  destruct (n =? K.NYEON); [|discriminate].
  destruct (Header.month_and_tail s5) as [[m' [me' sx']]|] eqn:M; [|discriminate].
  intros H. injection H as _ <- _ _. apply (month_and_tail_range _ _ _ M).
Qed.

Lemma month_text (m : Z) :
  0 <= m <= 99 ->
  exists a b, zfill 2 (str_int m) = [a; b] /\ Dates.two a b = Some m.
Proof.
  intros R.
  assert (A : forallb month_text_ok (seq 0 100) = true) by (vm_compute; reflexivity).
  rewrite forallb_forall in A.
  specialize (A (Z.to_nat m)). unfold month_text_ok in A.
  rewrite Z2Nat.id in A by lia.
  assert (I : In (Z.to_nat m) (seq 0 100)) by (apply in_seq; lia).
  specialize (A I).
  destruct (zfill 2 (str_int m)) as [|a [|b [|c l]]]; try discriminate.
  exists a, b. split; [reflexivity|].
  destruct (Dates.two a b) as [x|]; [|discriminate].
  apply Z.eqb_eq in A. congruence.
Qed.

Lemma parse_year_range (c : pystr) y m me sx :
  Header.parse c = Some (y, m, me, sx) -> 0 <= y <= 9999.
Proof.
  unfold Header.parse.
  destruct (Header.digit c) as [[d1 s1]|] eqn:D1; [|discriminate].
  destruct (Header.digit s1) as [[d2 s2]|] eqn:D2; [|discriminate].
  destruct (Header.digit s2) as [[d3 s3]|] eqn:D3; [|discriminate].
  destruct (Header.digit s3) as [[d4 [|n s5]]|] eqn:D4; try discriminate.
  destruct (n =? K.NYEON); [|discriminate].
  destruct (Header.month_and_tail s5) as [[m' [me' sx']]|]; [|discriminate].
  apply digit_range in D1, D2, D3, D4.
  intros H. assert (y = 1000 * d1 + 100 * d2 + 10 * d3 + d4) by congruence.
  lia.
Qed.

Lemma year_text (y : Z) :
  0 <= y <= 9999 ->
  match str_int y with
  | [a; b; c; d] =>
      1000 <= y /\ Dates.two a b = Some (y / 100) /\ Dates.two c d = Some (y mod 100)
  | _ => y < 1000
  end.
Proof.
  intros R.
  assert (A : forallb year_text_ok (seq 0 (Z.to_nat 10000)) = true) by (vm_compute; reflexivity).
  rewrite forallb_forall in A.
  specialize (A (Z.to_nat y)). unfold year_text_ok in A. cbv zeta in A.
  rewrite Z2Nat.id in A by lia.
  assert (I : In (Z.to_nat y) (seq 0 (Z.to_nat 10000))) by (apply in_seq; lia).
  specialize (A I).
  destruct (str_int y) as [|a [|b [|c [|d [|e l]]]]]; try (apply Z.ltb_lt; exact A).
  destruct (Dates.two a b) as [h|]; [|discriminate].
  destruct (Dates.two c d) as [l|]; [|discriminate].
  apply andb_true_iff in A as [A L]. apply andb_true_iff in A as [A H].
  apply Z.leb_le in A. apply Z.eqb_eq in H, L. subst. auto.
Qed.

Lemma two_digits (a b : char) (n : Z) :
  Dates.two a b = Some n ->
  0x30 <= a <= 0x39 /\ 0x30 <= b <= 0x39 /\ n = 10 * (a - 0x30) + (b - 0x30).
Proof.
  unfold Dates.two, ascii_digit. intros H.
  destruct ((48 <=? a) && (a <=? 57)) eqn:A; [|discriminate].
  destruct ((48 <=? b) && (b <=? 57)) eqn:B; [|discriminate].
  cbn [andb] in H.
  assert (E : n = 10 * (a - 48) + (b - 48)) by congruence.
  apply andb_true_iff in A as [A1 A2]. apply andb_true_iff in B as [B1 B2].
  lia.
Qed.

(** The date text of a year from 1000 on has the ISO shape, whatever the
    two digits of its month. *)
Lemma ym_text_shape (y m : Z) :
  1000 <= y <= 9999 -> 0 <= m <= 99 -> Dates.iso_shape (ym_text y m) = true.
Proof.
  intros Ry Rm. unfold ym_text.
  destruct (month_text m Rm) as (ma & mb & -> & Tm).
  pose proof (year_text y ltac:(lia)) as Y.
  destruct (str_int y) as [|a [|b [|c [|e [|f l]]]]]; try lia.
  destruct Y as (_ & Ya & Yc).
  apply two_digits in Ya as (A & B & _), Yc as (C & E & _), Tm as (F & G & _).
  unfold K.DASH, K.DASH01, Dates.iso_shape, ascii_digit. cbn [app].
  repeat (apply andb_true_iff; split); lia.
Qed.

Lemma parse_iso_length (s : pystr) :
  length s <> 10%nat -> Dates.parse_iso s = Raise (ValueError s).
Proof.
  destruct s as [|a1 [|a2 [|a3 [|a4 [|a5 [|a6 [|a7 [|a8 [|a9 [|a10 [|a11 s]]]]]]]]]]];
    simpl; intros N; try reflexivity.
  contradiction.
Qed.

(** The text of a year and of a month outside 1..12 is no date. *)
Lemma bad_month_text (y : pystr) (m : Z) :
  0 <= m <= 99 -> m < 1 \/ 12 < m ->
  exists e, Dates.parse_iso (y ++ K.DASH ++ zfill 2 (str_int m) ++ K.DASH01) = Raise e.
Proof.
  intros R B. destruct (month_text m R) as (a & b & -> & T).
  destruct (Nat.eq_dec (length y) 4) as [L|L].
  - destruct y as [|y1 [|y2 [|y3 [|y4 [|y5 y]]]]]; try discriminate L.
    unfold K.DASH, K.DASH01, Dates.parse_iso. cbn [app].
    change (45 =? 45) with true. cbn [andb].
    rewrite T. change (Dates.two 48 49) with (Some 1).
    destruct (Dates.two y1 y2); eauto.
    destruct (Dates.two y3 y4); eauto.
    assert ((1 <=? m) && (m <=? 12) = false) as ->; [|simpl; eauto].
    apply andb_false_iff. destruct B; [left|right]; lia.
  - rewrite parse_iso_length; [eauto|].
    rewrite !length_app. simpl. lia.
Qed.

Lemma melt_rows_cols (df : frame) region region_std (vars : list pystr) : forall ml,
  melt_rows df region region_std vars = Ok ml ->
  forall x, In x ml -> In (l_col x) vars.
Proof.
  induction vars as [|v t IH]; simpl; intros ml H x I.
  - injection H as <-. destruct I.
  - destruct (getcol df v) as [cells|]; simpl in H; [|discriminate].
    destruct (melt_rows df region region_std t) as [tl|]; simpl in H; [|discriminate].
    injection H as <-. apply in_app_iff in I as [I|I].
    + apply in_map_iff in I as [[[r rs] c] [<- _]]. simpl. auto.
    + right. apply (IH tl eq_refl x I).
Qed.

Lemma melt_cols (df : frame) region region_std (vars : list pystr) ml :
  melt df region region_std vars = Ok ml ->
  forall x, In x ml -> In (l_col x) vars.
Proof. intros H. apply melt_ok in H as [_ H]. exact (melt_rows_cols _ _ _ _ ml H). Qed.

Lemma melt_has_row (df : frame) r0 region s0 region_std (vars : list pystr) v c0 cells :
  In v vars -> getcol df v = Ok (c0 :: cells) ->
  forall ml, melt_rows df (r0 :: region) (s0 :: region_std) vars = Ok ml ->
  exists x, In x ml /\ l_col x = v.
Proof.
  induction vars as [|h t IH]; simpl; intros I G ml H; [destruct I|].
  destruct (getcol df h) as [hc|] eqn:Gh; simpl in H; [|discriminate].
  destruct (melt_rows df (r0 :: region) (s0 :: region_std) t) as [tl|];
    simpl in H; [|discriminate].
  injection H as <-. destruct I as [->|I].
  - rewrite G in Gh. injection Gh as <-. simpl.
    exists (Melted r0 s0 v c0). auto.
  - destruct (IH I G tl eq_refl) as (x & Ix & E).
    exists x. split; [apply in_app_iff; auto | exact E].
Qed.

Lemma merge_left_In (ml : list melted) (meta : list meta_row) x mr :
  In x ml -> In mr meta -> m_col mr = l_col x ->
  In (LongRow x (Some mr)) (merge_left ml meta).
Proof.
  intros Ix Im E. unfold merge_left. apply in_flat_map. exists x. split; [exact Ix|].
  assert (F : In mr (filter (fun m => PyStr.eqb (m_col m) (l_col x)) meta)).
  { apply filter_In. split; [exact Im|]. rewrite E. apply eqb_refl. }
  destruct (filter _ meta) as [|h t]; [destruct F|].
  apply in_map_iff. exists mr. auto.
Qed.

Lemma merge_left_matched (ml : list melted) (meta : list meta_row) :
  (forall x, In x ml -> In (l_col x) (map m_col meta)) ->
  existsb unmatched (merge_left ml meta) = false.
Proof.
  intros H. destruct (existsb unmatched (merge_left ml meta)) eqn:E; [|reflexivity].
  apply existsb_exists in E as [r [I U]].
  apply in_flat_map in I as [x [Ix I]].
  apply H, in_map_iff in Ix as [mr [E Im]].
  assert (F : In mr (filter (fun m => PyStr.eqb (m_col m) (l_col x)) meta)).
  { apply filter_In. split; [exact Im|]. rewrite E. apply eqb_refl. }
  destruct (filter _ meta) as [|h t]; [destruct F|].
  apply in_map_iff in I as [z [<- _]]. discriminate U.
Qed.

Lemma merge_left_origin (ml : list melted) (meta : list meta_row) (r : long_row) :
  In r (merge_left ml meta) ->
  In (g_melted r) ml
  /\ match g_meta r with
     | Some mr => In mr meta /\ m_col mr = l_col (g_melted r)
     | None => True
     end.
Proof.
  unfold merge_left. intros I. apply in_flat_map in I as [x [Ix I]].
  destruct (filter _ meta) as [|h t] eqn:F.
  - destruct I as [<-|[]]. simpl. auto.
  - apply in_map_iff in I as [mr [<- I]]. simpl. split; [exact Ix|].
    rewrite <- F in I. apply filter_In in I as [I E]. apply eqb_eq in E. auto.
Qed.

Lemma with_dates_bad_month (long : list long_row) r mr :
  existsb unmatched long = false ->
  In r long -> g_meta r = Some mr ->
  0 <= m_month mr <= 99 -> m_month mr < 1 \/ 12 < m_month mr ->
  exists e, with_dates iso_only long = Raise e.
Proof.
  intros U I G R B. unfold with_dates. rewrite U.
  destruct (bad_month_text (str_int (m_year mr)) (m_month mr) R B) as [e E].
  destruct (mapM_raise Dates.parse_iso (map (date_text false) long)
              (date_text false r) e) as [e' M].
  - apply in_map. exact I.
  - unfold date_text. rewrite G. exact E.
  - rewrite to_datetime_iso_only, M. simpl. eauto.
Qed.

(** ** Tables whose years have four digits *)

Lemma with_dates_first (other : Dates.reader) (long : list long_row) :
  match long with
  | [] => True
  | r :: _ => Dates.iso_shape (date_text (existsb unmatched long) r) = true
  end ->
  with_dates other long = with_dates iso_only long.
Proof.
  unfold with_dates. destruct long as [|r t]; [reflexivity|].
  intros H. cbn [map]. rewrite (to_datetime_shape other) by exact H.
  reflexivity.
Qed.

(** When every header that the grammar matches has a year from 1000 on,
    the date text has the ISO shape and the library reads it as ISO text:
    what it does with other text plays no part. *)
Lemma tidy_table_years (other : Dates.reader) (raw : frame) :
  (forall c y m me sx,
      In c (columns raw) -> Header.parse c = Some (y, m, me, sx) -> 1000 <= y) ->
  tidy_table other raw = tidy_table iso_only raw.
Proof.
  intros Hy. rewrite !tidy_table_eq.
  destruct (getcol raw K.REGION) as [region|]; simpl; [|reflexivity].
  destruct (melt raw region _ _) as [ml|] eqn:M; simpl; [|reflexivity].
  apply with_dates_first.
  pose proof (merge_left_matched ml _ (melt_cols _ _ _ _ ml M)) as U.
  destruct (merge_left ml _) as [|r t] eqn:L; [exact I|].
  rewrite U.
  assert (I : In r (merge_left ml (build_meta (filter is_value_col (columns raw)))))
    by (rewrite L; left; reflexivity).
  pose proof (merge_left_origin _ _ _ I) as [_ Im].
  destruct r as [x [mr|]]; simpl in Im.
  - destruct Im as [Im _]. apply build_meta_In in Im as [Ic P].
    apply filter_In in Ic as [Ic _].
    pose proof (Hy _ _ _ _ _ Ic P) as Y.
    pose proof (parse_year_range _ _ _ _ _ P) as Ry.
    pose proof (parse_month_range _ _ _ _ _ P) as Rm.
    unfold date_text, int_text. simpl.
    change (str_int (m_year mr) ++ K.DASH ++ zfill 2 (str_int (m_month mr)) ++ K.DASH01)
      with (ym_text (m_year mr) (m_month mr)).
    apply ym_text_shape; lia.
  - exfalso. simpl in U. discriminate U.
Qed.

Lemma normalize_years (other : Dates.reader) (raw : frame) :
  (forall c y m me sx,
      In c (columns raw) -> Header.parse c = Some (y, m, me, sx) -> 1000 <= y) ->
  normalize other raw = normalize iso_only raw.
Proof.
  intros Hy. unfold normalize. rewrite (tidy_table_years other raw Hy).
  reflexivity.
Qed.

(** A month out of range does not cost one row only: the column of
    month 13 matches the grammar, and the conversion of the frame ends in
    the [ValueError] of the date "2024-13-01"; no table comes out, not even
    for the column of March. *)
Lemma month_13_aborts_normalize :
  Header.parse header_2024_13 = Some (2024, 13, K.POP_CHANGE, K.TOTAL)
  /\ normalize dateutil_2026 with_month_13
     = Raise (ValueError [0x32; 0x30; 0x32; 0x34; 0x2D; 0x31; 0x33; 0x2D; 0x30; 0x31])
  /\ ~ exists rows, normalize dateutil_2026 with_month_13 = Ok rows.
Proof.
  split; [reflexivity|]. split; [reflexivity|].
  intros [rows H]. discriminate H.
Qed.

(** C6, as the code has it: a column whose name matches the grammar with
    a month outside 1..12 is a matching column like any other, and in a
    frame that has a row and whose matched headers all have a year from
    1000 on (their date text has the ISO shape), the date construction
    raises and the whole conversion ends with an exception. *)
Theorem bad_month_aborts (other : Dates.reader) (raw : frame) (r0 : cell)
    (region : list cell) (col : pystr) (c0 : cell) (cells : list cell)
    (y m : Z) (measure sex : pystr) :
  getcol raw K.REGION = Ok (r0 :: region) ->
  getcol raw col = Ok (c0 :: cells) ->
  Header.parse col = Some (y, m, measure, sex) ->
  m < 1 \/ 12 < m ->
  (forall c y' m' me sx,
      In c (columns raw) -> Header.parse c = Some (y', m', me, sx) ->
      1000 <= y') ->
  In (MetaRow col y m measure sex)
     (build_meta (filter is_value_col (columns raw)))
  /\ exists e, normalize other raw = Raise e.
Proof.
  intros R G P B Hy.
  assert (V : is_value_col col = true).
  { apply is_value_col_spec. split; intros ->.
    - rewrite parse_region in P. discriminate.
    - rewrite parse_region_std in P. discriminate. }
  assert (M : In (MetaRow col y m measure sex)
                 (build_meta (filter is_value_col (columns raw)))).
  { apply build_meta_matched; [|exact P].
    apply filter_In. split; [apply (getcol_In _ _ _ G) | exact V]. }
  split; [exact M|].
  rewrite (normalize_years other raw Hy).
  unfold normalize. rewrite tidy_table_eq, R. simpl.
  destruct (melt raw _ _ _) as [ml|e] eqn:E; simpl; [|eauto].
  pose proof (melt_ok _ _ _ _ _ E) as [_ E'].
  destruct (melt_has_row raw r0 region _ _ _ col c0 cells
              (in_map m_col _ _ M) G ml E') as (x & Ix & Ex).
  destruct (with_dates_bad_month
              (merge_left ml (build_meta (filter is_value_col (columns raw))))
              (LongRow x (Some (MetaRow col y m measure sex)))
              (MetaRow col y m measure sex)) as [e W]; auto.
  - apply merge_left_matched. apply (melt_cols _ _ _ _ ml E).
  - apply merge_left_In; auto.
  - simpl. apply (parse_month_range _ _ _ _ _ P).
  - rewrite W. simpl. eauto.
Qed.

Lemma bad_month_aborts_witness :
  exists e, normalize dateutil_2026 with_month_13 = Raise e.
Proof.
  apply (bad_month_aborts dateutil_2026 with_month_13 (CStr [0x41]) []
           header_2024_13 (CInt 10) [] 2024 13 K.POP_CHANGE K.TOTAL);
    [reflexivity | reflexivity | reflexivity | right; lia |].
  intros c y m me sx [<-|[<-|[<-|[]]]] P; try discriminate P;
    injection P as <- _ _ _; lia.
Defined.

(** ** One matching column, one cell *)

Lemma build_meta_single (l : list pystr) col y m me sx :
  NoDup l -> In col l -> Header.parse col = Some (y, m, me, sx) ->
  (forall c, In c l -> c <> col -> Header.parse c = None) ->
  build_meta l = [MetaRow col y m me sx].
Proof.
  intros N. induction N as [|h t NI N IH]; intros I P O; [destruct I|].
  simpl. destruct I as [->|I].
  - rewrite P. f_equal. apply build_meta_none.
    intros c Ic. apply O; [right; exact Ic|]. intros ->. contradiction.
  - rewrite (O h); [|left; reflexivity|intros ->; contradiction].
    apply IH; auto. intros c Ic. apply O. right. exact Ic.
Qed.

(** C1: a frame without a column "value_raw", whose region column holds
    "A" and whose only column matching the header grammar encodes 2024,
    month 3, 인구증감, 계 and holds "1,234", becomes the single row
    ("A", 2024-03-01, 인구증감, 계, 1234.0). *)
Theorem normalize_one_cell (other : Dates.reader) (raw : frame) (col : pystr) :
  NoDup (columns raw) ->
  mem K.VALUE_RAW (columns raw) = false ->
  getcol raw K.REGION = Ok [CStr [0x41]] ->
  getcol raw col = Ok [CStr text_1_234] ->
  Header.parse col = Some (2024, 3, K.POP_CHANGE, K.TOTAL) ->
  (forall c, In c (columns raw) -> c <> col -> Header.parse c = None) ->
  normalize other raw = Ok [one_row].
Proof.
  intros N W R G P O.
  assert (V : is_value_col col = true).
  { apply is_value_col_spec. split; intros ->.
    - rewrite parse_region in P. discriminate.
    - rewrite parse_region_std in P. discriminate. }
  unfold normalize. rewrite tidy_table_eq, R. simpl bind.
  rewrite (build_meta_single _ col 2024 3 K.POP_CHANGE K.TOTAL).
  - rewrite melt_plain by exact W.
    cbn [map m_col melt_rows]. rewrite G. simpl bind.
    cbn [map combine app merge_left flat_map l_col m_col filter].
    rewrite eqb_refl. cbn [map app].
    vm_compute. reflexivity.
  - apply NoDup_filter. exact N.
  - apply filter_In. split; [apply (getcol_In _ _ _ G) | exact V].
  - exact P.
  - intros c I. apply filter_In in I as [I _]. apply O. exact I.
Qed.

Lemma normalize_one_cell_witness : normalize dateutil_2026 one_cell = Ok [one_row].
Proof.
  apply (normalize_one_cell dateutil_2026 one_cell header_2024_3).
  - repeat constructor; simpl; intuition discriminate.
  - reflexivity.
  - reflexivity.
  - reflexivity.
  - reflexivity.
  - intros c [<-|[<-|[]]] D; [reflexivity | contradiction].
Defined.

(** ** The encodings of the centroid file *)

Section CentroidFacts.
Context {Source Table : Type}.
Variable read_csv : Source -> pystr -> Source * result Table.
Variable finish : Table -> result Table.

Lemma read_loop_first (encs : list pystr) : forall src c pre t post,
  Centroids.attempts read_csv src encs = pre ++ Ok t :: post ->
  forallb raised pre = true ->
  snd (Centroids.read_loop read_csv src encs c) = Some t.
Proof.
  induction encs as [|enc rest IH]; simpl; intros src c pre t post A F.
  - destruct pre; discriminate.
  - destruct (read_csv src enc) as [src' [x|e]].
    + destruct pre as [|p pre]; simpl in *.
      * injection A as -> _. reflexivity.
      * injection A as <- _. discriminate.
    + destruct pre as [|p pre]; simpl in *; [discriminate|].
      injection A as <- A. apply (IH src' None pre t post A).
      exact F.
Qed.

Lemma read_loop_none (encs : list pystr) : forall src c,
  encs <> [] ->
  forallb raised (Centroids.attempts read_csv src encs) = true ->
  snd (Centroids.read_loop read_csv src encs c) = None.
Proof.
  induction encs as [|enc rest IH]; simpl; intros src c N F; [contradiction|].
  destruct (read_csv src enc) as [src' [x|e]]; simpl in F; [discriminate|].
  destruct rest as [|enc' rest']; [reflexivity|].
  apply IH; [discriminate | exact F].
Qed.

(** C9: the encodings are tried in the order "utf-8-sig", "utf-8",
    "cp949", "euc-kr"; the table of the first attempt that does not raise
    is the one the loader goes on with; when all four raise, the loader
    raises the [ValueError] whose message ends in "인코딩을 확인해주세요."
    and returns no table. *)
Theorem load_centroids_chain (src : Source) :
  Centroids.ENCODINGS
  = [Centroids.UTF8_SIG; Centroids.UTF8; Centroids.CP949; Centroids.EUC_KR]
  /\ (forall pre t post,
        Centroids.attempts read_csv src Centroids.ENCODINGS = pre ++ Ok t :: post ->
        forallb raised pre = true ->
        snd (Centroids.load_centroids read_csv finish src) = finish t)
  /\ (forallb raised (Centroids.attempts read_csv src Centroids.ENCODINGS) = true ->
      snd (Centroids.load_centroids read_csv finish src)
      = Raise (ValueError Centroids.READ_FAILED))
  /\ exists p, Centroids.READ_FAILED = p ++ Centroids.CHECK_ENCODING.
Proof.
  split; [reflexivity|]. split; [|split].
  - intros pre t post A F. unfold Centroids.load_centroids.
    pose proof (read_loop_first _ src None pre t post A F) as L.
    destruct (Centroids.read_loop read_csv src Centroids.ENCODINGS None) as [s o].
    simpl in L. subst o. reflexivity.
  - intros F. unfold Centroids.load_centroids.
    pose proof (read_loop_none Centroids.ENCODINGS src None) as L.
    destruct (Centroids.read_loop read_csv src Centroids.ENCODINGS None) as [s o].
    simpl in L. rewrite L; [reflexivity | discriminate | exact F].
  - eexists. reflexivity.
Qed.
End CentroidFacts.

Lemma load_centroids_chain_witness :
  snd (Centroids.load_centroids cp949_only Ok tt) = Ok 7%nat
  /\ snd (Centroids.load_centroids unreadable Ok tt)
     = Raise (ValueError Centroids.READ_FAILED).
Proof.
  split.
  - destruct (load_centroids_chain cp949_only Ok tt) as (_ & A & _).
    apply (A [Raise (ValueError Centroids.UTF8_SIG); Raise (ValueError Centroids.UTF8)]
             7%nat [Raise (ValueError Centroids.EUC_KR)]); reflexivity.
  - destruct (load_centroids_chain unreadable (@Ok nat) tt) as (_ & _ & B & _).
    apply B. reflexivity.
Defined.

(** * Further properties of the code *)

(** ** The old and the new name of the province *)

Lemma lstrip_with_spaces (sp : char -> bool) (ws s : pystr) :
  forallb sp ws = true -> lstrip_with sp (ws ++ s) = lstrip_with sp s.
Proof.
  induction ws as [|c t IH]; simpl; intros H; [reflexivity|].
  apply andb_true_iff in H as [C T]. rewrite C. auto.
Qed.

Lemma rstrip_with_keep (sp : char -> bool) (c : char) (t : pystr) :
  sp c = false -> rstrip_with sp (c :: t) = c :: rstrip_with sp t.
Proof.
  intros C. simpl. destruct (rstrip_with sp t); [rewrite C|]; reflexivity.
Qed.

Lemma strip_old_name (ws rest : pystr) :
  forallb isspace ws = true ->
  strip (ws ++ K.JEOLLABUK ++ rest) = K.JEOLLABUK ++ rstrip_with isspace rest.
Proof.
  intros W. unfold strip. rewrite lstrip_with_spaces by exact W.
  cbn [K.JEOLLABUK app lstrip_with]. change (isspace 51204) with false. cbv iota.
  rewrite !rstrip_with_keep by reflexivity. reflexivity.
Qed.

Lemma strip_new_name (ws rest : pystr) :
  forallb isspace ws = true ->
  strip (ws ++ K.JEONBUK ++ rest) = K.JEONBUK ++ rstrip_with isspace rest.
Proof.
  intros W. unfold strip. rewrite lstrip_with_spaces by exact W.
  cbn [K.JEONBUK app lstrip_with]. change (isspace 51204) with false. cbv iota.
  rewrite !rstrip_with_keep by reflexivity. reflexivity.
Qed.

(** X1: a name under the old province name and the same name under the
    new one, whatever white space is in front of them, are standardized
    to one name: the new province name followed by the rest without its
    trailing white space. *)
Theorem standardize_region_merges (ws1 ws2 rest : pystr) :
  forallb isspace ws1 = true -> forallb isspace ws2 = true ->
  standardize_region (CStr (ws1 ++ K.JEOLLABUK ++ rest))
  = CStr (K.JEONBUK ++ rstrip_with isspace rest)
  /\ standardize_region (CStr (ws2 ++ K.JEONBUK ++ rest))
     = CStr (K.JEONBUK ++ rstrip_with isspace rest).
Proof.
  intros W1 W2. split.
  - rewrite standardize_region_text by reflexivity. cbv zeta. cbn [str].
    rewrite (strip_old_name ws1 rest W1).
    destruct (rstrip_with isspace rest); reflexivity.
  - rewrite standardize_region_text by reflexivity. cbv zeta. cbn [str].
    rewrite (strip_new_name ws2 rest W2). reflexivity.
Qed.

Lemma standardize_region_merges_witness :
  standardize_region (CStr ([0x20] ++ K.JEOLLABUK ++ [0x20; 0x41; 0x20]))
  = standardize_region (CStr ([] ++ K.JEONBUK ++ [0x20; 0x41; 0x20])).
Proof.
  destruct (standardize_region_merges [0x20] [] [0x20; 0x41; 0x20] eq_refl eq_refl)
    as [A B].
  exact (eq_trans A (eq_sym B)).
Defined.

(** The text that the standardizer returns is trimmed and does not begin
    with the old province name. *)
Lemma standardize_region_canonical (x : cell) (a : pystr) :
  standardize_region x = CStr a ->
  isna x = false ->
  startswith a K.JEOLLABUK = false /\ strip a = a.
Proof.
  intros E N.
  rewrite (standardize_region_text x N) in E. cbv zeta in E.
  destruct (startswith (strip (str x)) K.JEOLLABUK) eqn:P.
  - injection E as <-. split; [reflexivity|].
    set (t := strip (str x)).
    assert (Tr : rstrip_with isspace t = t) by apply rstrip_with_idem.
    unfold strip. cbn [K.JEONBUK app lstrip_with].
    change (isspace 51204) with false. cbv iota.
    pose proof (rstrip_with_skipn isspace 4 t Tr) as R.
    repeat (apply rstrip_with_cons; [reflexivity|]). exact R.
  - injection E as <-. split; [exact P | apply strip_idem].
Qed.

(** ** What the header grammar yields *)

Lemma alt_inv {A : Type} (alts : list pystr) (k : pystr -> pystr -> option A)
    (s : pystr) (r : A) :
  Header.alt alts k s = Some r ->
  exists a t, In a alts /\ Header.lit a s = Some t /\ k a t = Some r.
Proof.
  induction alts as [|a rest IH]; simpl; [discriminate|].
  destruct (Header.lit a s) as [t|] eqn:L.
  - destruct (k a t) as [x|] eqn:Kx.
    + intros H. injection H as <-. exists a, t. auto.
    + intros H. destruct (IH H) as (a' & t' & I & L' & K'). exists a', t'. auto.
  - intros H. destruct (IH H) as (a' & t' & I & L' & K'). exists a', t'. auto.
Qed.

Lemma tail_labels (s : pystr) (me sx : pystr) :
  Header.tail s = Some (me, sx) ->
  In me [K.PREV_POP; K.CUR_POP; K.POP_CHANGE]
  /\ In sx [K.MALE; K.FEMALE; K.TOTAL].
Proof.
  unfold Header.tail. destruct (Header.lit [95] s) as [s1|]; [|discriminate].
  intros H. apply alt_inv in H as (a & t & Ia & _ & H).
  destruct (Header.lit [95] t) as [s3|]; [|discriminate].
  apply alt_inv in H as (b & u & Ib & _ & H).
  destruct (Header.at_end u); [|discriminate].
  injection H as <- <-. auto.
Qed.

Lemma month_and_tail_labels (s : pystr) (m : Z) (me sx : pystr) :
  Header.month_and_tail s = Some (m, (me, sx)) ->
  In me [K.PREV_POP; K.CUR_POP; K.POP_CHANGE]
  /\ In sx [K.MALE; K.FEMALE; K.TOTAL].
Proof.
  unfold Header.month_and_tail.
  destruct (Header.digit s) as [[a s1]|]; [|discriminate].
  assert (One : match s1 with
                | [] => None
                | c :: s2 =>
                    if c =? K.WOL then option_map (pair a) (Header.tail s2) else None
                end = Some (m, (me, sx)) ->
                In me [K.PREV_POP; K.CUR_POP; K.POP_CHANGE]
                /\ In sx [K.MALE; K.FEMALE; K.TOTAL]).
  { destruct s1 as [|c s2]; [discriminate|].
    destruct (c =? K.WOL); [|discriminate].
    destruct (Header.tail s2) as [[me' sx']|] eqn:T; simpl; [|discriminate].
    intros H. injection H as _ <- <-. apply (tail_labels _ _ _ T). }
  destruct (Header.digit s1) as [[b [|c s3]]|]; auto.
  destruct (c =? K.WOL); auto.
  destruct (Header.tail s3) as [[me' sx']|] eqn:T; auto.
  intros H. injection H as _ <- <-. apply (tail_labels _ _ _ T).
Qed.

(** X2: whatever column name the grammar matches, the year it yields is
    within 0..9999 and the month within 0..99 (the grammar counts digits,
    it does not know the calendar), the measure is one of 전월인구수,
    당월인구수, 인구증감 and the sex one of 남자인구수, 여자인구수, 계. *)
Theorem header_fields (c : pystr) (y m : Z) (me sx : pystr) :
  Header.parse c = Some (y, m, me, sx) ->
  0 <= y <= 9999 /\ 0 <= m <= 99
  /\ In me [K.PREV_POP; K.CUR_POP; K.POP_CHANGE]
  /\ In sx [K.MALE; K.FEMALE; K.TOTAL].
Proof.
  intros P. pose proof (parse_month_range _ _ _ _ _ P) as M.
  unfold Header.parse in P.
  destruct (Header.digit c) as [[d1 s1]|] eqn:D1; [|discriminate].
  destruct (Header.digit s1) as [[d2 s2]|] eqn:D2; [|discriminate].
  destruct (Header.digit s2) as [[d3 s3]|] eqn:D3; [|discriminate].
  destruct (Header.digit s3) as [[d4 [|n s5]]|] eqn:D4; try discriminate.
  destruct (n =? K.NYEON); [|discriminate].
  destruct (Header.month_and_tail s5) as [[m' [me' sx']]|] eqn:T; [|discriminate].
  apply digit_range in D1, D2, D3, D4.
  assert (y = 1000 * d1 + 100 * d2 + 10 * d3 + d4 /\ me = me' /\ sx = sx')
    as (-> & -> & ->) by (repeat split; congruence).
  split; [lia|]. split; [exact M|]. apply (month_and_tail_labels _ _ _ _ T).
Qed.

Lemma header_fields_witness :
  0 <= 2024 <= 9999 /\ 0 <= 13 <= 99
  /\ In K.POP_CHANGE [K.PREV_POP; K.CUR_POP; K.POP_CHANGE]
  /\ In K.TOTAL [K.MALE; K.FEMALE; K.TOTAL].
Proof.
  apply (header_fields header_2024_13 2024 13 K.POP_CHANGE K.TOTAL). reflexivity.
Defined.

(** ** The date of a year and a month *)

Lemma days_in_month_pos (y m : Z) : 1 <= Dates.days_in_month y m.
Proof.
  unfold Dates.days_in_month.
  destruct (m =? 2); [destruct (Dates.is_leap y); lia|].
  destruct ((m =? 4) || (m =? 6) || (m =? 9) || (m =? 11)); lia.
Qed.

(** The text of a year and a month is a date exactly when the year has
    four digits, the month is one of the calendar and the first of that
    month is in the range of a [Timestamp]; the date is then that first. *)
Lemma ym_text_date (y m : Z) (d : Timestamp) :
  0 <= y <= 9999 -> 0 <= m <= 99 ->
  (Dates.parse_iso (ym_text y m) = Ok d
   <-> d = MkTs y m 1 /\ 1000 <= y /\ 1 <= m <= 12
       /\ Dates.in_bounds (MkTs y m 1) = true).
Proof.
  intros Ry Rm. unfold ym_text.
  destruct (month_text m Rm) as (ma & mb & -> & Tm).
  pose proof (year_text y Ry) as Y.
  destruct (str_int y) as [|a [|b [|c [|e [|f l]]]]];
    try (split; [intros H; discriminate H | intros (_ & H & _); lia]).
  - destruct Y as (Y1 & Ya & Yc).
    unfold K.DASH, K.DASH01, Dates.parse_iso. cbn [app].
    change (45 =? 45) with true. cbn [andb].
    rewrite Ya, Yc, Tm. change (Dates.two 48 49) with (Some 1).
    assert (E : 100 * (y / 100) + y mod 100 = y)
      by (symmetry; apply Z.div_mod; lia).
    rewrite E.
    assert (D : (1 <=? 1) && (1 <=? Dates.days_in_month y m) = true).
    { pose proof (days_in_month_pos y m). apply andb_true_iff. split; lia. }
    destruct ((1 <=? m) && (m <=? 12)) eqn:M.
    + rewrite <- andb_assoc, D. cbn [andb].
      apply andb_true_iff in M as [M1 M2].
      destruct (Dates.in_bounds (MkTs y m 1)) eqn:B; split.
      * intros H. injection H as <-. repeat split; auto; lia.
      * intros (-> & _). reflexivity.
      * intros H. discriminate H.
      * intros (_ & _ & _ & H). discriminate H.
    + rewrite <- andb_assoc. cbn [andb]. split; [intros H; discriminate H|].
      intros (_ & _ & M1 & _). apply andb_false_iff in M. destruct M; lia.
  - split; [|intros (_ & H & _); lia].
    rewrite parse_iso_length; [intros H; discriminate H|].
    rewrite !length_app. simpl. lia.
Qed.

(** ** Where the rows of the long table come from *)

Lemma mapM_map_combine {A B C : Type} (f : B -> result C) (g : A -> B)
    (l : list A) : forall l',
  mapM f (map g l) = Ok l' ->
  forall a c, In (a, c) (combine l l') -> f (g a) = Ok c.
Proof.
  induction l as [|x t IH]; simpl; intros l' H a c I; [destruct I|].
  destruct (f (g x)) as [y|] eqn:F; simpl in H; [|discriminate].
  destruct (mapM f (map g t)) as [ys|] eqn:M; simpl in H; [|discriminate].
  injection H as <-. destruct I as [I|I].
  - injection I as <- <-. exact F.
  - apply (IH ys eq_refl a c I).
Qed.

Lemma mapM_all_ok {A B : Type} (f : A -> result B) (l : list A) :
  (forall a, In a l -> exists b, f a = Ok b) -> exists l', mapM f l = Ok l'.
Proof.
  induction l as [|x t IH]; simpl; intros H; [eauto|].
  destruct (H x) as [b ->]; [auto|]. destruct IH as [l' ->]; [auto|].
  simpl. eauto.
Qed.

Lemma combine_nth {A B : Type} (l : list A) : forall (l' : list B) a b,
  In (a, b) (combine l l') ->
  exists i, nth_error l i = Some a /\ nth_error l' i = Some b.
Proof.
  induction l as [|x t IH]; intros [|y u] a b I; simpl in I; try destruct I.
  - injection H as <- <-. exists 0%nat. auto.
  - destruct (IH u a b H) as (i & A1 & B1). exists (S i). auto.
Qed.

Lemma nth_combine_map {A B : Type} (f : A -> B) (l : list A) : forall i a b,
  nth_error (combine l (map f l)) i = Some (a, b) ->
  nth_error l i = Some a /\ b = f a.
Proof.
  induction l as [|x t IH]; intros [|i] a b H; simpl in *; try discriminate.
  - injection H as <- <-. auto.
  - apply IH. exact H.
Qed.

(** A row of the melt: the cell of one column and the region of the same
    row of [raw]. *)
Lemma melt_origin (df : frame) (region : list cell) (f : cell -> cell)
    (vars : list pystr) : forall ml,
  melt_rows df region (map f region) vars = Ok ml ->
  forall x, In x ml ->
  exists cells i,
    In (l_col x) vars
    /\ getcol df (l_col x) = Ok cells
    /\ nth_error region i = Some (l_region x)
    /\ l_region_std x = f (l_region x)
    /\ nth_error cells i = Some (l_value_raw x).
Proof.
  induction vars as [|v t IH]; simpl; intros ml H x I.
  - injection H as <-. destruct I.
  - destruct (getcol df v) as [cells|] eqn:G; simpl in H; [|discriminate].
    destruct (melt_rows df region (map f region) t) as [tl|]; simpl in H; [|discriminate].
    injection H as <-. apply in_app_iff in I as [I|I].
    + apply in_map_iff in I as [[[r rs] c] [<- I]]. simpl.
      apply combine_nth in I as (i & A1 & B1).
      apply nth_combine_map in A1 as [A1 ->].
      exists cells, i. auto.
    + destruct (IH tl eq_refl x I) as (cs & i & A1 & A2 & A3 & A4 & A5).
      exists cs, i. auto.
Qed.

Lemma in_bounds_year (t : Timestamp) :
  Dates.in_bounds t = true -> 1677 <= ts_year t <= 2262.
Proof.
  destruct t as [y m d]. unfold Dates.in_bounds, Dates.leb, Dates.compare.
  cbn [ts_year ts_month ts_day].
  intros H. apply andb_true_iff in H as [A B].
  destruct (Z.compare_spec 1677 y); destruct (Z.compare_spec y 2262);
    try lia; discriminate.
Qed.

(** A row of [tidy]: the standardized region and the coerced cell of one
    row of [raw], in a column that the grammar matches, under the first
    day of the month of that column. *)
Lemma tidy_origin (raw : frame) (tidy : list tidy_row) :
  tidy_table iso_only raw = Ok tidy ->
  forall t, In t tidy ->
  exists region cells i x v mr,
    getcol raw K.REGION = Ok region
    /\ In mr (build_meta (filter is_value_col (columns raw)))
    /\ getcol raw (m_col mr) = Ok cells
    /\ nth_error region i = Some x
    /\ nth_error cells i = Some v
    /\ t = Tidy (standardize_region x) (MkTs (m_year mr) (m_month mr) 1)
                (CStr (m_measure mr)) (CStr (m_sex mr)) (to_num v)
    /\ 1 <= m_month mr <= 12
    /\ Dates.in_bounds (MkTs (m_year mr) (m_month mr) 1) = true.
Proof.
  rewrite tidy_table_eq. intros H t I.
  destruct (getcol raw K.REGION) as [region|] eqn:R; simpl in H; [|discriminate].
  destruct (melt raw region _ _) as [ml|] eqn:M0; simpl in H; [|discriminate].
  pose proof (melt_ok _ _ _ _ _ M0) as [_ M].
  unfold with_dates in H.
  pose proof (merge_left_matched ml _ (melt_cols _ _ _ _ ml M0)) as U.
  rewrite U, to_datetime_iso_only in H.
  destruct (mapM Dates.parse_iso _) as [dates|] eqn:D; simpl in H; [|discriminate].
  injection H as <-.
  apply in_map_iff in I as [[r d] [<- I]].
  pose proof (mapM_map_combine _ _ _ _ D r d I) as P.
  apply in_combine_l in I.
  pose proof (merge_left_origin _ _ _ I) as [Ix Im].
  destruct (melt_origin raw region standardize_region _ ml M _ Ix)
    as (cells & i & _ & G & Nr & S & Nc).
  destruct r as [x [mr|]]; simpl in *.
  - destruct Im as [Im Ec]. rewrite <- Ec in G.
    pose proof (build_meta_In _ _ Im) as [_ Q].
    pose proof (parse_year_range _ _ _ _ _ Q) as Ry.
    pose proof (parse_month_range _ _ _ _ _ Q) as Rm.
    unfold date_text, int_text in P. simpl in P.
    change (str_int (m_year mr) ++ K.DASH ++ zfill 2 (str_int (m_month mr)) ++ K.DASH01)
      with (ym_text (m_year mr) (m_month mr)) in P.
    apply (ym_text_date _ _ d Ry Rm) in P as (-> & _ & Mm & B).
    exists region, cells, i, (l_region x), (l_value_raw x), mr.
    unfold make_tidy, meta_text. simpl. rewrite S. repeat split; auto; lia.
  - exfalso.
    assert (T : existsb unmatched (merge_left ml
                  (build_meta (filter is_value_col (columns raw)))) = true).
    { apply existsb_exists. exists (LongRow x None). split; [exact I|reflexivity]. }
    congruence.
Qed.

Lemma standardize_region_text_cell (x : cell) (a : pystr) :
  standardize_region x = CStr a -> isna x = false.
Proof.
  unfold standardize_region. destruct (isna x) eqn:N; [|reflexivity].
  intros ->. discriminate N.
Qed.

(** X3: in a table whose matched headers all have a year from 1000 on,
    every row of the long table traces back to the frame: its date is the
    first day of the year and month of a value column that the grammar
    matches, with a month of the calendar; its measure and sex are those
    of that column; and its region is the standardized name of a cell of
    the region column, trimmed and never under the old province name. *)
Theorem normalize_rows_origin (other : Dates.reader) (raw : frame)
    (rows : list row) :
  (forall c y m me sx,
      In c (columns raw) -> Header.parse c = Some (y, m, me, sx) -> 1000 <= y) ->
  normalize other raw = Ok rows ->
  forall r, In r rows ->
  exists col region x a,
    In col (columns raw) /\ is_value_col col = true
    /\ Header.parse col
       = Some (ts_year (r_date r), ts_month (r_date r), r_measure r, r_sex r)
    /\ 1 <= ts_month (r_date r) <= 12 /\ ts_day (r_date r) = 1
    /\ getcol raw K.REGION = Ok region /\ In x region
    /\ standardize_region x = CStr a /\ r_region r = Some a
    /\ startswith a K.JEOLLABUK = false /\ strip a = a.
Proof.
  intros Hy. rewrite (normalize_years other raw Hy).
  unfold normalize. intros H r I.
  destruct (tidy_table iso_only raw) as [tidy|] eqn:T; simpl in H; [|discriminate].
  injection H as <-.
  apply groupby_max_In in I as (a & A & (v0 & t & It & Kt & _) & _).
  destruct (tidy_origin raw tidy T t It)
    as (region & cells & i & x & v & mr & R & Im & G & Nr & Nc & -> & Mm & B).
  unfold key_of in Kt. simpl in Kt.
  destruct (standardize_region x) as [s| | | |] eqn:S; try discriminate.
  injection Kt as -> <- <- <-.
  apply build_meta_In in Im as [Ic P].
  apply filter_In in Ic as [Ic V].
  pose proof (standardize_region_canonical x a S (standardize_region_text_cell x a S))
    as [C1 C2].
  exists (m_col mr), region, x, a. simpl.
  repeat split; auto; try lia.
  apply (nth_error_In _ _ Nr).
Qed.

Lemma normalize_rows_origin_witness :
  exists col region x a,
    In col (columns one_cell) /\ is_value_col col = true
    /\ Header.parse col
       = Some (ts_year (r_date one_row), ts_month (r_date one_row),
               r_measure one_row, r_sex one_row)
    /\ 1 <= ts_month (r_date one_row) <= 12 /\ ts_day (r_date one_row) = 1
    /\ getcol one_cell K.REGION = Ok region /\ In x region
    /\ standardize_region x = CStr a /\ r_region one_row = Some a
    /\ startswith a K.JEOLLABUK = false /\ strip a = a.
Proof.
  apply (normalize_rows_origin dateutil_2026 one_cell [one_row]).
  - intros c y m me sx [<-|[<-|[]]] P; [discriminate P|].
    injection P as <- _ _ _. lia.
  - vm_compute. reflexivity.
  - left. reflexivity.
Defined.

(** ** When the conversion raises *)

Lemma getcol_missing (df : frame) (name : pystr) :
  ~ In name (columns df) -> getcol df name = Raise (KeyError name).
Proof.
  induction df as [|[c x] t IH]; simpl; intros N; [reflexivity|].
  rewrite eqb_neq by tauto. apply IH. tauto.
Qed.

Lemma getcol_present (df : frame) (name : pystr) :
  In name (columns df) -> exists cells, getcol df name = Ok cells.
Proof.
  induction df as [|[c x] t IH]; simpl; intros I; [destruct I|].
  destruct (PyStr.eqb c name) eqn:E; [eauto|].
  destruct I as [->|I]; [rewrite eqb_refl in E; discriminate | auto].
Qed.

Lemma melt_all_ok (df : frame) region region_std (vars : list pystr) :
  (forall v, In v vars -> In v (columns df)) ->
  exists ml, melt_rows df region region_std vars = Ok ml.
Proof.
  induction vars as [|v t IH]; simpl; intros H; [eauto|].
  destruct (getcol_present df v) as [cells ->]; [auto|].
  destruct IH as [ml ->]; [auto|]. simpl. eauto.
Qed.

Lemma value_vars_present (raw : frame) (v : pystr) :
  In v (map m_col (build_meta (filter is_value_col (columns raw)))) ->
  In v (columns raw).
Proof.
  intros I. apply in_map_iff in I as [x [<- I]].
  apply build_meta_In in I as [I _]. apply filter_In in I. tauto.
Qed.

(** X4: a frame without the column "행정구역" is not converted: the
    lookup of the column raises [KeyError] with its name, whatever the
    other columns are. *)
Theorem normalize_without_region (other : Dates.reader) (raw : frame) :
  ~ In K.REGION (columns raw) -> normalize other raw = Raise (KeyError K.REGION).
Proof.
  intros N. unfold normalize, tidy_table. rewrite getcol_missing by exact N.
  reflexivity.
Qed.

Lemma normalize_without_region_witness :
  normalize dateutil_2026 [(header_2024_3, [CInt 10])] = Raise (KeyError K.REGION).
Proof.
  apply normalize_without_region. simpl. intros [H|[]]. discriminate H.
Defined.

(** X5: the conversion of a frame that has the region column and no
    column "value_raw" raises nothing when every value column that the
    grammar matches names a month of the calendar whose first day is in
    the range of a [Timestamp] (1677-10-01 to 2262-04-01). *)
Theorem normalize_succeeds (other : Dates.reader) (raw : frame)
    (region : list cell) :
  getcol raw K.REGION = Ok region ->
  mem K.VALUE_RAW (columns raw) = false ->
  (forall c y m me sx,
      In c (columns raw) -> is_value_col c = true ->
      Header.parse c = Some (y, m, me, sx) ->
      1 <= m <= 12 /\ Dates.in_bounds (MkTs y m 1) = true) ->
  exists rows, normalize other raw = Ok rows.
Proof.
  intros R W V.
  assert (Hy : forall c y m me sx,
             In c (columns raw) -> Header.parse c = Some (y, m, me, sx) ->
             1000 <= y).
  { intros c y m me sx I P.
    assert (Vc : is_value_col c = true).
    { apply is_value_col_spec. split; intros ->.
      - rewrite parse_region in P. discriminate.
      - rewrite parse_region_std in P. discriminate. }
    destruct (V _ _ _ _ _ I Vc P) as [_ B].
    apply in_bounds_year in B. simpl in B. lia. }
  rewrite (normalize_years other raw Hy).
  unfold normalize. rewrite tidy_table_eq, R. simpl.
  destruct (melt_all_ok raw region (map standardize_region region)
              (map m_col (build_meta (filter is_value_col (columns raw))))
              (value_vars_present raw)) as [ml M].
  rewrite melt_plain by exact W. rewrite M. simpl. unfold with_dates.
  pose proof (merge_left_matched ml _ (melt_rows_cols _ _ _ _ ml M)) as U.
  rewrite U.
  destruct (mapM_all_ok Dates.parse_iso
              (map (date_text false)
                 (merge_left ml (build_meta (filter is_value_col (columns raw))))))
    as [dates D].
  - intros text I. apply in_map_iff in I as [r [<- I]].
    pose proof (merge_left_origin _ _ _ I) as [_ Im].
    destruct r as [x [mr|]]; simpl in Im.
    + destruct Im as [Im _]. apply build_meta_In in Im as [Ic P].
      apply filter_In in Ic as [Ic Vc].
      destruct (V _ _ _ _ _ Ic Vc P) as [Mm B].
      pose proof (parse_year_range _ _ _ _ _ P) as Ry.
      pose proof (parse_month_range _ _ _ _ _ P) as Rm.
      pose proof (in_bounds_year _ B) as Y. simpl in Y.
      exists (MkTs (m_year mr) (m_month mr) 1).
      unfold date_text, int_text. simpl.
      apply (ym_text_date _ _ _ Ry Rm). repeat split; auto; lia.
    + exfalso.
      assert (T : existsb unmatched (merge_left ml
                    (build_meta (filter is_value_col (columns raw)))) = true).
      { apply existsb_exists. exists (LongRow x None). split; [exact I|reflexivity]. }
      congruence.
  - rewrite to_datetime_iso_only, D. simpl. eauto.
Qed.

Lemma normalize_succeeds_witness :
  exists rows, normalize dateutil_2026 renamed_twice = Ok rows.
Proof.
  apply (normalize_succeeds dateutil_2026 renamed_twice
           [CStr K.JEOLLABUK; CStr K.JEONBUK] eq_refl eq_refl).
  intros c y m me sx [<-|[<-|[]]] V P.
  - discriminate V.
  - injection P as <- <- _ _. split; [lia | reflexivity].
Defined.

(** X6: a frame without a column "value_raw" whose region column is
    there and has no row is converted to the empty table, whatever the
    headers that the grammar matches are, a month out of range and a year
    below 1000 included. *)
Theorem normalize_no_rows (other : Dates.reader) (raw : frame) :
  getcol raw K.REGION = Ok [] ->
  mem K.VALUE_RAW (columns raw) = false ->
  normalize other raw = Ok [].
Proof.
  intros R W. unfold normalize. rewrite tidy_table_eq, R. simpl.
  assert (M : forall vars, (forall v, In v vars -> In v (columns raw)) ->
                melt_rows raw [] [] vars = Ok []).
  { induction vars as [|v t IH]; simpl; intros H; [reflexivity|].
    destruct (getcol_present raw v) as [cells ->]; [auto|].
    rewrite IH by auto. reflexivity. }
  rewrite melt_plain by exact W.
  rewrite M by apply value_vars_present. reflexivity.
Qed.

Lemma normalize_no_rows_witness :
  normalize dateutil_2026 [(K.REGION, []); (header_2024_13, []); (header_0005_3, [])]
  = Ok [].
Proof. apply normalize_no_rows; reflexivity. Defined.

(** ** Integers as text and back *)

Lemma digits_fuel_S (f : nat) (n : Z) (acc : pystr) :
  digits_fuel (S f) n acc
  = if n <? 10 then (0x30 + n mod 10) :: acc
    else digits_fuel f (n / 10) ((0x30 + n mod 10) :: acc).
Proof. reflexivity. Qed.

Lemma digits_value_snoc (ds : pystr) (c : char) (a : Z) :
  digits_value (ds ++ [c]) a = 10 * digits_value ds a + (c - 0x30).
Proof. unfold digits_value. rewrite fold_left_app. reflexivity. Qed.

Lemma digits_fuel_spec (f : nat) : forall n acc,
  0 <= n < 10 ^ (Z.of_nat (S f)) ->
  exists ds,
    digits_fuel (S f) n acc = ds ++ acc
    /\ ds <> []
    /\ Forall (fun c => ascii_digit c = true) ds
    /\ digits_value ds 0 = n.
Proof.
  induction f as [|f IH]; intros n acc R.
  - change (10 ^ Z.of_nat 1) with 10 in R. rewrite digits_fuel_S.
    assert (L : (n <? 10) = true) by lia. rewrite L.
    exists [0x30 + n mod 10]. repeat split; try discriminate.
    + constructor; [|constructor]. unfold ascii_digit.
      pose proof (Z.mod_pos_bound n 10). lia.
    + unfold digits_value. cbn [fold_left]. rewrite Z.mod_small by lia. lia.
  - rewrite digits_fuel_S. destruct (n <? 10) eqn:L.
    + exists [0x30 + n mod 10]. repeat split; try discriminate.
      * constructor; [|constructor]. unfold ascii_digit.
        pose proof (Z.mod_pos_bound n 10). lia.
      * unfold digits_value. cbn [fold_left]. rewrite Z.mod_small by lia. lia.
    + destruct (IH (n / 10) ((0x30 + n mod 10) :: acc)) as (ds & E & N & F & V).
      * rewrite Nat2Z.inj_succ, Z.pow_succ_r in R by lia.
        split; [apply Z.div_pos; lia|].
        apply Z.div_lt_upper_bound; lia.
      * exists (ds ++ [0x30 + n mod 10]). repeat split.
        -- rewrite E, <- app_assoc. reflexivity.
        -- destruct ds; discriminate.
        -- apply Forall_app. split; [exact F|].
           constructor; [|constructor]. unfold ascii_digit.
           pose proof (Z.mod_pos_bound n 10). lia.
        -- rewrite digits_value_snoc, V.
           pose proof (Z.div_mod n 10). lia.
Qed.

Lemma str_int_pos (n : Z) :
  0 < n ->
  exists ds,
    str_int n = ds /\ ds <> []
    /\ Forall (fun c => ascii_digit c = true) ds
    /\ digits_value ds 0 = n.
Proof.
  intros P.
  assert (R : 0 <= n < 10 ^ (Z.of_nat (S (Z.to_nat (Z.log2 n))))).
  { pose proof (Z.log2_spec n P) as [_ U]. pose proof (Z.log2_nonneg n).
    rewrite Nat2Z.inj_succ, Z2Nat.id by lia.
    split; [lia|]. eapply Z.lt_le_trans; [exact U|].
    apply Z.pow_le_mono_l. lia. }
  destruct (digits_fuel_spec _ n [] R) as (ds & E & N & F & V).
  exists ds. rewrite app_nil_r in E. repeat split; auto.
  destruct n as [|p|p]; try lia.
  unfold str_int. rewrite Nat.add_1_r. exact E.
Qed.

Lemma take_digits_app (ds rest : pystr) : forall a k,
  Forall (fun c => ascii_digit c = true) ds ->
  take_digits a k (ds ++ rest)
  = take_digits (digits_value ds a) (k + length ds) rest.
Proof.
  induction ds as [|c t IH]; intros a k F; simpl.
  - rewrite Nat.add_0_r. reflexivity.
  - inversion F as [|? ? C T]; subst. rewrite C.
    rewrite IH by exact T. unfold digits_value. simpl.
    rewrite Nat.add_succ_r. reflexivity.
Qed.

Lemma take_sign_other (c : char) (t : pystr) :
  c <> 0x2D -> c <> 0x2B -> take_sign (c :: t) = (false, c :: t).
Proof.
  intros A B. unfold take_sign.
  destruct c as [|p|p]; try reflexivity.
  do 7 (try destruct p as [p|p|]; try reflexivity);
    exfalso; first [apply A; reflexivity | apply B; reflexivity].
Qed.

(** Characters that [float] reads as they are: ASCII, no space, no
    underscore. *)
Lemma to_ascii_plain (s : pystr) :
  Forall (fun c => (c <? 127) = true) s -> to_ascii s = s.
Proof.
  induction 1 as [|c t C T IH]; simpl; [reflexivity|].
  rewrite C, IH. reflexivity.
Qed.

Lemma lstrip_with_none (sp : char -> bool) (s : pystr) :
  Forall (fun c => sp c = false) s -> lstrip_with sp s = s.
Proof. destruct 1 as [|c t C T]; simpl; [reflexivity|]. rewrite C. reflexivity. Qed.

Lemma rstrip_with_none (sp : char -> bool) (s : pystr) :
  Forall (fun c => sp c = false) s -> rstrip_with sp s = s.
Proof.
  induction 1 as [|c t C T IH]; [reflexivity|].
  apply rstrip_with_cons; assumption.
Qed.

Lemma has_underscore_none (s : pystr) :
  Forall (fun c => c <> 0x5F) s -> has_underscore s = false.
Proof.
  unfold has_underscore.
  induction 1 as [|c t C T IH]; cbn [existsb]; [reflexivity|].
  destruct (Z.eqb_spec 95 c); [congruence | exact IH].
Qed.

Lemma replace_absent (old : char) (new s : pystr) : forall count,
  Forall (fun c => c <> old) s -> replace_go [old] new count 0 s = s.
Proof.
  induction s as [|c t IH]; intros count F; simpl; [reflexivity|].
  inversion F as [|? ? C T]; subst.
  destruct (Z.eqb_spec c old); [contradiction|]. simpl.
  destruct count; rewrite IH by exact T; reflexivity.
Qed.

Lemma digit_facts (c : char) :
  ascii_digit c = true ->
  (c <? 127) = true /\ ascii_space c = false /\ isspace c = false
  /\ c <> 0x5F /\ c <> 0x2C /\ c <> 0x2D /\ c <> 0x2B.
Proof.
  unfold ascii_digit, ascii_space, isspace. intros H.
  apply andb_true_iff in H as [A B].
  repeat split; try lia;
    repeat (apply orb_false_iff; split); try apply andb_false_iff; lia.
Qed.

Lemma Forall_digit_facts (P : char -> Prop) (ds : pystr) :
  (forall c, ascii_digit c = true -> P c) ->
  Forall (fun c => ascii_digit c = true) ds -> Forall P ds.
Proof. intros H F. eapply Forall_impl; [|exact F]. exact H. Qed.

(** [float] of the digits of a number, with or without a minus sign. *)
Lemma py_float_digits (neg : bool) (ds : pystr) :
  ds <> [] -> Forall (fun c => ascii_digit c = true) ds ->
  py_float (minus neg ds) = Ok (of_decimal neg (digits_value ds 0) 0).
Proof.
  intros N F.
  assert (G : forall (P : char -> Prop),
             (forall c, ascii_digit c = true -> P c) -> P 0x2D ->
             Forall P (minus neg ds)).
  { intros P Hd Hm. destruct neg; simpl; [constructor; [exact Hm|]|];
      apply (Forall_digit_facts P ds Hd F). }
  unfold py_float.
  rewrite to_ascii_plain by (apply G; [intros c C; apply digit_facts, C | reflexivity]).
  rewrite lstrip_with_none
    by (apply G; [intros c C; apply digit_facts, C | reflexivity]).
  rewrite rstrip_with_none
    by (apply G; [intros c C; apply digit_facts, C | reflexivity]).
  rewrite has_underscore_none
    by (apply G; [intros c C; apply digit_facts, C | discriminate]).
  unfold parse_ascii, parse_decimal.
  assert (S : take_sign (minus neg ds) = (neg, ds)).
  { destruct neg; simpl; [reflexivity|].
    destruct ds as [|c t]; [contradiction|].
    inversion F as [|? ? C T]; subst.
    apply take_sign_other; apply digit_facts, C. }
  rewrite S.
  rewrite <- (app_nil_r ds) at 1. rewrite take_digits_app by exact F.
  cbn [take_digits]. cbn [Nat.add].
  destruct ds as [|c t]; [contradiction|]. cbn [length Nat.add Nat.eqb].
  reflexivity.
Qed.

(** X7: an integer cell, a 64-bit integer of a numeric column, is
    coerced to the float nearest to the integer: the text [str] gives for
    it reads back as the number itself. *)
Theorem to_num_int (n : Z) :
  - 2 ^ 63 <= n < 2 ^ 64 -> to_num (CInt n) = of_int n.
Proof.
  intros _.
  assert (T : forall neg ds,
             ds <> [] -> Forall (fun c => ascii_digit c = true) ds ->
             to_num (CStr (minus neg ds)) = of_decimal neg (digits_value ds 0) 0).
  { intros neg ds N F.
    assert (G : forall (P : char -> Prop),
               (forall c, ascii_digit c = true -> P c) -> P 0x2D ->
               Forall P (minus neg ds)).
    { intros P Hd Hm. destruct neg; simpl; [constructor; [exact Hm|]|];
        apply (Forall_digit_facts P ds Hd F). }
    unfold to_num. cbn [isna str]. unfold strip.
    rewrite lstrip_with_none
      by (apply G; [intros c C; apply digit_facts, C | reflexivity]).
    rewrite rstrip_with_none
      by (apply G; [intros c C; apply digit_facts, C | reflexivity]).
    unfold replace, K.COMMA. rewrite replace_absent
      by (apply G; [intros c C; apply digit_facts, C | discriminate]).
    rewrite (py_float_digits neg ds N F).
    destruct neg, ds; try contradiction; reflexivity. }
  destruct n as [|p|p].
  - vm_compute. reflexivity.
  - destruct (str_int_pos (Zpos p)) as (ds & E & N & F & V); [lia|].
    pose proof (T false ds N F) as H. cbn [minus] in H.
    change (to_num (CInt (Z.pos p))) with (to_num (CStr (str_int (Z.pos p)))).
    rewrite E, H, V. reflexivity.
  - destruct (str_int_pos (Zpos p)) as (ds & E & N & F & V); [lia|].
    pose proof (T true ds N F) as H. cbn [minus] in H.
    change (to_num (CInt (Z.neg p)))
      with (to_num (CStr (0x2D :: str_int (Z.pos p)))).
    rewrite E, H, V. reflexivity.
Qed.

Lemma to_num_int_witness : to_num (CInt (-1234)) = of_int (-1234).
Proof. apply to_num_int. lia. Defined.

(** ** The bubbles of the map *)

Lemma abs_value_positive (v : float) :
  isnan (abs_value v) = false /\ ltb zero (abs_value v) = true.
Proof.
  destruct v as [[]|[]| |[] m e]; split; reflexivity.
Qed.

(** X8: every bubble has a size above zero: a missing or zero value is
    drawn with size 1.0, any other with its absolute value; so for a join
    that is not empty the greatest size is above zero and the reference
    size is [2.0 * max_size / 1600], never the fallback 1. *)
Theorem bubble_sizes (values : list float) (v : float) :
  values <> [] ->
  isnan (abs_value v) = false
  /\ ltb zero (abs_value v) = true
  /\ abs_value v = (if isnan v || SFeqb v zero then one else SFabs v)
  /\ ltb zero (max_size values) = true
  /\ sizeref values
     = SFdiv prec emax (SFmul prec emax (of_int 2) (max_size values))
             (of_int 1600).
Proof.
  intros N.
  split; [apply abs_value_positive|]. split; [apply abs_value_positive|].
  split; [destruct v as [[]|[]| |[] m e]; reflexivity|].
  assert (P : ltb zero (max_size values) = true).
  { unfold max_size.
    destruct (agg_max_spec (map abs_value values)) as [[A _]|(_ & I & _)].
    - destruct values as [|x t]; [contradiction|].
      specialize (A (abs_value x) (or_introl eq_refl)).
      destruct (abs_value_positive x) as [B _]. congruence.
    - apply in_map_iff in I as [x [<- _]]. apply abs_value_positive. }
  split; [exact P|]. unfold sizeref. rewrite P. reflexivity.
Qed.

Lemma bubble_sizes_witness :
  abs_value nan = one /\ sizeref [nan; S754_zero true] = of_decimal false 125 (-5).
Proof.
  destruct (bubble_sizes [nan; S754_zero true] nan) as (_ & _ & A & _ & B);
    [discriminate|].
  split; [exact A|]. rewrite B. vm_compute. reflexivity.
Defined.

(** ** The cards: latest value, previous value, change *)

Lemma tail_all {A : Type} (n : nat) (l : list A) :
  (length l <= n)%nat -> tail n l = l.
Proof.
  intros H. unfold tail. replace (length l - n)%nat with 0%nat by lia. reflexivity.
Qed.

Lemma tail_app {A : Type} (n : nat) (l t : list A) :
  length t = n -> tail n (l ++ t) = t.
Proof.
  intros H. unfold tail. rewrite length_app.
  replace (length l + length t - n)%nat with (length l) by lia.
  rewrite skipn_app, skipn_all, Nat.sub_diag. reflexivity.
Qed.

Lemma nth_error_end {A : Type} (l t : list A) (k : nat) :
  length t = k -> nth_error (l ++ t) (length (l ++ t) - k) = nth_error t 0.
Proof.
  intros H. rewrite length_app.
  replace (length l + length t - k)%nat with (length l + 0)%nat by lia.
  rewrite nth_error_app2 by lia.
  replace (length l + 0 - length l)%nat with 0%nat by lia. reflexivity.
Qed.

(** A list of two or more, split before its last two. *)
Lemma last_two {A : Type} (l : list A) :
  (2 <= length l)%nat -> exists p a b, l = p ++ [a; b].
Proof.
  intros H.
  destruct (exists_last (l := l)) as (q & b & ->); [destruct l; simpl in H; [lia|discriminate]|].
  rewrite length_app in H. simpl in H.
  destruct (exists_last (l := q)) as (p & a & ->); [destruct q; simpl in H; [lia|discriminate]|].
  exists p, a, b. rewrite <- app_assoc. reflexivity.
Qed.

(** X9: the two dashboards show the same latest value, and the same
    previous value for every series but one of a single row: there the
    first dashboard takes the only row for the previous one too, the
    second has none (NaN). *)
Theorem cards_agree (ts : list (Timestamp * float)) :
  Altair.latest_value ts = Plotly.latest_value ts
  /\ Altair.prev_value ts
     = (if (length ts =? 1)%nat then Altair.latest_value ts
        else Plotly.prev_value ts)
  /\ (if (length ts =? 1)%nat then Plotly.prev_value ts = nan
      else Altair.prev_value ts = Plotly.prev_value ts).
Proof.
  destruct ts as [|[d v] [|[d' v'] t]]; [repeat split; reflexivity ..|].
  destruct (last_two ((d, v) :: (d', v') :: t)) as (p & [da a] & [db b] & E);
    [simpl; lia|].
  rewrite E.
  assert (L : length (p ++ [(da, a); (db, b)]) = S (S (length p)))
    by (rewrite length_app; simpl; lia).
  assert (A1 : Altair.latest_value (p ++ [(da, a); (db, b)]) = b).
  { unfold Altair.latest_value.
    replace (p ++ [(da, a); (db, b)]) with ((p ++ [(da, a)]) ++ [(db, b)])
      by (rewrite <- app_assoc; reflexivity).
    rewrite tail_app by reflexivity. reflexivity. }
  assert (A2 : Altair.prev_value (p ++ [(da, a); (db, b)]) = a).
  { unfold Altair.prev_value. rewrite tail_app by reflexivity. reflexivity. }
  assert (P1 : Plotly.latest_value (p ++ [(da, a); (db, b)]) = b).
  { unfold Plotly.latest_value, Plotly.from_end.
    destruct (1 <=? length (p ++ [(da, a); (db, b)]))%nat eqn:T;
      [|apply Nat.leb_gt in T; lia].
    replace (p ++ [(da, a); (db, b)]) with ((p ++ [(da, a)]) ++ [(db, b)])
      by (rewrite <- app_assoc; reflexivity).
    rewrite nth_error_end by reflexivity. reflexivity. }
  assert (P2 : Plotly.prev_value (p ++ [(da, a); (db, b)]) = a).
  { unfold Plotly.prev_value, Plotly.from_end.
    destruct (2 <=? length (p ++ [(da, a); (db, b)]))%nat eqn:T;
      [|apply Nat.leb_gt in T; lia].
    rewrite nth_error_end by reflexivity. reflexivity. }
  rewrite A1, A2, P1, P2, L. repeat split.
Qed.

Lemma sub_self (v : float) :
  match v with
  | S754_zero _ | S754_finite _ _ _ => sub v v = zero
  | _ => sub v v = nan
  end.
Proof.
  destruct v as [[]|[]| |s m e]; try reflexivity.
  unfold sub, SFsub. rewrite Z.sub_diag. reflexivity.
Qed.

(** X10: for a series of one row and a population measure, the first
    dashboard shows the change "0" when the value is a number (its
    previous value is the row itself), and the second shows "-". *)
Theorem one_point_change (measure : pystr) (d : Timestamp) (s : bool)
    (m : positive) (e : Z) :
  mem measure [K.CUR_POP; K.PREV_POP] = true ->
  Altair.change measure [(d, S754_finite s m e)] = [0x30]
  /\ Plotly.change measure [(d, S754_finite s m e)] = HYPHEN.
Proof.
  intros M. unfold Altair.change, Plotly.change, change_card. rewrite M.
  split.
  - change (Altair.latest_value [(d, S754_finite s m e)]) with (S754_finite s m e).
    change (Altair.prev_value [(d, S754_finite s m e)]) with (S754_finite s m e).
    unfold delta. cbn [isnan negb andb].
    rewrite (sub_self (S754_finite s m e)). reflexivity.
  - reflexivity.
Qed.

Lemma one_point_change_witness :
  Altair.change K.CUR_POP [(MkTs 2024 3 1, of_int 1234)] = [0x30]
  /\ Plotly.change K.CUR_POP [(MkTs 2024 3 1, of_int 1234)] = HYPHEN.
Proof.
  apply (one_point_change K.CUR_POP (MkTs 2024 3 1) false 5427189394702336 (-42)).
  reflexivity.
Defined.

(** ** Sorting *)

Section SortFacts.
Context {Key : Type}.
Variable key_leb : Key -> Key -> bool.
Hypothesis key_leb_total : forall a b, key_leb a b = true \/ key_leb b a = true.
Hypothesis key_leb_trans :
  forall a b c, key_leb a b = true -> key_leb b c = true -> key_leb a c = true.

Lemma insert_sorted_sorted (k : Key) (l : list Key) :
  StronglySorted (fun a b => key_leb a b = true) l ->
  StronglySorted (fun a b => key_leb a b = true) (insert_sorted key_leb k l).
Proof.
  induction 1 as [|h t S IH F]; simpl.
  - constructor; constructor.
  - destruct (key_leb k h) eqn:E.
    + constructor; [constructor; assumption|].
      constructor; [exact E|].
      eapply Forall_impl; [|exact F]. intros x X. exact (key_leb_trans _ _ _ E X).
    + constructor; [exact IH|].
      apply Forall_forall. intros x I.
      apply (Permutation_in _ (insert_sorted_perm key_leb k t)) in I.
      destruct I as [<-|I].
      * destruct (key_leb_total k h); congruence.
      * rewrite Forall_forall in F. apply F, I.
Qed.

Lemma sort_keys_sorted (l : list Key) :
  StronglySorted (fun a b => key_leb a b = true) (sort_keys key_leb l).
Proof.
  induction l as [|h t IH]; simpl; [constructor|].
  apply insert_sorted_sorted, IH.
Qed.
End SortFacts.

(** A list in order is left as it is. *)
Lemma sort_keys_id {Key : Type} (key_leb : Key -> Key -> bool) (l : list Key) :
  StronglySorted (fun a b => key_leb a b = true) l -> sort_keys key_leb l = l.
Proof.
  induction 1 as [|h t S IH F]; simpl; [reflexivity|].
  rewrite IH. destruct t as [|x t]; [reflexivity|].
  simpl. inversion F as [|? ? X _]; subst. rewrite X. reflexivity.
Qed.

Lemma StronglySorted_impl {A : Type} (R Q : A -> A -> Prop) (l : list A) :
  (forall a b, In a l -> In b l -> R a b -> Q a b) ->
  StronglySorted R l -> StronglySorted Q l.
Proof.
  intros H S. induction S as [|h t S IH F]; constructor.
  - apply IH. intros a b Ia Ib. apply H; right; assumption.
  - rewrite Forall_forall in *. intros x I. apply H; [left; reflexivity | right; exact I | apply F, I].
Qed.

Lemma StronglySorted_map {A B : Type} (f : A -> B) (R : B -> B -> Prop) (l : list A) :
  StronglySorted (fun a b => R (f a) (f b)) l -> StronglySorted R (map f l).
Proof.
  induction 1 as [|h t S IH F]; simpl; constructor; [exact IH|].
  rewrite Forall_forall in *. intros y I.
  apply in_map_iff in I as [x [<- I]]. apply F, I.
Qed.

(** ** The order of dates *)

Lemma dates_leb_total (a b : Timestamp) :
  Dates.leb a b = true \/ Dates.leb b a = true.
Proof.
  destruct a as [y m d], b as [y' m' d']. unfold Dates.leb, Dates.compare.
  cbn [ts_year ts_month ts_day].
  rewrite (Z.compare_antisym y y'), (Z.compare_antisym m m'), (Z.compare_antisym d d').
  destruct (y ?= y'), (m ?= m'), (d ?= d'); simpl; auto.
Qed.

Lemma dates_leb_spec (a b : Timestamp) :
  Dates.leb a b = true <->
  ts_year a < ts_year b
  \/ (ts_year a = ts_year b
      /\ (ts_month a < ts_month b
          \/ (ts_month a = ts_month b /\ ts_day a <= ts_day b))).
Proof.
  destruct a as [y m d], b as [y' m' d']. unfold Dates.leb, Dates.compare.
  cbn [ts_year ts_month ts_day].
  destruct (Z.compare_spec y y'); destruct (Z.compare_spec m m');
    destruct (Z.compare_spec d d'); split; intros G; try discriminate;
    try reflexivity; lia.
Qed.

Lemma dates_leb_trans (a b c : Timestamp) :
  Dates.leb a b = true -> Dates.leb b c = true -> Dates.leb a c = true.
Proof. rewrite !dates_leb_spec. lia. Qed.

Lemma dates_lt (a b : Timestamp) :
  Dates.leb a b = true -> a <> b -> Dates.compare a b = Lt.
Proof.
  unfold Dates.leb. intros L N.
  destruct (Dates.compare a b) eqn:C; [|reflexivity|discriminate].
  apply dates_compare_eq in C. contradiction.
Qed.

Lemma dates_lt_leb (a b : Timestamp) :
  Dates.compare a b = Lt -> Dates.leb a b = true.
Proof. unfold Dates.leb. intros ->. reflexivity. Qed.

(** A list of distinct dates in the order of [Dates.leb] is strictly
    increasing. *)
Lemma sorted_distinct_dates (l : list Timestamp) :
  NoDup l -> StronglySorted (fun a b => Dates.leb a b = true) l ->
  StronglySorted (fun a b => Dates.compare a b = Lt) l.
Proof.
  intros N S. induction S as [|h t S IH F]; constructor.
  - apply IH. inversion N; assumption.
  - inversion N as [|? ? NI N']; subst.
    rewrite Forall_forall in *. intros x I. apply dates_lt; [apply F, I|].
    intros ->. contradiction.
Qed.

Lemma by_date_total (a b : Timestamp * float) :
  by_date a b = true \/ by_date b a = true.
Proof. apply dates_leb_total. Qed.

Lemma by_date_trans (a b c : Timestamp * float) :
  by_date a b = true -> by_date b c = true -> by_date a c = true.
Proof. apply dates_leb_trans. Qed.

(** ** The national series *)

Lemma mask_spec (measure sex : pystr) (start_d end_d : Timestamp) (r : row) :
  mask measure sex start_d end_d r = true <->
  r_measure r = measure /\ r_sex r = sex
  /\ Dates.leb start_d (r_date r) = true /\ Dates.leb (r_date r) end_d = true.
Proof.
  unfold mask. rewrite !andb_true_iff, !eqb_eq. tauto.
Qed.

Lemma group_values_map {A : Type} (f : A -> Timestamp) (g : A -> float)
    (d : Timestamp) (l : list A) :
  group_values Dates.eqb d (map (fun r => (f r, g r)) l)
  = map g (filter (fun r => Dates.eqb (f r) d) l).
Proof.
  unfold group_values. induction l as [|r t IH]; simpl; [reflexivity|].
  destruct (Dates.eqb (f r) d); simpl; rewrite IH; reflexivity.
Qed.

(** X11: the national series has one point for every month in the chosen
    period that has a row of the chosen measure and sex, and no other; the
    points are in the order of time, each month once, so that
    [sort_values("date")] leaves the series as it is; the value of a point
    is the sum of the values of these rows of its month, in row order. *)
Theorem national_series_chronological (df : list row) (measure sex : pystr)
    (start_d end_d : Timestamp) :
  let ts := national_series df measure sex start_d end_d in
  StronglySorted (fun a b => Dates.compare a b = Lt) (map fst ts)
  /\ sort_values_date ts = ts
  /\ forall d v,
       In (d, v) ts <->
       (exists r, In r df /\ r_measure r = measure /\ r_sex r = sex /\ r_date r = d)
       /\ Dates.leb start_d d = true /\ Dates.leb d end_d = true
       /\ v = agg_sum (map r_value
                (filter (fun r => Dates.eqb (r_date r) d)
                   (filter (mask measure sex start_d end_d) df))).
Proof.
  intros ts.
  assert (S : StronglySorted (fun a b => Dates.compare a b = Lt) (map fst ts)).
  { apply sorted_distinct_dates.
    - apply groupby_NoDup. exact dates_eqb_eq.
    - unfold ts, national_series, national_total. rewrite groupby_keys.
      apply sort_keys_sorted; [exact dates_leb_total | exact dates_leb_trans]. }
  split; [exact S|]. split.
  - apply sort_keys_id.
    assert (S' : StronglySorted (fun a b => Dates.leb a b = true) (map fst ts)).
    { eapply StronglySorted_impl; [|exact S]. intros a b _ _. apply dates_lt_leb. }
    clear S. induction ts as [|h t IH]; [constructor|].
    simpl in S'. inversion S' as [|? ? T F]; subst.
    constructor; [apply IH, T|].
    rewrite Forall_forall in *. intros x I. apply F, in_map, I.
  - intros d v. unfold ts, national_series, national_total.
    rewrite (groupby_In _ _ dates_eqb_eq), group_values_map, in_map_iff.
    split.
    + intros [[[d' x] [E I]] ->]. simpl in E. subst d'.
      apply in_map_iff in I as [r [E I]]. injection E as <- _.
      apply filter_In in I as [I M]. apply mask_spec in M as (A & B & C & D).
      repeat split; auto. exists r. auto.
    + intros [(r & I & A & B & <-) (C & D & ->)]. split; [|reflexivity].
      exists (r_date r, r_value r). split; [reflexivity|].
      apply in_map_iff. exists r. split; [reflexivity|].
      apply filter_In. split; [exact I|]. apply mask_spec. auto.
Qed.

Lemma national_series_chronological_witness :
  In (MkTs 2024 3 1, of_int 1234)
     (national_series [one_row] K.POP_CHANGE K.TOTAL
        (MkTs 2024 1 1) (MkTs 2024 12 31)).
Proof.
  destruct (national_series_chronological [one_row] K.POP_CHANGE K.TOTAL
              (MkTs 2024 1 1) (MkTs 2024 12 31)) as (_ & _ & H).
  apply H. split; [exists one_row; repeat split; left; reflexivity|].
  repeat split.
Defined.

(** ** The series of a region *)

Lemma NoDup_map_filter {A B C : Type} (f : A -> B) (g : A -> C) (p : A -> bool)
    (l : list A) :
  NoDup (map f l) ->
  (forall a b, In a l -> In b l -> p a = true -> p b = true -> g a = g b ->
               f a = f b) ->
  NoDup (map g (filter p l)).
Proof.
  intros N H. induction l as [|h t IH]; simpl; [constructor|].
  simpl in N. inversion N as [|? ? NI N']; subst.
  assert (IH' : NoDup (map g (filter p t))).
  { apply IH; [exact N'|]. intros a b Ia Ib. apply H; right; assumption. }
  destruct (p h) eqn:P; [|exact IH'].
  simpl. constructor; [|exact IH'].
  rewrite in_map_iff. intros [b [E I]]. apply filter_In in I as [I Q].
  apply NI. rewrite <- (H b h (or_intror I) (or_introl eq_refl) Q P E).
  apply in_map, I.
Qed.

Lemma region_is_spec (region : pystr) (r : row) :
  region_is region r = true <-> r_region r = Some region.
Proof.
  unfold region_is. destruct (r_region r) as [a|].
  - rewrite eqb_eq. split; congruence.
  - split; discriminate.
Qed.

(** X12: in the long table the conversion built, a region has one row
    for each date, measure and sex; so the series of a region, put in order
    by [sort_values("date")], has its dates in the order of time, none
    twice, and its points are the rows of the table with the chosen
    region, measure and sex whose date is in the chosen period. *)
Theorem region_series_points (other : Dates.reader) (raw : frame)
    (rows : list row) (region measure sex : pystr) (start_d end_d : Timestamp) :
  normalize other raw = Ok rows ->
  let ts := region_series rows region measure sex start_d end_d in
  StronglySorted (fun a b => Dates.compare a b = Lt) (map fst ts)
  /\ forall d v,
       In (d, v) ts <->
       In (Row (Some region) d measure sex v) rows
       /\ Dates.leb start_d d = true /\ Dates.leb d end_d = true.
Proof.
  intros N ts.
  assert (K : NoDup (map out_key rows)).
  { unfold normalize in N.
    destruct (tidy_table other raw) as [tidy|e]; [|discriminate].
    simpl in N. injection N as <-. apply groupby_max_NoDup. }
  set (l := region_rows (filter (mask measure sex start_d end_d) rows) region).
  assert (P : Permutation ts l) by apply sort_keys_perm.
  assert (D : NoDup (map fst l)).
  { unfold l, region_rows. rewrite map_map. cbn [fst].
    apply NoDup_map_filter with (f := out_key).
    - apply NoDup_map_filter with (f := out_key); [exact K|]. intros; assumption.
    - intros a b Ia Ib Ra Rb E.
      apply filter_In in Ia as [_ Ma]. apply filter_In in Ib as [_ Mb].
      apply mask_spec in Ma as (A1 & A2 & _). apply mask_spec in Mb as (B1 & B2 & _).
      apply region_is_spec in Ra, Rb. unfold out_key. congruence. }
  split.
  - apply sorted_distinct_dates.
    + apply (Permutation_NoDup (l := map fst l)); [|exact D].
      apply Permutation_map. symmetry. exact P.
    + apply StronglySorted_map.
      apply (sort_keys_sorted by_date by_date_total by_date_trans).
  - intros d v. split.
    + intros I. apply (Permutation_in _ P) in I.
      apply in_map_iff in I as [r [E I]]. injection E as <- <-.
      apply filter_In in I as [I R]. apply filter_In in I as [I M].
      apply region_is_spec in R. apply mask_spec in M as (A & B & C & E).
      destruct r as [a d m s v]. simpl in *. subst. auto.
    + intros (I & A & B). apply (Permutation_in _ (Permutation_sym P)).
      apply in_map_iff. exists (Row (Some region) d measure sex v).
      split; [reflexivity|]. apply filter_In. split.
      * apply filter_In. split; [exact I|]. apply mask_spec. simpl. auto.
      * apply region_is_spec. reflexivity.
Qed.

Lemma region_series_points_witness :
  In (MkTs 2024 3 1, of_int 1234)
     (region_series [one_row] [0x41] K.POP_CHANGE K.TOTAL
        (MkTs 2024 1 1) (MkTs 2024 12 31)).
Proof.
  apply (region_series_points dateutil_2026 one_cell [one_row] [0x41]
           K.POP_CHANGE K.TOTAL
           (MkTs 2024 1 1) (MkTs 2024 12 31)).
  - vm_compute. reflexivity.
  - repeat split. left. reflexivity.
Defined.

(** ** The cards of a series in the order of time *)

Lemma sorted_before_last {A : Type} (R : A -> A -> Prop) (p : list A) (a b : A) :
  StronglySorted R (p ++ [a; b]) ->
  R a b /\ forall x, In x p -> R x a /\ R x b.
Proof.
  induction p as [|h t IH]; simpl; intros S.
  - inversion S as [|? ? _ F]; subst. inversion F; subst. split; [assumption|].
    intros x [].
  - inversion S as [|? ? T F]; subst. destruct (IH T) as [AB H].
    split; [exact AB|]. intros x [<-|I]; [|apply H, I].
    rewrite Forall_forall in F. split; apply F, in_or_app; right; simpl; auto.
Qed.

(** X13: of a series in the order of time, each month once, the cards
    show as the latest value that of the latest month, and as the previous
    value that of the latest month before it which the series has: the
    month before in the series, not in the calendar. *)
Theorem cards_of_months (ts : list (Timestamp * float)) :
  StronglySorted (fun a b => Dates.compare a b = Lt) (map fst ts) ->
  (2 <= length ts)%nat ->
  exists d d0,
    In (d, Altair.latest_value ts) ts
    /\ In (d0, Altair.prev_value ts) ts
    /\ In (d, Plotly.latest_value ts) ts
    /\ In (d0, Plotly.prev_value ts) ts
    /\ Dates.compare d0 d = Lt
    /\ forall d' v', In (d', v') ts ->
         d' = d \/ d' = d0 \/ Dates.compare d' d0 = Lt.
Proof.
  intros Srt L. destruct (last_two ts L) as (p & [da a] & [db b] & ->).
  assert (A1 : Altair.latest_value (p ++ [(da, a); (db, b)]) = b).
  { unfold Altair.latest_value.
    replace (p ++ [(da, a); (db, b)]) with ((p ++ [(da, a)]) ++ [(db, b)])
      by (rewrite <- app_assoc; reflexivity).
    rewrite tail_app by reflexivity. reflexivity. }
  assert (A2 : Altair.prev_value (p ++ [(da, a); (db, b)]) = a).
  { unfold Altair.prev_value. rewrite tail_app by reflexivity. reflexivity. }
  assert (N : length (p ++ [(da, a); (db, b)]) = S (S (length p)))
    by (rewrite length_app; simpl; lia).
  assert (P1 : Plotly.latest_value (p ++ [(da, a); (db, b)]) = b).
  { unfold Plotly.latest_value, Plotly.from_end.
    destruct (1 <=? length (p ++ [(da, a); (db, b)]))%nat eqn:T;
      [|apply Nat.leb_gt in T; lia].
    replace (p ++ [(da, a); (db, b)]) with ((p ++ [(da, a)]) ++ [(db, b)])
      by (rewrite <- app_assoc; reflexivity).
    rewrite nth_error_end by reflexivity. reflexivity. }
  assert (P2 : Plotly.prev_value (p ++ [(da, a); (db, b)]) = a).
  { unfold Plotly.prev_value, Plotly.from_end.
    destruct (2 <=? length (p ++ [(da, a); (db, b)]))%nat eqn:T;
      [|apply Nat.leb_gt in T; lia].
    rewrite nth_error_end by reflexivity. reflexivity. }
  rewrite A1, A2, P1, P2. rewrite map_app in Srt. simpl in Srt.
  apply sorted_before_last in Srt as [AB H].
  exists db, da. repeat split.
  - apply in_or_app. right. simpl. auto.
  - apply in_or_app. right. simpl. auto.
  - apply in_or_app. right. simpl. auto.
  - apply in_or_app. right. simpl. auto.
  - exact AB.
  - intros d' v' I. apply in_app_or in I as [I|[E|[E|[]]]].
    + right. right. apply (H d'). apply (in_map fst) in I. exact I.
    + right. left. congruence.
    + left. congruence.
Qed.

Lemma cards_of_months_witness :
  exists d d0,
    In (d, of_int 30) [(MkTs 2024 1 1, of_int 10); (MkTs 2024 2 1, of_int 20);
                       (MkTs 2024 4 1, of_int 30)]
    /\ In (d0, of_int 20) [(MkTs 2024 1 1, of_int 10); (MkTs 2024 2 1, of_int 20);
                           (MkTs 2024 4 1, of_int 30)]
    /\ Dates.compare d0 d = Lt.
Proof.
  destruct (cards_of_months
              [(MkTs 2024 1 1, of_int 10); (MkTs 2024 2 1, of_int 20);
               (MkTs 2024 4 1, of_int 30)]) as (d & d0 & A & B & _ & _ & C & _).
  - repeat constructor.
  - simpl. lia.
  - exists d, d0. repeat split; assumption.
Defined.

(** ** Figures as text and back *)

Lemma startswith_nil (s : pystr) : startswith s [] = true.
Proof. destruct s; reflexivity. Qed.

(** [s.replace(c, "")] removes every [c]. *)
Lemma replace_char_all (old : char) (s : pystr) : forall count,
  (length s <= count)%nat ->
  replace_go [old] [] count 0 s = filter (fun c => negb (c =? old)) s.
Proof.
  induction s as [|c t IH]; intros count L; [reflexivity|].
  destruct count as [|n]; [simpl in L; lia|].
  cbn [replace_go filter]. cbn [startswith]. rewrite startswith_nil, andb_true_r.
  simpl in L. destruct (c =? old); cbn [negb app length Nat.sub].
  - apply IH. lia.
  - f_equal. apply IH. lia.
Qed.

Lemma group_go_digits (ds : pystr) : forall k,
  Forall (fun c => ascii_digit c = true) ds ->
  filter (fun c => negb (c =? 0x2C)) (group_go k ds) = ds.
Proof.
  induction ds as [|d t IH]; intros k F; [reflexivity|].
  inversion F as [|? ? D T]; subst.
  assert (N : (d =? 0x2C) = false) by (apply Z.eqb_neq, digit_facts, D).
  destruct k as [|k]; cbn [group_go filter]; rewrite ?N; cbn [Z.eqb negb Pos.eqb];
    rewrite ?N; cbn [negb]; rewrite IH by exact T; reflexivity.
Qed.

Lemma group_go_Forall (P : char -> Prop) (ds : pystr) : forall k,
  P 0x2C -> Forall P ds -> Forall P (group_go k ds).
Proof.
  induction ds as [|d t IH]; intros k C F; [constructor|].
  inversion F as [|? ? D T]; subst.
  destruct k as [|k]; cbn [group_go]; repeat constructor; auto.
Qed.

Lemma py_float_plus (ds : pystr) :
  ds <> [] -> Forall (fun c => ascii_digit c = true) ds ->
  py_float (0x2B :: ds) = Ok (of_decimal false (digits_value ds 0) 0).
Proof.
  intros N F.
  assert (G : forall (P : char -> Prop),
             (forall c, ascii_digit c = true -> P c) -> P 0x2B ->
             Forall P (0x2B :: ds)).
  { intros P Hd Hp. constructor; [exact Hp|]. apply (Forall_digit_facts P ds Hd F). }
  unfold py_float.
  rewrite to_ascii_plain by (apply G; [intros c C; apply digit_facts, C | reflexivity]).
  rewrite lstrip_with_none
    by (apply G; [intros c C; apply digit_facts, C | reflexivity]).
  rewrite rstrip_with_none
    by (apply G; [intros c C; apply digit_facts, C | reflexivity]).
  rewrite has_underscore_none
    by (apply G; [intros c C; apply digit_facts, C | discriminate]).
  unfold parse_ascii, parse_decimal.
  change (take_sign (0x2B :: ds)) with (false, ds).
  rewrite <- (app_nil_r ds) at 1. rewrite take_digits_app by exact F.
  cbn [take_digits]. cbn [Nat.add].
  destruct ds as [|c t]; [contradiction|]. cbn [length Nat.add Nat.eqb].
  reflexivity.
Qed.

(** Grouped digits, with a sign or without, are read as the number. *)
Lemma to_num_grouped (sign : pystr) (neg : bool) (ds : pystr) (k : nat) :
  ds <> [] -> Forall (fun c => ascii_digit c = true) ds ->
  (sign = [] /\ neg = false) \/ (sign = [0x2D] /\ neg = true)
  \/ (sign = [0x2B] /\ neg = false) ->
  to_num (CStr (sign ++ group_go k ds)) = of_decimal neg (digits_value ds 0) 0.
Proof.
  intros N F S.
  assert (G : forall (P : char -> Prop),
             (forall c, ascii_digit c = true -> P c) ->
             P 0x2C -> P 0x2D -> P 0x2B -> Forall P (sign ++ group_go k ds)).
  { intros P Hd Hc Hm Hp. apply Forall_app. split.
    - destruct S as [[-> _]|[[-> _]|[-> _]]]; repeat constructor; assumption.
    - apply group_go_Forall; [exact Hc|]. apply (Forall_digit_facts P ds Hd F). }
  unfold to_num. cbn [isna str]. unfold strip.
  rewrite lstrip_with_none
    by (apply G; [intros c C; apply digit_facts, C | reflexivity ..]).
  rewrite rstrip_with_none
    by (apply G; [intros c C; apply digit_facts, C | reflexivity ..]).
  unfold replace, K.COMMA. rewrite replace_char_all by lia.
  rewrite filter_app, group_go_digits by exact F.
  destruct S as [[-> ->]|[[-> ->]|[-> ->]]]; cbn [filter Z.eqb Pos.eqb negb app].
  - pose proof (py_float_digits false ds N F) as H. cbn [minus] in H.
    destruct ds as [|c t]; [contradiction|]. cbn [PyStr.eqb].
    exact (f_equal (fun r => try_except r nan) H).
  - pose proof (py_float_digits true ds N F) as H. cbn [minus] in H.
    cbn [PyStr.eqb]. exact (f_equal (fun r => try_except r nan) H).
  - pose proof (py_float_plus ds N F) as H.
    cbn [PyStr.eqb]. exact (f_equal (fun r => try_except r nan) H).
Qed.

Lemma to_num_format_comma (sign : pystr) (n : Z) :
  sign = [] \/ (sign = [0x2B] /\ 0 < n) ->
  to_num (CStr (sign ++ format_comma n)) = of_int n.
Proof.
  intros S. destruct n as [|p|p].
  - destruct S as [->|[_ P]]; [|lia]. vm_compute. reflexivity.
  - destruct (str_int_pos (Zpos p)) as (ds & E & N & F & V); [lia|].
    unfold format_comma. change (Z.abs (Z.pos p)) with (Z.pos p).
    change (Z.pos p <? 0) with false. cbn [minus]. rewrite E.
    refine (eq_trans (to_num_grouped sign false ds _ N F _) _).
    + destruct S as [->|[-> _]]; auto.
    + rewrite V. reflexivity.
  - destruct (str_int_pos (Zpos p)) as (ds & E & N & F & V); [lia|].
    destruct S as [->|[_ P]]; [|lia].
    unfold format_comma. change (Z.abs (Z.neg p)) with (Z.pos p).
    change (Z.neg p <? 0) with true. cbn [minus app]. rewrite E.
    refine (eq_trans (to_num_grouped [0x2D] true ds _ N F _) _).
    + auto.
    + rewrite V. reflexivity.
Qed.

(** X14: the text a card shows reads back, by [to_num], as the number
    that was shown: the value rounded to an integer, whatever its size and
    its grouping commas and with the plus sign of a change; "-" for a
    missing value reads back as missing, and an infinity as itself. *)
Theorem figures_read_back (x : float) :
  to_num (CStr (fmt_int x))
  = match round_half_even x with
    | Some n => of_int n
    | None => x
    end
  /\ to_num (CStr (fmt_signed_int x))
     = match round_half_even x with
       | Some n => of_int n
       | None => x
       end.
Proof.
  destruct x as [s|s| |s m e].
  - destruct s; split; vm_compute; reflexivity.
  - destruct s; split; vm_compute; reflexivity.
  - split; vm_compute; reflexivity.
  - unfold fmt_int, fmt_signed_int. cbn [isnan].
    destruct (round_half_even (S754_finite s m e)) as [n|] eqn:R;
      [|discriminate].
    split.
    + apply (to_num_format_comma [] n). auto.
    + destruct (0 <? n) eqn:P.
      * apply (to_num_format_comma [0x2B] n). right. split; [reflexivity|lia].
      * apply (to_num_format_comma [] n). auto.
Qed.

(** ** The numeric coercion, in the words of the spec *)

Lemma rstrip_with_app_spaces (sp : char -> bool) (t b : pystr) :
  forallb sp b = true -> rstrip_with sp (t ++ b) = rstrip_with sp t.
Proof.
  intros B. induction t as [|c t IH]; simpl.
  - induction b as [|d b IHb]; simpl; [reflexivity|].
    simpl in B. apply andb_true_iff in B as [D B].
    rewrite (IHb B), D. reflexivity.
  - rewrite IH. reflexivity.
Qed.

Lemma rstrip_with_last_keep (sp : char -> bool) (t : pystr) :
  (forall r c, t = r ++ [c] -> sp c = false) -> rstrip_with sp t = t.
Proof.
  induction t as [|x t IH]; intros H; [reflexivity|].
  destruct t as [|y t].
  - simpl. rewrite (H [] x eq_refl). reflexivity.
  - assert (E : rstrip_with sp (y :: t) = y :: t).
    { apply IH. intros r c E. apply (H (x :: r) c). rewrite E. reflexivity. }
    change (rstrip_with sp (x :: y :: t))
      with (match rstrip_with sp (y :: t) with
            | [] => if sp x then [] else [x]
            | r => x :: r
            end).
    rewrite E. reflexivity.
Qed.

(** The trimmed form of a text is what [strip] returns. *)
Lemma trimmed_strip (s t : pystr) : trimmed s t -> strip s = t.
Proof.
  intros (a & b & -> & A & B & H & L). unfold strip.
  rewrite lstrip_with_spaces by exact A.
  destruct t as [|c r].
  - simpl. rewrite <- (app_nil_r b) at 1.
    rewrite lstrip_with_spaces by exact B. reflexivity.
  - cbn [app lstrip_with]. rewrite (H c r eq_refl).
    change (c :: r ++ b) with ((c :: r) ++ b).
    rewrite rstrip_with_app_spaces by exact B.
    apply rstrip_with_last_keep. exact L.
Qed.

(** C5: the coercion is a function from cells to floats, so it returns on
    every cell and raises on none.  A missing cell gives NaN.  Of any other
    cell the text is trimmed and every comma is taken out of it: when
    nothing is left the result is NaN; when [float] reads what is left the
    result is that number; when [float] raises the result is NaN.  What is
    left being the digits of an integer, with a minus sign or without, the
    result is the float nearest to that integer. *)
Theorem to_num_spec (x : cell) :
  (isna x = true -> to_num x = nan)
  /\ (forall t, isna x = false -> trimmed (str x) t ->
        let s := filter (fun c => negb (c =? 0x2C)) t in
        (s = [] -> to_num x = nan)
        /\ (forall f, py_float s = Ok f -> to_num x = f)
        /\ (forall e, py_float s = Raise e -> to_num x = nan)
        /\ (forall neg ds,
              s = minus neg ds -> ds <> [] ->
              Forall (fun c => ascii_digit c = true) ds ->
              to_num x = of_decimal neg (digits_value ds 0) 0)).
Proof.
  split.
  - intros N. unfold to_num. rewrite N. reflexivity.
  - intros t N T s. apply trimmed_strip in T.
    assert (E : to_num x
                = if PyStr.eqb s [] then nan else try_except (py_float s) nan).
    { unfold to_num. rewrite N, T. unfold replace, K.COMMA.
      rewrite replace_char_all by lia. reflexivity. }
    rewrite E. clearbody s. clear E.
    repeat split.
    + intros ->. reflexivity.
    + intros f F. destruct s as [|c r]; [discriminate F|].
      cbn [PyStr.eqb]. rewrite F. reflexivity.
    + intros e F. destruct (PyStr.eqb s []); [reflexivity|].
      rewrite F. reflexivity.
    + intros neg ds -> D F.
      pose proof (py_float_digits neg ds D F) as P.
      destruct neg, ds as [|d ds]; try contradiction; cbn [minus PyStr.eqb] in *;
        exact (f_equal (fun r => try_except r nan) P).
Qed.

Lemma to_num_spec_witness :
  to_num (CStr ([0x20] ++ text_1_234 ++ [0x0A])) = of_int 1234.
Proof.
  destruct (to_num_spec (CStr ([0x20] ++ text_1_234 ++ [0x0A]))) as [_ H].
  destruct (H text_1_234) as (_ & _ & _ & D).
  - reflexivity.
  - exists [0x20], [0x0A]. repeat split.
    + intros c r E. injection E as <- _. reflexivity.
    + intros r c E. apply (f_equal (@rev char)) in E.
      rewrite rev_app_distr in E. injection E as <- _. reflexivity.
  - apply (D false [0x31; 0x32; 0x33; 0x34]).
    + reflexivity.
    + discriminate.
    + repeat constructor.
Defined.

(** ** The columns of the centroid file *)

Section AliasFacts.
Import Aliases.

Ltac alias_in I :=
  repeat (destruct I as [E|I]; [rewrite <- E; reflexivity|]); destruct I.

Lemma rename_lat (c : pystr) : In (strip c) LAT -> rename c = lat.
Proof. intros I. unfold rename. unfold LAT in I. alias_in I. Qed.

Lemma rename_lon (c : pystr) : In (strip c) LON -> rename c = lon.
Proof. intros I. unfold rename. unfold LON in I. alias_in I. Qed.

Lemma rename_region (c : pystr) : In (strip c) REGION -> rename c = region.
Proof. intros I. unfold rename. unfold REGION in I. alias_in I. Qed.

Lemma rename_sido (c : pystr) : In (strip c) SIDO -> rename c = sido.
Proof. intros I. unfold rename. unfold SIDO in I. alias_in I. Qed.

Lemma rename_sigungu (c : pystr) : In (strip c) SIGUNGU -> rename c = sigungu.
Proof. intros I. unfold rename. unfold SIGUNGU in I. alias_in I. Qed.

(** The alias lists have no name in common, so the order of the tests of
    the loop does not matter: a column gets the name of the one list that
    has its stripped name, and keeps its own when none has. *)
Lemma rename_cases (c : pystr) :
  (In (strip c) LAT /\ rename c = lat)
  \/ (In (strip c) LON /\ rename c = lon)
  \/ (In (strip c) REGION /\ rename c = region)
  \/ (In (strip c) SIDO /\ rename c = sido)
  \/ (In (strip c) SIGUNGU /\ rename c = sigungu)
  \/ (~ In (strip c) (LAT ++ LON ++ REGION ++ SIDO ++ SIGUNGU) /\ rename c = c).
Proof.
  destruct (mem (strip c) LAT) eqn:A.
  { apply mem_In in A. left. split; [exact A | apply rename_lat, A]. }
  destruct (mem (strip c) LON) eqn:B.
  { apply mem_In in B. right. left. split; [exact B | apply rename_lon, B]. }
  destruct (mem (strip c) REGION) eqn:C.
  { apply mem_In in C. do 2 right. left. split; [exact C | apply rename_region, C]. }
  destruct (mem (strip c) SIDO) eqn:D.
  { apply mem_In in D. do 3 right. left. split; [exact D | apply rename_sido, D]. }
  destruct (mem (strip c) SIGUNGU) eqn:E.
  { apply mem_In in E. do 4 right. left. split; [exact E | apply rename_sigungu, E]. }
  do 5 right. split.
  - rewrite !in_app_iff, <- !mem_In. rewrite A, B, C, D, E.
    intros [X|[X|[X|[X|X]]]]; discriminate.
  - unfold rename. rewrite A, B, C, D, E. reflexivity.
Qed.

Lemma rename_idem (c : pystr) : rename (rename c) = rename c.
Proof.
  destruct (rename_cases c) as [[_ E]|[[_ E]|[[_ E]|[[_ E]|[[_ E]|[_ E]]]]]];
    rewrite E; try reflexivity. exact E.
Qed.

Ltac other_name E H :=
  rewrite E in H; vm_compute in H; congruence.

Lemma rename_is_lat (c : pystr) : rename c = lat <-> In (strip c) LAT.
Proof.
  split; [|apply rename_lat]. intros H.
  destruct (rename_cases c) as [[I _]|[[_ E]|[[_ E]|[[_ E]|[[_ E]|[N E]]]]]];
    [exact I | other_name E H ..|].
  rewrite E in H. subst c. exfalso. apply N. vm_compute. auto.
Qed.

Lemma rename_is_lon (c : pystr) : rename c = lon <-> In (strip c) LON.
Proof.
  split; [|apply rename_lon]. intros H.
  destruct (rename_cases c) as [[_ E]|[[I _]|[[_ E]|[[_ E]|[[_ E]|[N E]]]]]];
    [other_name E H | exact I | other_name E H ..|].
  rewrite E in H. subst c. exfalso. apply N. vm_compute. auto 10.
Qed.

Lemma rename_is_region (c : pystr) :
  rename c = region <-> In (strip c) REGION \/ c = region.
Proof.
  split.
  - intros H.
    destruct (rename_cases c) as [[_ E]|[[_ E]|[[I _]|[[_ E]|[[_ E]|[N E]]]]]];
      [other_name E H | other_name E H | left; exact I | other_name E H ..|].
    right. congruence.
  - intros [I | ->]; [apply rename_region, I | reflexivity].
Qed.

Lemma rename_is_sido (c : pystr) :
  rename c = sido <-> In (strip c) SIDO \/ c = sido.
Proof.
  split.
  - intros H.
    destruct (rename_cases c) as [[_ E]|[[_ E]|[[_ E]|[[I _]|[[_ E]|[N E]]]]]];
      [other_name E H | other_name E H | other_name E H | left; exact I
      | other_name E H |].
    right. congruence.
  - intros [I | ->]; [apply rename_sido, I | reflexivity].
Qed.

Lemma mem_renamed (x : pystr) (cols : list pystr) :
  mem x (map rename cols) = true <-> exists c, In c cols /\ rename c = x.
Proof.
  rewrite mem_In, in_map_iff. split; intros [c [A B]]; exists c; auto.
Qed.

Lemma mem_app (x : pystr) (l l' : list pystr) :
  mem x (l ++ l') = mem x l || mem x l'.
Proof. apply existsb_app. Qed.

(** X15: a centroid file, its columns distinct after the renaming,
    passes the checks of [load_centroids] only when a column is a latitude
    alias, one a longitude alias, and one a region or 시도 alias or is
    named "region" or "sido" itself; the columns "region", "lat" and "lon"
    that the function selects at its end are then all there, and the
    renamed columns pass the checks again unchanged. *)
Theorem centroid_columns_accepted (cols cols' : list pystr) :
  NoDup (map rename cols) ->
  checked_columns cols = Ok cols' ->
  In region cols' /\ In lat cols' /\ In lon cols'
  /\ (exists c, In c cols /\ In (strip c) LAT)
  /\ (exists c, In c cols /\ In (strip c) LON)
  /\ (exists c, In c cols
        /\ (In (strip c) REGION \/ c = region \/ In (strip c) SIDO \/ c = sido))
  /\ checked_columns cols' = Ok cols'.
Proof.
  intros _ H. unfold checked_columns in H.
  set (R := map rename cols) in *.
  assert (G : exists extra,
             cols' = R ++ extra /\ (extra = [] \/ extra = [region])
             /\ mem region cols' = true /\ mem lat cols' = true
             /\ mem lon cols' = true
             /\ (mem region R = true \/ mem sido R = true)).
  { destruct (mem region R) eqn:A; cbn [negb bind] in H.
    - destruct (mem lat R) eqn:B; [|discriminate].
      destruct (mem lon R) eqn:C; [|discriminate].
      injection H as <-. exists []. rewrite app_nil_r. auto 10.
    - assert (S : mem sido R = true).
      { destruct (mem sido R); [reflexivity|].
        rewrite andb_false_l in H. discriminate. }
      rewrite S in H.
      assert (H' : (if negb (mem lat (R ++ [region]))
                       || negb (mem lon (R ++ [region]))
                    then Raise (ValueError NEED_LAT_LON)
                    else Ok (R ++ [region])) = Ok cols').
      { destruct (mem sigungu R); exact H. }
      clear H.
      destruct (mem lat (R ++ [region])) eqn:B; [|discriminate].
      destruct (mem lon (R ++ [region])) eqn:C; [|discriminate].
      injection H' as <-. exists [region]. rewrite mem_app.
      repeat split; auto. apply orb_true_r. }
  destruct G as (extra & E & X & A & B & C & D).
  assert (BR : mem lat R = true).
  { rewrite E, mem_app in B. destruct X as [-> | ->];
      apply orb_true_iff in B as [B|B]; auto; discriminate. }
  assert (CR : mem lon R = true).
  { rewrite E, mem_app in C. destruct X as [-> | ->];
      apply orb_true_iff in C as [C|C]; auto; discriminate. }
  repeat split; try (apply mem_In; assumption).
  - apply mem_renamed in BR as [c [I Q]]. exists c. split; [exact I|].
    apply rename_is_lat, Q.
  - apply mem_renamed in CR as [c [I Q]]. exists c. split; [exact I|].
    apply rename_is_lon, Q.
  - destruct D as [D|D]; apply mem_renamed in D as [c [I Q]]; exists c;
      (split; [exact I|]).
    + apply rename_is_region in Q. tauto.
    + apply rename_is_sido in Q. tauto.
  - assert (F : map rename cols' = cols').
    { rewrite E, map_app. unfold R. rewrite map_map.
      rewrite (map_ext _ rename rename_idem).
      destruct X as [-> | ->]; reflexivity. }
    unfold checked_columns. rewrite F, A. cbn [negb bind].
    rewrite B, C. reflexivity.
Qed.

(** X16: the region is checked first: a file in which no column is a
    region or 시도 alias, or named "region" or "sido", is refused for its
    missing region, whatever its other columns, and no other file is. *)
Theorem centroid_region_first (cols : list pystr) :
  checked_columns cols = Raise (ValueError NEED_REGION) <->
  forall c, In c cols ->
    ~ In (strip c) REGION /\ c <> region /\ ~ In (strip c) SIDO /\ c <> sido.
Proof.
  unfold checked_columns. set (R := map rename cols).
  split.
  - intros H.
    destruct (mem region R) eqn:A; cbn [negb bind] in H.
    { destruct (negb (mem lat R) || negb (mem lon R)); [|discriminate].
      vm_compute in H. congruence. }
    destruct (mem sido R) eqn:S.
    { assert (H' : (if negb (mem lat (R ++ [region]))
                       || negb (mem lon (R ++ [region]))
                    then Raise (ValueError NEED_LAT_LON)
                    else Ok (R ++ [region]))
                   = (Raise (ValueError NEED_REGION) : result (list pystr))).
      { destruct (mem sigungu R); exact H. }
      destruct (negb (mem lat (R ++ [region])) || negb (mem lon (R ++ [region])));
        [|discriminate].
      vm_compute in H'. congruence. }
    intros c I.
    assert (NR : rename c <> region).
    { intros Q. assert (mem region R = true); [|congruence].
      apply mem_renamed. exists c. auto. }
    assert (NS : rename c <> sido).
    { intros Q. assert (mem sido R = true); [|congruence].
      apply mem_renamed. exists c. auto. }
    rewrite rename_is_region in NR. rewrite rename_is_sido in NS. tauto.
  - intros H.
    assert (A : mem region R = false).
    { destruct (mem region R) eqn:A; [|reflexivity].
      apply mem_renamed in A as [c [I Q]]. apply rename_is_region in Q.
      specialize (H c I). tauto. }
    assert (S : mem sido R = false).
    { destruct (mem sido R) eqn:S; [|reflexivity].
      apply mem_renamed in S as [c [I Q]]. apply rename_is_sido in Q.
      specialize (H c I). tauto. }
    rewrite A, S. reflexivity.
Qed.
End AliasFacts.

Lemma centroid_columns_accepted_witness :
  Aliases.checked_columns
    [Aliases.sido; Aliases.lat; Aliases.lon; Aliases.region]
  = Ok [Aliases.sido; Aliases.lat; Aliases.lon; Aliases.region].
Proof.
  apply (centroid_columns_accepted
           [[0xC2DC; 0xB3C4]; [0xC704; 0xB3C4]; [0x20; 0x6C; 0x6F; 0x6E; 0x20]]).
  - vm_compute. repeat (constructor; [simpl; intuition congruence|]). constructor.
  - vm_compute. reflexivity.
Defined.

Lemma centroid_region_first_witness :
  Aliases.checked_columns
    [[0x20; 0x72; 0x65; 0x67; 0x69; 0x6F; 0x6E; 0x20]; Aliases.lat; Aliases.lon]
  = Raise (ValueError Aliases.NEED_REGION).
Proof.
  apply centroid_region_first.
  intros c [<-|[<-|[<-|[]]]]; vm_compute; intuition congruence.
Defined.

(** ** The cells of the ranking tables *)

(** X17: the ranking tables cut the fraction of a value off where the
    cards round it: the two integers have one sign and the card's is the
    same or one further from zero; and for an infinite value, which the
    cards show as "inf", the ranking has no text: [int] raises there. *)
Theorem rank_cell_figures (x : float) :
  (rank_cell x = None <-> exists s, x = S754_infinity s)
  /\ forall t, int_of_float x = Some t ->
       rank_cell x = Some (format_comma t)
       /\ exists n, round_half_even x = Some n
            /\ fmt_int x = format_comma n
            /\ 0 <= t * n
            /\ Z.abs t <= Z.abs n <= Z.abs t + 1.
Proof.
  split.
  - destruct x as [s|s| |s m e]; split; try discriminate;
      try (intros [s' E]; discriminate E).
    + intros _. exists s. reflexivity.
    + reflexivity.
  - intros t T. destruct x as [s|s| |s m e]; try discriminate.
    + injection T as <-. split; [reflexivity|]. exists 0.
      repeat split; try reflexivity; lia.
    + unfold rank_cell. cbn [isnan]. rewrite T. split; [reflexivity|].
      unfold fmt_int. cbn [isnan].
      unfold int_of_float in T. unfold round_half_even.
      destruct e as [|k|k].
      * set (z := Z.pos m * 2 ^ 0) in *.
        assert (E : t = if s then - z else z) by congruence.
        eexists. split; [reflexivity|]. split; [reflexivity|].
        rewrite E. destruct s; split; try nia; lia.
      * set (z := Z.pos m * 2 ^ Z.pos k) in *.
        assert (E : t = if s then - z else z) by congruence.
        eexists. split; [reflexivity|]. split; [reflexivity|].
        rewrite E. destruct s; split; try nia; lia.
      * assert (Q : 0 <= Z.pos m / Z.pos (2 ^ k)) by (apply Z.div_pos; lia).
        set (q := Z.pos m / Z.pos (2 ^ k)) in *.
        assert (E : t = if s then - q else q) by congruence.
        eexists. split; [reflexivity|]. split; [reflexivity|].
        rewrite E.
        destruct (2 * (Z.pos m mod Z.pos (2 ^ k)) ?= Z.pos (2 ^ k));
          try destruct (Z.even q); destruct s; split; try nia; lia.
Qed.

Lemma rank_cell_figures_witness :
  rank_cell (of_decimal true 27 (-1)) = Some [0x2D; 0x32]
  /\ fmt_int (of_decimal true 27 (-1)) = [0x2D; 0x33].
Proof.
  destruct (rank_cell_figures (of_decimal true 27 (-1))) as [_ H].
  destruct (H (-2)) as (A & n & B & C & _); [vm_compute; reflexivity|].
  split; [exact A|]. rewrite C.
  assert (E : n = -3) by (vm_compute in B; congruence).
  rewrite E. reflexivity.
Defined.

(** ** The months of the selector *)

Lemma period_text_chars (d : Timestamp) :
  Dates.in_bounds d = true -> 1 <= ts_month d <= 12 ->
  exists a b c e f g,
    period_text d = [a; b; c; e; 0x2D; f; g]
    /\ 0x30 <= a <= 0x39 /\ 0x30 <= b <= 0x39 /\ 0x30 <= c <= 0x39
    /\ 0x30 <= e <= 0x39 /\ 0x30 <= f <= 0x39 /\ 0x30 <= g <= 0x39
    /\ ts_year d
       = 1000 * (a - 0x30) + 100 * (b - 0x30) + 10 * (c - 0x30) + (e - 0x30)
    /\ ts_month d = 10 * (f - 0x30) + (g - 0x30).
Proof.
  intros B M. apply in_bounds_year in B.
  pose proof (year_text (ts_year d)) as Y.
  destruct (month_text (ts_month d)) as (f & g & F & G); [lia|].
  unfold period_text. rewrite F.
  destruct (str_int (ts_year d)) as [|a [|b [|c [|e [|x l]]]]];
    try (specialize (Y ltac:(lia)); lia).
  destruct Y as (_ & H & L); [lia|].
  apply two_digits in H as (A1 & A2 & H), L as (A3 & A4 & L), G as (A5 & A6 & G).
  exists a, b, c, e, f, g. repeat split; try lia.
  pose proof (Z.div_mod (ts_year d) 100). lia.
Qed.

(** X18: the text "YYYY-MM" of a month orders as the month does: for two
    dates of the table, the order of the texts, character by character, is
    the order of year and month; so the sorted list of the selector is in
    the order of time and its last entry, the default, is the latest
    month. *)
Theorem period_text_order (a b : Timestamp) :
  Dates.in_bounds a = true -> Dates.in_bounds b = true ->
  1 <= ts_month a <= 12 -> 1 <= ts_month b <= 12 ->
  str_compare (period_text a) (period_text b)
  = lex (ts_year a ?= ts_year b) (ts_month a ?= ts_month b).
Proof.
  intros Ba Bb Ma Mb.
  destruct (period_text_chars a Ba Ma)
    as (a1 & a2 & a3 & a4 & a5 & a6 & -> & A1 & A2 & A3 & A4 & A5 & A6 & -> & ->).
  destruct (period_text_chars b Bb Mb)
    as (b1 & b2 & b3 & b4 & b5 & b6 & -> & B1 & B2 & B3 & B4 & B5 & B6 & -> & ->).
  cbn [str_compare]. unfold lex.
  repeat match goal with
         | |- context [?x ?= ?y] => destruct (Z.compare_spec x y)
         end; try reflexivity; try lia.
Qed.

Lemma period_text_order_witness :
  str_compare (period_text (MkTs 2023 12 1)) (period_text (MkTs 2024 1 1)) = Lt.
Proof.
  rewrite period_text_order;
    [reflexivity | reflexivity | reflexivity | cbn; lia | cbn; lia].
Defined.

(** ** Years below 1000 *)

(** X19: in a table whose matched headers all have a year from 1000 on,
    every date of the long table is the first day of its month, whatever
    the library does with date text of another shape. *)
Theorem normalize_first_of_month (other : Dates.reader) (raw : frame)
    (rows : list row) :
  (forall c y m me sx,
      In c (columns raw) -> Header.parse c = Some (y, m, me, sx) -> 1000 <= y) ->
  normalize other raw = Ok rows ->
  forall r, In r rows -> ts_day (r_date r) = 1.
Proof.
  intros Hy. rewrite (normalize_years other raw Hy).
  apply normalize_iso_only_day.
Qed.

Lemma normalize_first_of_month_witness : ts_day (r_date one_row) = 1.
Proof.
  apply (normalize_first_of_month dateutil_2026 one_cell [one_row]).
  - intros c y m me sx [<-|[<-|[]]] P; [discriminate P|].
    injection P as <- _ _ _. lia.
  - vm_compute. reflexivity.
  - left. reflexivity.
Defined.

Lemma convertyear_1 (this_year : Z) :
  2000 <= this_year <= 2051 -> Dateutil.convertyear this_year 1 false = 2001.
Proof.
  intros R. unfold Dateutil.convertyear. cbn [andb negb].
  change (1 <? 100) with true. cbv iota.
  assert (C : this_year / 100 = 20)
    by (symmetry; apply (Z.div_unique this_year 100 20 (this_year - 2000)); lia).
  rewrite C.
  destruct (this_year + 50 <=? 1 + 20 * 100) eqn:A; [lia|].
  destruct (1 + 20 * 100 <? this_year - 50) eqn:B; [lia|].
  reflexivity.
Qed.

Lemma read_5_03_01 (this_year : Z) :
  2000 <= this_year <= 2051 ->
  Dateutil.read_column this_year [[0x35; 0x2D; 0x30; 0x33; 0x2D; 0x30; 0x31]]
  = Ok [MkTs 2001 5 3].
Proof.
  intros R. unfold Dateutil.read_column. cbn [mapM]. unfold Dateutil.read.
  change (Dates.parse_iso [0x35; 0x2D; 0x30; 0x33; 0x2D; 0x30; 0x31])
    with (Raise (ValueError [0x35; 0x2D; 0x30; 0x33; 0x2D; 0x30; 0x31])
          : result Timestamp).
  cbv iota. unfold Dateutil.parse.
  change (Dateutil.three [0x35; 0x2D; 0x30; 0x33; 0x2D; 0x30; 0x31])
    with (Some ((5, 1%nat), (3, 2%nat), (1, 2%nat))).
  cbv iota beta zeta.
  change ((2 <? 1)%nat || (2 <? 2)%nat || (2 <? 2)%nat) with false.
  change ((2 <? 1)%nat || (31 <? 5)) with false.
  change (12 <? 5) with false. cbv iota beta.
  rewrite (convertyear_1 this_year R). reflexivity.
Qed.

(** C8, where the code breaks it: the header "0005년3월_인구증감_계"
    matches the grammar with the year 5; the year is written without its
    zeros (the month is filled to two digits, the year is not filled to
    four), the date text is "5-03-01", dateutil reads it as month 5, day
    3, year 01, and the one row of the long table has the date
    2001-05-03, which is no first of a month.  (For a current year from
    2000 to 2051; in other years the year read differs.) *)
Theorem year_5_not_first_of_month (this_year : Z) :
  2000 <= this_year <= 2051 ->
  Header.parse header_0005_3 = Some (5, 3, K.POP_CHANGE, K.TOTAL)
  /\ normalize (Dateutil.read_column this_year) year_5
     = Ok [Row (Some [0x41]) (MkTs 2001 5 3) K.POP_CHANGE K.TOTAL (of_int 1234)].
Proof.
  intros R. split; [reflexivity|].
  unfold normalize. rewrite tidy_table_eq.
  change (getcol year_5 K.REGION) with (Ok [CStr [0x41]] : result (list cell)).
  cbn [bind]. cbv zeta.
  match goal with
  | |- context [melt ?a ?b ?c ?d] =>
      let v := eval vm_compute in (melt a b c d) in
      change (melt a b c d) with v
  end.
  cbn [bind].
  match goal with
  | |- context [merge_left ?a ?b] =>
      let v := eval vm_compute in (merge_left a b) in
      change (merge_left a b) with v
  end.
  unfold with_dates.
  match goal with
  | |- context [map (date_text ?f) ?l] =>
      let v := eval vm_compute in (map (date_text f) l) in
      change (map (date_text f) l) with v
  end.
  unfold Dates.to_datetime.
  match goal with
  | |- context [Dates.iso_shape ?t] => change (Dates.iso_shape t) with false
  end.
  cbv iota.
  match goal with
  | |- context [Dateutil.read_column this_year ?l] =>
      change (Dateutil.read_column this_year l)
        with (Dateutil.read_column this_year
                [[0x35; 0x2D; 0x30; 0x33; 0x2D; 0x30; 0x31]])
  end.
  rewrite (read_5_03_01 this_year R). vm_compute. reflexivity.
Qed.

Lemma year_5_not_first_of_month_witness :
  normalize dateutil_2026 year_5
  = Ok [Row (Some [0x41]) (MkTs 2001 5 3) K.POP_CHANGE K.TOTAL (of_int 1234)].
Proof. apply (year_5_not_first_of_month 2026). lia. Defined.
